(** * Structure extraction and persona-driven ranking: a shallow embedding

    The development follows the two services of the repository:

    - [project_1a.py], class [PDFStructureExtractor]: title resolution,
      outline resolution from the table of contents and the font-analysis
      fallback;
    - [project_1b.py], class [DocumentIntelligenceAnalyzer]: segmentation of
      a document into sections, ranking of sections against a query, and
      refinement of the best sections into snippets.

    Modelling conventions.
    - A Python [str] is a list of characters; a character is a code point
      below 256 (type [ascii]), so [len] is [length] and a slice [s[:n]] is
      [firstn n s].
    - Python floats (font sizes, coordinates, similarities) are rationals
      [Q] with exact arithmetic; comparisons are the boolean ones of [Q].
      The thresholds of the font-analysis fallback are the exception: the
      products [base_font_size * 1.4], [* 1.2] and [* 1.1] are computed as
      the machine computes them, in binary64 with rounding to nearest, ties
      to even (module [Float64], on the IEEE 754 specification of the
      library).
    - The layout decoder (PyMuPDF) is the boundary: a document is the data
      it hands over (metadata title, table of contents, pages of blocks of
      lines of spans).
    - The vector-space model (TF-IDF, truncated SVD, cosine similarity) is a
      parameter of the ranking code: a call either raises or returns the
      vector of similarities. *)

From Stdlib Require Import Ascii String DecimalString.
From Stdlib Require Import Bool Arith ZArith QArith Lia Lqa.
From Stdlib Require Import List Permutation Sorted.
From Stdlib Require SpecFloat.
Import ListNotations.

Open Scope nat_scope.

(** ** Python strings *)

Module Py.

Definition str := list ascii.

Definition lit (s : string) : str := list_ascii_of_string s.

Definition code (c : ascii) : nat := nat_of_ascii c.

Definition between (lo hi n : nat) : bool := (lo <=? n) && (n <=? hi).

(** [str.isspace] on code points below 256; it is also the class [\s] of a
    [re] pattern on [str]. *)
Definition is_space (c : ascii) : bool :=
  let n := code c in
  between 9 13 n || between 28 32 n || (n =? 133) || (n =? 160).

(** The class [\d] of a [re] pattern on [str], below 256. *)
Definition is_digit (c : ascii) : bool := between 48 57 (code c).

Definition is_upper_az (c : ascii) : bool := between 65 90 (code c).
Definition is_lower_az (c : ascii) : bool := between 97 122 (code c).

(** The class [[a-zA-Z0-9]]. *)
Definition is_alnum (c : ascii) : bool :=
  is_upper_az c || is_lower_az c || is_digit c.

(** [str.lower] on one code point below 256. *)
Definition lower_char (c : ascii) : ascii :=
  let n := code c in
  if between 65 90 n || (between 192 222 n && negb (n =? 215))
  then ascii_of_nat (n + 32) else c.

Definition lower (s : str) : str := map lower_char s.

Fixpoint drop_while (p : ascii -> bool) (s : str) : str :=
  match s with
  | [] => []
  | c :: s' => if p c then drop_while p s' else s
  end.

Definition drop_while_end (p : ascii -> bool) (s : str) : str :=
  rev (drop_while p (rev s)).

Definition lstrip (s : str) : str := drop_while is_space s.
Definition rstrip (s : str) : str := drop_while_end is_space s.

(** [s.strip()] *)
Definition strip (s : str) : str := rstrip (lstrip s).

Definition eqb_char (a b : ascii) : bool := Ascii.eqb a b.

Fixpoint eqb (a b : str) : bool :=
  match a, b with
  | [], [] => true
  | x :: a', y :: b' => eqb_char x y && eqb a' b'
  | _, _ => false
  end.

(** Truth value of a string: non-empty. *)
Definition truthy (s : str) : bool :=
  match s with [] => false | _ => true end.

(** [s.startswith(p)] *)
Fixpoint starts_with (p s : str) : bool :=
  match p, s with
  | [], _ => true
  | x :: p', y :: s' => eqb_char x y && starts_with p' s'
  | _ :: _, [] => false
  end.

(** [s.split(sep)] for the two-character separator of a blank line,
    [s.split('\n\n')]: non-overlapping occurrences, left to right. *)
Definition nl : ascii := ascii_of_nat 10.

Fixpoint split_blank_aux (cur : str) (s : str) : list str :=
  match s with
  | [] => [rev cur]
  | c :: s' =>
      match s' with
      | c' :: s'' =>
          if eqb_char c nl && eqb_char c' nl
          then rev cur :: split_blank_aux [] s''
          else split_blank_aux (c :: cur) s'
      | [] => [rev (c :: cur)]
      end
  end.

Definition split_blank (s : str) : list str := split_blank_aux [] s.

(** ['\n\n'.join(l)] *)
Fixpoint join_blank (l : list str) : str :=
  match l with
  | [] => []
  | p :: rest =>
      match rest with
      | [] => p
      | _ => p ++ [nl; nl] ++ join_blank rest
      end
  end.

(** The string has a blank line: two line feeds in a row. *)
Fixpoint has_blank (s : str) : bool :=
  match s with
  | c :: s' =>
      match s' with
      | c' :: _ => (eqb_char c nl && eqb_char c' nl) || has_blank s'
      | [] => false
      end
  | [] => false
  end.

End Py.

(** ** Regular expressions of the source

    The patterns of the source are sequences of character classes that are
    pairwise disjoint where they meet, so a greedy left-to-right match
    decides [re.match]: a matcher consumes a prefix and returns the rest. *)

Module Re.
Import Py.

Definition matcher := str -> option str.

(** [c+] for a class [c] *)
Definition many1 (p : ascii -> bool) : matcher := fun s =>
  match s with
  | c :: s' => if p c then Some (drop_while p s') else None
  | [] => None
  end.

(** one character of a class *)
Definition one (p : ascii -> bool) : matcher := fun s =>
  match s with
  | c :: s' => if p c then Some s' else None
  | [] => None
  end.

(** [\.?] *)
Definition opt_dot : matcher := fun s =>
  match s with
  | c :: s' => if eqb_char c "."%char then Some s' else Some s
  | [] => Some s
  end.

Definition dot : matcher := one (fun c => eqb_char c "."%char).

(** a literal word, case-sensitive *)
Definition word (w : string) : matcher := fun s =>
  if starts_with (lit w) s then Some (skipn (length (lit w)) s) else None.

(** a literal word under [re.IGNORECASE] *)
Definition word_ci (w : string) : matcher := fun s =>
  if starts_with (lower (lit w)) (lower (firstn (length (lit w)) s))
  then Some (skipn (length (lit w)) s) else None.

Definition seq2 (m1 m2 : matcher) : matcher := fun s =>
  match m1 s with
  | Some r => m2 r
  | None => None
  end.

Infix ">>" := seq2 (at level 61, left associativity).

Definition matches (m : matcher) (s : str) : bool :=
  match m s with Some _ => true | None => false end.

Definition is_roman (c : ascii) : bool :=
  eqb_char c "I"%char || eqb_char c "V"%char || eqb_char c "X"%char.

(** [re.sub(r'^[^a-zA-Z0-9]*', '', s)] *)
Definition strip_leading_non_alnum (s : str) : str :=
  drop_while (fun c => negb (is_alnum c)) s.

(** [re.sub(r'[^a-zA-Z0-9]*$', '', s)]: the class contains the line feed,
    so the match that reaches the end of the string is the maximal trailing
    run. *)
Definition strip_trailing_non_alnum (s : str) : str :=
  drop_while_end (fun c => negb (is_alnum c)) s.

(** [re.sub(r'[.]*$', '', s)]: [$] matches at the end of the string and
    also just before a line feed that ends it. *)
Definition strip_trailing_dots (s : str) : str :=
  let is_dot := fun c => eqb_char c "."%char in
  match rev s with
  | c :: r => if eqb_char c nl
              then rev (drop_while is_dot r) ++ [nl]
              else drop_while_end is_dot s
  | [] => []
  end.

End Re.

(** ** Sorting as [list.sort] does: stable

    [before y x] says that [y] must come strictly before [x].  An element
    moves right only past elements that must come before it, so elements
    that compare equal keep their order. *)

Module Sorting.

Section Insertion.
Context {A : Type} (before : A -> A -> bool).

Fixpoint insert (x : A) (l : list A) : list A :=
  match l with
  | [] => [x]
  | y :: l' => if before y x then y :: insert x l' else x :: l
  end.

Definition sort (l : list A) : list A := fold_right insert [] l.

End Insertion.

Definition Qltb (a b : Q) : bool := negb (Qle_bool b a).

(** [l.sort(key=k)] with a rational key *)
Definition sort_key {A} (k : A -> Q) : list A -> list A :=
  sort (fun y x => Qltb (k y) (k x)).

(** [l.sort(key=k, reverse=True)] with a rational key *)
Definition sort_key_reverse {A} (k : A -> Q) : list A -> list A :=
  sort (fun y x => Qltb (k x) (k y)).

(** [enumerate(l)] *)
Definition enumerate {A} (l : list A) : list (nat * A) :=
  combine (seq 0 (length l)) l.

(** The order of a descending stable sort on elements that carry their
    position: by decreasing key and, among equal keys, by position. *)
Definition by_key_then_position {A} (k : A -> Q) (idx : A -> nat) (a b : A)
  : Prop :=
  (k b < k a)%Q \/ ((k a == k b)%Q /\ idx a < idx b).

End Sorting.

(** ** Binary64 products

    A float of the code is a rational of the model; [of_Q] gives the
    binary64 value of a rational (itself when it is one, else what the
    division of its numerator by its denominator gives, as for a literal
    such as [1.4]), [mul] is the product of two floats and [ge x t] is the
    comparison [x >= t] of a finite [x] with a product [t], which may be
    infinite or not a number. *)

Module Float64.

Definition prec : Z := 53.
Definition emax : Z := 1024.

Definition float : Type := SpecFloat.spec_float.

(** [Some k] when the number is the power of two [2^k]. *)
Fixpoint log2_pow2 (d : positive) : option Z :=
  match d with
  | xH => Some 0%Z
  | xO p => option_map Z.succ (log2_pow2 p)
  | xI _ => None
  end.

Definition of_Z (n : Z) : float :=
  SpecFloat.binary_normalize prec emax n 0 false.

Definition of_Q (q : Q) : float :=
  match log2_pow2 (Qden q) with
  | Some k => SpecFloat.binary_normalize prec emax (Qnum q) (- k) false
  | None => SpecFloat.SFdiv prec emax (of_Z (Qnum q)) (of_Z (Zpos (Qden q)))
  end.

Definition mul (a b : float) : float := SpecFloat.SFmul prec emax a b.

(** [x * c] for a float [x] and a literal [c] *)
Definition times (x c : Q) : float := mul (of_Q x) (of_Q c).

(** The rational that a finite float is. *)
Definition value (s : bool) (m : positive) (e : Z) : Q :=
  (inject_Z (if s then Zneg m else Zpos m) * Qpower 2 e)%Q.

(** [x >= t] *)
Definition ge (x : Q) (t : float) : bool :=
  match t with
  | SpecFloat.S754_zero _ => Qle_bool 0 x
  | SpecFloat.S754_finite s m e => Qle_bool (value s m e) x
  | SpecFloat.S754_infinity s => s
  | SpecFloat.S754_nan => false
  end.

End Float64.

(** ** The layout data handed over by the PDF decoder *)

Module Layout.
Import Py.

(** A span of [page.get_text("dict")]: its text, font size, the bitmask
    [flags] (bit 4 is bold) and its bounding box [(x0, y0, x1, y1)]. *)
Record Span := {
  span_text : str;
  span_size : Q;
  span_flags : Z;
  span_bbox : Q * Q * Q * Q
}.

Record Line := { spans : list Span }.

(** A block has the key ["lines"] (a text block) or has not (an image). *)
Inductive Block :=
| TextBlock (lines : list Line)
| ImageBlock.

Record Page := {
  blocks : list Block;
  rect_height : Q
}.

(** [doc.metadata] may lack the key ['title']; [doc.get_toc()] is a list of
    [(level, title, page)]. *)
Record Document := {
  metadata_title : option str;
  get_toc : list (Z * str * Z);
  pages : list Page
}.

Definition bbox_y0 (b : Q * Q * Q * Q) : Q :=
  let '(_, y0, _, _) := b in y0.

(** [flag & 2**4] as a truth value *)
Definition bold_bit (flag : Z) : bool := negb (Z.land flag 16 =? 0)%Z.

(** [any(flag & 2**4 for flag in line_flags)] *)
Definition any_bold (line_flags : list Z) : bool := existsb bold_bit line_flags.

(** The spans a line loop keeps: those whose stripped text is non-empty. *)
Definition kept_spans (l : Line) : list Span :=
  filter (fun sp => truthy (strip (span_text sp))) (spans l).

(** [line_text], [line_font_sizes] and [line_flags] after the loop over the
    spans of a line (the same loop in both services). *)
Definition line_text (l : Line) : str :=
  flat_map (fun sp => strip (span_text sp) ++ lit " ") (kept_spans l).

Definition line_font_sizes (l : Line) : list Q := map span_size (kept_spans l).

Definition line_flags (l : Line) : list Z := map span_flags (kept_spans l).

(** [sum(l)] and the mean [sum(l) / len(l)] *)
Definition sum (l : list Q) : Q := fold_left Qplus l 0%Q.

Definition mean (l : list Q) : Q := (sum l / inject_Z (Z.of_nat (length l)))%Q.

End Layout.

(** ** project_1a.py: [PDFStructureExtractor] *)

Module PDFStructureExtractor.
Import Py Re Sorting Layout.

Record OutlineEntry := {
  level : str;
  text : str;
  page : Z
}.

Definition unknown_document : str := lit "Unknown Document".

(** [self.heading_patterns], tried with [re.match] *)
Definition heading_patterns : list matcher :=
  [ many1 is_digit >> opt_dot >> many1 is_space;
    many1 is_digit >> dot >> many1 is_digit >> opt_dot >> many1 is_space;
    many1 is_digit >> dot >> many1 is_digit >> dot >> many1 is_digit
      >> opt_dot >> many1 is_space;
    many1 is_roman >> opt_dot >> many1 is_space;
    one is_upper_az >> opt_dot >> many1 is_space;
    one is_lower_az >> opt_dot >> many1 is_space;
    word "Chapter" >> many1 is_space >> many1 is_digit;
    word "Section" >> many1 is_space >> many1 is_digit ].

(** *** Title *)

(** The candidates of the first page: [(text, font_size, bbox[1])] of the
    spans in the top 40% of the page whose stripped text is longer than 5. *)
Definition title_candidates (page : Page) : list (str * Q * Q) :=
  flat_map (fun b =>
    match b with
    | TextBlock lines =>
        flat_map (fun line =>
          flat_map (fun span =>
            let text := strip (span_text span) in
            let font_size := span_size span in
            let bbox := span_bbox span in
            if Qltb (bbox_y0 bbox) (rect_height page * (4 # 10))
               && (5 <? length text)
            then [(text, font_size, bbox_y0 bbox)] else [])
            (spans line))
          lines
    | ImageBlock => []
    end) (blocks page).

(** The order of the keys [(-x[1], x[2])]: tuples compare lexicographically. *)
Definition title_key_lt (a b : str * Q * Q) : bool :=
  let '(_, sa, ya) := a in
  let '(_, sb, yb) := b in
  Qltb (- sa) (- sb) || (Qeq_bool (- sa) (- sb) && Qltb ya yb).

(** The two [re.sub] calls on the best candidate. *)
Definition trim_non_alnum (t : str) : str :=
  strip_trailing_non_alnum (strip_leading_non_alnum t).

(** [doc.metadata.get('title', '').strip()] *)
Definition stripped_metadata_title (doc : Document) : str :=
  strip (match metadata_title doc with Some t => t | None => [] end).

Definition _extract_title (doc : Document) : str :=
  let metadata_title := stripped_metadata_title doc in
  if truthy metadata_title && (3 <? length metadata_title)
  then metadata_title
  else
    match pages doc with
    | page :: _ =>
        match sort title_key_lt (title_candidates page) with
        | (t, _, _) :: _ =>
            let potential_title := trim_non_alnum t in
            if 3 <? length potential_title
            then potential_title
            else unknown_document
        | [] => unknown_document
        end
    | [] => unknown_document
    end.

(** *** Font-analysis fallback *)

(** An element of [all_text_blocks] (the key ['bbox'] is never read). *)
Record TextLine := {
  tl_text : str;
  tl_font_size : Q;
  tl_page : Z;
  tl_is_bold : bool
}.

Definition text_line (page_num : nat) (l : Line) : list TextLine :=
  let text := strip (line_text l) in
  if truthy text && (2 <? length text)
  then [ {| tl_text := text;
            tl_font_size := match line_font_sizes l with
                            | [] => 0%Q
                            | fs => mean fs
                            end;
            tl_page := Z.of_nat (page_num + 1);
            tl_is_bold := any_bold (line_flags l) |} ]
  else [].

Definition all_text_blocks (doc : Document) : list TextLine :=
  flat_map (fun '(page_num, page) =>
    flat_map (fun b =>
      match b with
      | TextBlock lines => flat_map (text_line page_num) lines
      | ImageBlock => []
      end) (blocks page))
    (enumerate (pages doc)).

(** [Counter(l).most_common(1)[0][0]]: the first value, in the order of the
    list, among those that occur most often. *)
Definition count (x : Q) (l : list Q) : nat := length (filter (Qeq_bool x) l).

Definition most_common (l : list Q) : option Q :=
  fold_left (fun best x =>
    match best with
    | None => Some x
    | Some b => if count b l <? count x l then Some x else Some b
    end) l None.

Definition H1 : str := lit "H1".
Definition H2 : str := lit "H2".
Definition H3 : str := lit "H3".

Definition is_pattern_match (text : str) : bool :=
  existsb (fun pattern => matches pattern text) heading_patterns.

(** The level of a line, [None] when it is no heading. *)
Definition heading_level (base_font_size : Q) (block : TextLine) : option str :=
  let font_size := tl_font_size block in
  let is_bold := tl_is_bold block in
  let h1_threshold := Float64.times base_font_size (14 # 10) in
  let h2_threshold := Float64.times base_font_size (12 # 10) in
  let h3_threshold := Float64.times base_font_size (11 # 10) in
  if Float64.ge font_size h1_threshold
     || (is_bold
         && Float64.ge font_size (Float64.times base_font_size (11 # 10)))
  then Some H1
  else if Float64.ge font_size h2_threshold
          || (is_bold && is_pattern_match (tl_text block))
  then Some H2
  else if Float64.ge font_size h3_threshold
          || is_pattern_match (tl_text block)
  then Some H3
  else None.

Definition clean_text (text : str) : str :=
  strip (strip_trailing_dots (strip_leading_non_alnum text)).

(** The body of the loop over [all_text_blocks]: the heading a line adds. *)
Definition heading_of (base_font_size : Q) (block : TextLine)
  : list OutlineEntry :=
  if 200 <? length (tl_text block) then []
  else
    match heading_level base_font_size block with
    | Some lvl =>
        let clean := clean_text (tl_text block) in
        if (2 <? length clean) && (length clean <? 150)
        then [ {| level := lvl; text := clean; page := tl_page block |} ]
        else []
    | None => []
    end.

Definition heading_key (h : OutlineEntry) : str * Z := (lower (text h), page h).

Definition key_eqb (a b : str * Z) : bool :=
  Py.eqb (fst a) (fst b) && (snd a =? snd b)%Z.

(** The loop with the set [seen]: the first heading of each key is kept. *)
Fixpoint unique (seen : list (str * Z)) (headings : list OutlineEntry)
  : list OutlineEntry :=
  match headings with
  | [] => []
  | heading :: rest =>
      let heading_key := heading_key heading in
      if existsb (key_eqb heading_key) seen
      then unique seen rest
      else heading :: unique (heading_key :: seen) rest
  end.

Definition base_font_size_of (blocks : list TextLine) : option Q :=
  most_common (sort_key_reverse (fun x => x) (map tl_font_size blocks)).

Definition _extract_headings_by_font_analysis (doc : Document)
  : list OutlineEntry :=
  let all_text_blocks := all_text_blocks doc in
  match base_font_size_of all_text_blocks with
  | None => []
  | Some base_font_size =>
      let headings := flat_map (heading_of base_font_size) all_text_blocks in
      let unique_headings := unique [] headings in
      sort_key (fun x => inject_Z (page x)) unique_headings
  end.

(** *** The font sizes behind the levels

    The outline entries do not keep the font size of their line; these
    lists recover, for a level, the font sizes of the lines that the
    fallback turns into a heading of that level. *)
Definition emits (base_font_size : Q) (lvl : str) (block : TextLine) : bool :=
  match heading_of base_font_size block with
  | h :: _ => Py.eqb (level h) lvl
  | [] => false
  end.

Definition classified_sizes (doc : Document) (lvl : str) : list Q :=
  match base_font_size_of (all_text_blocks doc) with
  | None => []
  | Some base_font_size =>
      map tl_font_size
          (filter (emits base_font_size lvl) (all_text_blocks doc))
  end.

(** The same over the lines without a bold span. *)
Definition nonbold_classified_sizes (doc : Document) (lvl : str) : list Q :=
  match base_font_size_of (all_text_blocks doc) with
  | None => []
  | Some base_font_size =>
      map tl_font_size
          (filter (fun block => negb (tl_is_bold block)
                                && emits base_font_size lvl block)
                  (all_text_blocks doc))
  end.

(** The same over the lines with a bold span. *)
Definition bold_classified_sizes (doc : Document) (lvl : str) : list Q :=
  match base_font_size_of (all_text_blocks doc) with
  | None => []
  | Some base_font_size =>
      map tl_font_size
          (filter (fun block => tl_is_bold block
                                && emits base_font_size lvl block)
                  (all_text_blocks doc))
  end.

(** *** Outline *)

Definition decimal (z : Z) : str :=
  list_ascii_of_string (NilZero.string_of_int (Z.to_int z)).

(** One entry of the table of contents as an outline entry. *)
Definition toc_entry (item : Z * str * Z) : OutlineEntry :=
  let '(lvl, title, pg) := item in
  {| level := lit "H" ++ decimal (Z.min lvl 3);
     text := strip title;
     page := pg |}.

(** The entry as the specification of the outline words it: the level capped at 3 and the
    text of the entry as it stands in the table of contents. *)
Definition toc_entry_verbatim (item : Z * str * Z) : OutlineEntry :=
  let '(lvl, title, pg) := item in
  {| level := lit "H" ++ decimal (Z.min lvl 3);
     text := title;
     page := pg |}.

Definition _extract_outline (doc : Document) : list OutlineEntry :=
  let outline := map toc_entry (firstn 50 (get_toc doc)) in
  let outline :=
    if length outline <? 3
    then _extract_headings_by_font_analysis doc
    else outline in
  firstn 50 outline.

(** [extract_structure], for a document that could be opened *)
Definition extract_structure (doc : Document) : str * list OutlineEntry :=
  (_extract_title doc, _extract_outline doc).

End PDFStructureExtractor.

(** ** project_1b.py: [DocumentIntelligenceAnalyzer] *)

Module DocumentIntelligenceAnalyzer.
Import Py Re Sorting Layout.

Record Section := {
  document : str;
  page_number : Z;
  section_title : str;
  content : str
}.

(** A section dictionary after the key ["importance_rank"] is set. *)
Record RankedSection := {
  section : Section;
  importance_rank : nat
}.

Record Subsection := {
  sub_document : str;
  sub_section_title : str;
  refined_text : str;
  sub_page_number : Z
}.

(** *** Segmentation *)

(** The accumulator [current_section]. *)
Record CurrentSection := {
  title : str;
  acc_content : str;
  acc_page : Z
}.

Definition initial_section : CurrentSection :=
  {| title := []; acc_content := []; acc_page := 1 |}.

Definition untitled_section : str := lit "Untitled Section".

(** What one line adds to [block_text] and to [font_sizes]. *)
Definition block_line_text (l : Line) : str :=
  if truthy (strip (line_text l)) then line_text l ++ [nl] else [].

Definition block_line_sizes (l : Line) : list Q :=
  if truthy (strip (line_text l)) then line_font_sizes l else [].

Definition block_text (lines : list Line) : str :=
  strip (flat_map block_line_text lines).

Definition font_sizes (lines : list Line) : list Q :=
  flat_map block_line_sizes lines.

(** [line_flags] is assigned anew for every line of the block and read
    after the loop over the lines: at that point it holds the flags of the
    last line.  (A block without lines has an empty [block_text] and never
    reaches the test.) *)
Definition flags_after_lines (lines : list Line) : list Z :=
  last (map line_flags lines) [].

Definition has_heading_pattern (block_text : str) : bool :=
  matches (many1 is_digit >> opt_dot >> many1 is_space) block_text
  || matches (word_ci "Chapter") block_text
  || matches (word_ci "Section") block_text
  || matches (word_ci "Introduction") block_text
  || matches (word_ci "Conclusion") block_text
  || matches (word_ci "Abstract") block_text
  || matches (word_ci "References") block_text.

Definition is_heading (lines : list Line) : bool :=
  let block_text := block_text lines in
  let avg_font_size :=
    match font_sizes lines with
    | [] => 12%Q
    | fs => mean fs
    end in
  let is_bold := any_bold (flags_after_lines lines) in
  let is_short := length block_text <? 100 in
  (is_bold && is_short) || has_heading_pattern block_text
  || Qltb 14 avg_font_size.

(** The classification as the specification words it: the bold flag
    is taken over the spans of the whole block. *)
Definition block_flags (lines : list Line) : list Z :=
  flat_map line_flags lines.

Definition is_heading_block_bold (lines : list Line) : bool :=
  let block_text := block_text lines in
  let avg_font_size :=
    match font_sizes lines with
    | [] => 12%Q
    | fs => mean fs
    end in
  let is_bold := any_bold (block_flags lines) in
  let is_short := length block_text <? 100 in
  (is_bold && is_short) || has_heading_pattern block_text
  || Qltb 14 avg_font_size.

(** The section dictionary built from the accumulator. *)
Definition section_of (doc_name : str) (cur : CurrentSection) : Section :=
  {| document := doc_name;
     page_number := acc_page cur;
     section_title := if truthy (title cur) then title cur else untitled_section;
     content := strip (acc_content cur) |}.

(** "Save previous section": appended when long enough. *)
Definition save (doc_name : str) (cur : CurrentSection) : list Section :=
  if 50 <? length (strip (acc_content cur))
  then [section_of doc_name cur] else [].

Definition SegState : Type := list Section * CurrentSection.

(** The body of the loop over the blocks of page [page_num]. *)
Definition segment_block (doc_name : str) (page_num : nat)
    (st : SegState) (block : Block) : SegState :=
  let '(sections, current_section) := st in
  match block with
  | ImageBlock => st
  | TextBlock lines =>
      let block_text := block_text lines in
      if truthy block_text then
        let is_heading := is_heading lines in
        if is_heading && truthy (strip (acc_content current_section)) then
          (sections ++ save doc_name current_section,
           {| title := firstn 100 block_text;
              acc_content := [];
              acc_page := Z.of_nat (page_num + 1) |})
        else if is_heading && negb (truthy (title current_section)) then
          (sections,
           {| title := firstn 100 block_text;
              acc_content := acc_content current_section;
              acc_page := Z.of_nat (page_num + 1) |})
        else
          (sections,
           {| title := title current_section;
              acc_content := acc_content current_section
                               ++ block_text ++ [nl; nl];
              acc_page := acc_page current_section |})
      else st
  end.

Definition segment_page (doc_name : str) (st : SegState)
    (p : nat * Page) : SegState :=
  fold_left (segment_block doc_name (fst p)) (blocks (snd p)) st.

Definition _extract_sections_from_document (doc : Document) (doc_name : str)
  : list Section :=
  let '(sections, current_section) :=
    fold_left (segment_page doc_name) (enumerate (pages doc))
      ([], initial_section) in
  if truthy (strip (acc_content current_section))
     && (50 <? length (strip (acc_content current_section)))
  then sections ++ [section_of doc_name current_section]
  else sections.

(** The blocks of a document in the order of the two loops, each with the
    index of its page, and the state of the loops after some of them. *)
Definition all_blocks (doc : Document) : list (nat * Block) :=
  flat_map (fun p => map (pair (fst p)) (blocks (snd p)))
           (enumerate (pages doc)).

Definition run_blocks (doc_name : str) (bs : list (nat * Block))
    (st : SegState) : SegState :=
  fold_left (fun st b => segment_block doc_name (fst b) st (snd b)) bs st.

(** An accumulator that the loops hold at some point of the run. *)
Definition reached (doc : Document) (doc_name : str) (cur : CurrentSection)
  : Prop :=
  exists pre suf,
    all_blocks doc = pre ++ suf
    /\ snd (run_blocks doc_name pre ([], initial_section)) = cur.

(** An accumulator of the run whose stripped content is longer than 50. *)
Definition emitted_ok (doc : Document) (doc_name : str)
    (cur : CurrentSection) : Prop :=
  reached doc doc_name cur /\ 50 < length (strip (acc_content cur)).

(** [_extract_all_sections], over the documents that could be opened *)
Definition _extract_all_sections (documents : list (str * Document))
  : list Section :=
  flat_map (fun '(doc_name, doc) =>
    _extract_sections_from_document doc doc_name) documents.

(** *** The vector-space model

    The state of [self.vectorizer] and [self.lsa] is a [Model].
    [fit_similarities] stands for the calls [fit_transform], [fit_transform]
    and [cosine_similarity] of the ranker: it refits the model and raises
    ([None]) or returns the similarities of the texts but the last to the
    last one.  [transform_similarities] stands for [transform], [transform]
    and [cosine_similarity] of the refiner: the model is read, not refit. *)
Record VectorSpace := {
  Model : Type;
  fit_similarities : Model -> list str -> Model * option (list Q);
  transform_similarities : Model -> list str -> option (list Q)
}.

(** *** Ranking *)

Definition section_text (s : Section) : str :=
  section_title s ++ lit " " ++ content s.

(** The loop that copies every section with its score; [similarities[i]]
    raises out of range. *)
Fixpoint score_all (similarities : list Q) (indexed : list (nat * Section))
  : option (list (Section * Q)) :=
  match indexed with
  | [] => Some []
  | (i, s) :: rest =>
      match nth_error similarities i, score_all similarities rest with
      | Some q, Some scored => Some ((s, q) :: scored)
      | _, _ => None
      end
  end.

(** "Assign rank numbers" *)
Definition assign_ranks {A} (proj : A -> Section) (l : list A)
  : list RankedSection :=
  map (fun '(i, x) => {| section := proj x; importance_rank := i + 1 |})
      (enumerate l).

(** The body of the [try] of [_score_sections] after the model calls. *)
Definition rank_scored (sections : list Section) (similarities : list Q)
  : option (list RankedSection) :=
  match score_all similarities (enumerate sections) with
  | Some scored_sections =>
      Some (assign_ranks fst (sort_key_reverse snd scored_sections))
  | None => None
  end.

Definition _score_sections (V : VectorSpace) (m : Model V)
    (sections : list Section) (query : str)
  : Model V * list RankedSection :=
  match sections with
  | [] => (m, [])
  | _ =>
      let section_texts := map section_text sections in
      let all_texts := section_texts ++ [query] in
      let '(m', result) := fit_similarities V m all_texts in
      match result with
      | Some similarities =>
          match rank_scored sections similarities with
          | Some ranked => (m', ranked)
          | None => (m', assign_ranks (fun s => s) sections)
          end
      | None => (m', assign_ranks (fun s => s) sections)
      end
  end.

(** *** Refinement *)

(** [[p.strip() for p in content.split('\n\n') if len(p.strip()) > 100]] *)
Definition qualifying_paragraphs (content : str) : list str :=
  filter (fun p => 100 <? length p) (map strip (split_blank content)).

(** [paragraphs] when the scoring starts. *)
Definition paragraphs_of (content : str) : list str :=
  match qualifying_paragraphs content with
  | [] => [firstn 500 content]
  | paragraphs => paragraphs
  end.

Definition ellipsis : str := lit "...".

(** [p[:300] + "..." if len(p) > 300 else p] *)
Definition truncate (p : str) : str :=
  if 300 <? length p then firstn 300 p ++ ellipsis else p.

(** [np.argmax]: the first index of a maximum; raises on an empty vector. *)
Fixpoint argmax_from (best_idx : nat) (best : Q) (i : nat) (l : list Q) : nat :=
  match l with
  | [] => best_idx
  | x :: l' =>
      if Qltb best x then argmax_from i x (S i) l'
      else argmax_from best_idx best (S i) l'
  end.

Definition argmax (l : list Q) : option nat :=
  match l with
  | [] => None
  | x :: l' => Some (argmax_from 0 x 1 l')
  end.

(** The body of the [try] of the refiner: the text of the best paragraph. *)
Definition best_paragraph (V : VectorSpace) (m : Model V)
    (paragraphs : list str) (query : str) : option str :=
  match transform_similarities V m (paragraphs ++ [query]) with
  | Some similarities =>
      match argmax similarities with
      | Some best_idx =>
          match nth_error paragraphs best_idx with
          | Some p => Some (truncate p)
          | None => None
          end
      | None => None
      end
  | None => None
  end.

Definition subsection_of (V : VectorSpace) (m : Model V) (query : str)
    (s : RankedSection) : Subsection :=
  let content := content (section s) in
  let paragraphs := paragraphs_of content in
  let refined_text :=
    match best_paragraph V m paragraphs query with
    | Some t => t
    | None => truncate (hd [] paragraphs)
    end in
  {| sub_document := document (section s);
     sub_section_title := section_title (section s);
     refined_text := refined_text;
     sub_page_number := page_number (section s) |}.

Definition _generate_subsections (V : VectorSpace) (m : Model V)
    (top_sections : list RankedSection) (query : str) : list Subsection :=
  map (subsection_of V m query) (firstn 10 top_sections).

(** *** Names for the intermediate values of the ranker *)

(** The similarity read for section [i]. *)
Definition sim (similarities : list Q) (i : nat) : Q := nth i similarities 0%Q.

(** [scored_sections] before the sort, when every index is in range. *)
Definition scored (sections : list Section) (similarities : list Q)
  : list (Section * Q) :=
  map (fun p => (snd p, sim similarities (fst p))) (enumerate sections).

(** The scored sections together with their positions. *)
Definition tagged (sections : list Section) (similarities : list Q)
  : list (nat * (Section * Q)) :=
  map (fun p => (fst p, (snd p, sim similarities (fst p)))) (enumerate sections).

(** The sections in the order of their ranks, with their positions. *)
Definition sorted_tagged (sections : list Section) (similarities : list Q) :=
  sort_key_reverse (fun t : nat * (Section * Q) => snd (snd t))
                   (tagged sections similarities).

(** A model whose calls have fixed outcomes. *)
Definition fixed_space (fit transform : option (list Q)) : VectorSpace :=
  {| Model := unit;
     fit_similarities := fun m _ => (m, fit);
     transform_similarities := fun _ _ => transform |}.

End DocumentIntelligenceAnalyzer.

(** ** Files and file names *)

Module Files.
Import Py Layout.

(** What opening a path gives: the path does not exist, [fitz.open]
    raises, or the decoder returns the document. *)
Inductive Opened :=
| Missing
| Unreadable
| Readable (doc : Document).

Fixpoint take_while (p : ascii -> bool) (s : str) : str :=
  match s with
  | [] => []
  | c :: s' => if p c then c :: take_while p s' else []
  end.

Definition is_slash (c : ascii) : bool := eqb_char c "/"%char.

(** [os.path.basename(path)]: what follows the last slash. *)
Definition basename (path : str) : str :=
  rev (take_while (fun c => negb (is_slash c)) (rev path)).

(** [s.endswith(suffix)] *)
Definition ends_with (suffix s : str) : bool :=
  starts_with (rev suffix) (rev s).

(** [old in s] *)
Fixpoint contains (old : str) (s : str) : bool :=
  starts_with old s
  || match s with
     | [] => false
     | _ :: s' => contains old s'
     end.

(** [s.replace(old, new)] for a non-empty [old]: the occurrences are
    replaced from left to right and do not overlap; [skip] counts the
    characters of a replaced occurrence that are still to be passed. *)
Fixpoint replace_from (old new : str) (skip : nat) (s : str) : str :=
  match s with
  | [] => []
  | c :: s' =>
      match skip with
      | S k => replace_from old new k s'
      | 0 =>
          if starts_with old s
          then new ++ replace_from old new (length old - 1) s'
          else c :: replace_from old new 0 s'
      end
  end.

Definition replace (old new s : str) : str := replace_from old new 0 s.

End Files.

(** ** project_1a.py: the entry points *)

Module StructureService.
Import Py Re Sorting Layout Files PDFStructureExtractor.

(** [extract_structure(pdf_path)]: any exception, that of [fitz.open]
    included, gives the sentinel title and an empty outline. *)
Definition extract_structure_file (opened : Opened)
  : str * list OutlineEntry :=
  match opened with
  | Readable doc => extract_structure doc
  | Missing | Unreadable => (unknown_document, [])
  end.

(** [process_pdfs]: the files it takes, [filename.lower().endswith('.pdf')],
    and the name it writes to, [filename.replace('.pdf', '.json')]. *)
Definition is_pdf_name (filename : str) : bool :=
  ends_with (lit ".pdf") (lower filename).

Definition output_filename (filename : str) : str :=
  replace (lit ".pdf") (lit ".json") filename.

(** The outputs of [process_pdfs] for the names of a directory listing:
    the name written to and the structure written, in listing order. *)
Definition process_pdfs (listing : list (str * Opened))
  : list (str * (str * list OutlineEntry)) :=
  flat_map (fun '(filename, opened) =>
    if is_pdf_name filename
    then [(output_filename filename, extract_structure_file opened)]
    else []) listing.

(** The files of the output directory that the batch has written:
    [open(output_path, 'w')] replaces a file of the same name. *)
Definition write_file {A} (dir : list (str * A)) (name : str) (content : A)
  : list (str * A) :=
  (name, content) :: filter (fun f => negb (Py.eqb (fst f) name)) dir.

Definition read_file {A} (dir : list (str * A)) (name : str) : option A :=
  option_map snd (find (fun f => Py.eqb (fst f) name) dir).

Definition output_directory (listing : list (str * Opened))
  : list (str * (str * list OutlineEntry)) :=
  fold_left (fun dir out => write_file dir (fst out) (snd out))
            (process_pdfs listing) [].

(** The depth of a level: 3 for H1, 2 for H2, 1 for H3, 0 for no heading. *)
Definition level_weight (lvl : option str) : nat :=
  match lvl with
  | Some l =>
      if Py.eqb l H1 then 3
      else if Py.eqb l H2 then 2
      else if Py.eqb l H3 then 1 else 0
  | None => 0
  end.

(** [headings] and [unique_headings] of the fallback before the sort. *)
Definition headings_of (doc : Document) : list OutlineEntry :=
  match base_font_size_of (all_text_blocks doc) with
  | None => []
  | Some base_font_size =>
      flat_map (heading_of base_font_size) (all_text_blocks doc)
  end.

Definition unique_headings_of (doc : Document) : list OutlineEntry :=
  unique [] (headings_of doc).

Definition is_level (l : str) : Prop := l = H1 \/ l = H2 \/ l = H3.

End StructureService.

(** ** project_1b.py: the entry point *)

Module AnalysisService.
Import Py Re Sorting Layout Files DocumentIntelligenceAnalyzer.

Record Metadata := {
  input_documents : list str;
  persona : str;
  job_to_be_done : str;
  processing_timestamp : str
}.

Record AnalysisResult := {
  metadata : Metadata;
  extracted_sections : list RankedSection;
  subsection_analysis : list Subsection
}.

(** [_extract_all_sections(documents)]: a path that does not exist is
    skipped, a document that cannot be read adds nothing. *)
Definition sections_of_path (d : str * Opened) : list Section :=
  match snd d with
  | Readable doc => _extract_sections_from_document doc (basename (fst d))
  | Missing | Unreadable => []
  end.

Definition extract_all_sections (documents : list (str * Opened))
  : list Section :=
  flat_map sections_of_path documents.

Definition _empty_result (documents : list str) (persona job : str)
    (now : str) : AnalysisResult :=
  {| metadata := {| input_documents := documents; persona := persona;
                    job_to_be_done := job; processing_timestamp := now |};
     extracted_sections := [];
     subsection_analysis := [] |}.

(** [analyze_documents]; [now] is [datetime.now().isoformat()].  The calls
    it makes contain their own failures, so the outer [except] is not
    reached from them. *)
Definition analyze_documents (V : VectorSpace) (m : Model V)
    (documents : list (str * Opened)) (persona job : str) (now : str)
  : Model V * AnalysisResult :=
  let all_sections := extract_all_sections documents in
  match all_sections with
  | [] => (m, _empty_result (map fst documents) persona job now)
  | _ =>
      let query_text := persona ++ lit " " ++ job in
      let '(m', ranked_sections) := _score_sections V m all_sections query_text in
      let subsections :=
        _generate_subsections V m' (firstn 20 ranked_sections) query_text in
      (m', {| metadata := {| input_documents := map fst documents;
                             persona := persona;
                             job_to_be_done := job;
                             processing_timestamp := now |};
              extracted_sections := firstn 15 ranked_sections;
              subsection_analysis := firstn 10 subsections |})
  end.

(** The text that the segmenter appends to the content when no block is a
    heading: every non-empty block text followed by a blank line. *)
Definition block_paragraph (b : nat * Block) : str :=
  match snd b with
  | TextBlock lines =>
      if truthy (block_text lines) then block_text lines ++ [nl; nl] else []
  | ImageBlock => []
  end.

Definition plain_text (doc : Document) : str :=
  flat_map block_paragraph (all_blocks doc).

Definition is_readable (d : str * Opened) : bool :=
  match snd d with
  | Readable _ => true
  | Missing | Unreadable => false
  end.

(** A section as the refiner and the result show it. *)
Definition well_formed_section (s : Section) : Prop :=
  0 < length (section_title s) <= 100
  /\ strip (content s) = content s
  /\ 50 < length (content s).

End AnalysisService.

(** ** Concrete inputs *)

Module Examples.
Import Py Layout DocumentIntelligenceAnalyzer.

Definition span (t : string) (size : Q) (flags : Z) (y : Q) : Span :=
  {| span_text := lit t; span_size := size; span_flags := flags;
     span_bbox := (72, y, 300, y + size)%Q |}.

Definition line_of (sp : Span) : Line := {| spans := [sp] |}.

Definition page_of (ls : list Line) : Page :=
  {| blocks := [TextBlock ls]; rect_height := 800 |}.

(** A document with a table of contents of three entries; the first title
    carries a leading blank. *)
Definition toc_doc : Document :=
  {| metadata_title := Some (lit "My Paper");
     get_toc := [ (1%Z, lit " Overview", 1%Z);
                  (2%Z, lit "Scope", 1%Z);
                  (5%Z, lit "Method", 2%Z) ];
     pages := [] |}.

(** A table of contents that lists one heading twice on the same page. *)
Definition dup_toc_doc : Document :=
  {| metadata_title := None;
     get_toc := [ (1%Z, lit "Introduction", 1%Z);
                  (2%Z, lit "introduction", 1%Z);
                  (1%Z, lit "Method", 2%Z) ];
     pages := [] |}.

(** A metadata title with a leading blank, in a document without pages. *)
Definition padded_title_doc : Document :=
  {| metadata_title := Some (lit " abc"); get_toc := []; pages := [] |}.

(** No metadata title; the first page has two spans of the largest size,
    the upper one wrapped in punctuation. *)
Definition heuristic_title_doc : Document :=
  {| metadata_title := None;
     get_toc := [];
     pages := [ page_of
       [ line_of (span "Technical report 42" 11 0 40);
         line_of (span "A study of outlines" 24 0 150);
         line_of (span "** Layout analysis **" 24 0 90);
         line_of (span "Body text of the first paragraph" 10 0 400) ] ] |}.

(** Lines without bold spans in three sizes above a body size of 10. *)
Definition plain_fonts_doc : Document :=
  {| metadata_title := None;
     get_toc := [];
     pages := [ page_of
       [ line_of (span "Main heading" 16 0 100);
         line_of (span "Body text of the first paragraph" 10 0 120);
         line_of (span "Second level heading" 13 0 140);
         line_of (span "Body text of the second paragraph" 10 0 160);
         line_of (span "Third level heading" 11 0 180);
         line_of (span "Body text of the third paragraph" 10 0 200) ] ] |}.

(** A text block of two lines: the first is bold, the second is not. *)
Definition bold_first_line_block : list Line :=
  [ line_of (span "Overview of the results" 12 16 100);
    line_of (span "continued on the next page" 12 0 114) ].

(** Body text before the first heading, a heading, and body text. *)
Definition report_doc : Document :=
  {| metadata_title := None;
     get_toc := [];
     pages := [
       {| blocks :=
            [ TextBlock [ line_of (span "This report describes how headings are found in the layout of a page." 10 0 100) ];
              ImageBlock;
              TextBlock [ line_of (span "1. Method" 12 16 140) ];
              TextBlock [ line_of (span "Too short to keep." 10 0 160) ] ];
          rect_height := 800 |};
       {| blocks :=
            [ TextBlock [ line_of (span "Results" 18 0 100) ];
              TextBlock [ line_of (span "Most headings of the sampled documents are recovered by the heuristic." 10 0 120) ] ];
          rect_height := 800 |} ] |}.

(** A page without table of contents: three body lines of size 10, a bold
    line of size 12 and a larger line of size 13 that is not bold. *)
Definition fonts_doc : Document :=
  {| metadata_title := None;
     get_toc := [];
     pages := [ page_of
       [ line_of (span "Bold heading" 12 16 100);
         line_of (span "Body text of the first paragraph" 10 0 120);
         line_of (span "Large heading" 13 0 140);
         line_of (span "Body text of the second paragraph" 10 0 160);
         line_of (span "Body text of the third paragraph" 10 0 180) ] ] |}.

Definition sec_methods : Section :=
  {| document := lit "a.pdf"; page_number := 1;
     section_title := lit "Methods";
     content := lit "We sample forty documents and label every heading by hand." |}.

Definition sec_results : Section :=
  {| document := lit "a.pdf"; page_number := 2;
     section_title := lit "Results";
     content := lit "The heuristic recovers most headings of the sampled documents." |}.

Definition sec_related : Section :=
  {| document := lit "b.pdf"; page_number := 1;
     section_title := lit "Untitled Section";
     content := lit "Earlier systems rank passages with a plain term-frequency model." |}.

Definition three_sections : list Section :=
  [sec_methods; sec_results; sec_related].

Definition query_researcher : str := lit "PhD Researcher literature review".

(** Similarities with a tie between the first and the third section. *)
Definition tie_space : VectorSpace :=
  fixed_space (Some [(1 # 2)%Q; (3 # 4)%Q; (1 # 2)%Q]) None.

(** A model whose transform prefers the second of two paragraphs. *)
Definition second_space : VectorSpace :=
  fixed_space None (Some [(1 # 4)%Q; (3 # 4)%Q]).

(** A model whose every call raises. *)
Definition failing_space : VectorSpace := fixed_space None None.

Definition long_paragraph : str :=
  lit "Segmentation walks over the text blocks of every page and starts a new section at each heading it meets on the way.".

(** Two paragraphs separated by a blank line; only the second is longer
    than 100 characters. *)
Definition sec_two_paragraphs : RankedSection :=
  {| section :=
       {| document := lit "a.pdf"; page_number := 3;
          section_title := lit "Segmentation";
          content := lit "A short opening remark." ++ [nl; nl] ++ long_paragraph |};
     importance_rank := 1 |}.

Definition other_paragraph : str :=
  lit "Ranking builds one vector space over all sections and the query and orders the sections by their similarity.".

Definition sec_long_paragraphs : RankedSection :=
  {| section :=
       {| document := lit "b.pdf"; page_number := 7;
          section_title := lit "Pipeline";
          content := long_paragraph ++ [nl; nl] ++ other_paragraph |};
     importance_rank := 1 |}.

End Examples.

(** ** More concrete inputs *)

Module MoreExamples.
Import Py Layout Files DocumentIntelligenceAnalyzer.

(** Two pages of plain body text and an image: no block is a heading. *)
Definition plain_doc : Document :=
  {| metadata_title := None;
     get_toc := [];
     pages := [
       {| blocks :=
            [ TextBlock [ Examples.line_of (Examples.span "the survey covers reports that were scanned and then decoded again" 10 0 100) ];
              ImageBlock ];
          rect_height := 800 |};
       {| blocks :=
            [ TextBlock [ Examples.line_of (Examples.span "and it ends with a short note." 10 0 100) ] ];
          rect_height := 800 |} ] |}.

(** Body lines of size 12.5, a line of size 13.75 (bold or not, it stays
    below 12.5 * 1.1 = 13.750000000000002), a bold line of size 14 and a
    bold numbered line of the body size. *)
Definition bold_fonts_doc : Document :=
  {| metadata_title := None;
     get_toc := [];
     pages := [ Examples.page_of
       [ Examples.line_of (Examples.span "Bold heading" 14 16 100);
         Examples.line_of (Examples.span "Body text of the first paragraph" (125 # 10) 0 120);
         Examples.line_of (Examples.span "1.1 Bold numbered line" (125 # 10) 16 140);
         Examples.line_of (Examples.span "Body text of the second paragraph" (125 # 10) 0 160);
         Examples.line_of (Examples.span "Almost a heading" (1375 # 100) 0 180);
         Examples.line_of (Examples.span "Body text of the third paragraph" (125 # 10) 0 200) ] ] |}.

(** Two table-of-contents entries and pages that hold images only. *)
Definition scanned_doc : Document :=
  {| metadata_title := Some (lit "Scanned report");
     get_toc := [ (1%Z, lit "Cover", 1%Z); (1%Z, lit "Plates", 2%Z) ];
     pages := [ {| blocks := [ImageBlock]; rect_height := 800 |};
                {| blocks := [ImageBlock; ImageBlock]; rect_height := 800 |} ] |}.

(** A request that names the report, a file that is not there and a file
    that cannot be decoded. *)
Definition request_documents : list (str * Opened) :=
  [ (lit "/tmp/in/report.pdf", Readable Examples.report_doc);
    (lit "/tmp/in/gone.pdf", Missing);
    (lit "/tmp/in/broken.pdf", Unreadable) ].

(** Two names that the batch writes under one name. *)
Definition colliding_listing : list (str * Opened) :=
  [ (lit "a.json.pdf", Readable Examples.toc_doc);
    (lit "notes.txt", Missing);
    (lit "a.pdf.pdf", Readable Examples.fonts_doc) ].

(** A model that scores the second of two sections above the first. *)
Definition second_first_space : VectorSpace :=
  fixed_space (Some [(1 # 4)%Q; (3 # 4)%Q]) None.

Definition no_subsection : Subsection :=
  {| sub_document := []; sub_section_title := []; refined_text := [];
     sub_page_number := 0 |}.

(** The result of the request under a model whose calls raise. *)
Definition request_result : AnalysisService.AnalysisResult :=
  snd (AnalysisService.analyze_documents Examples.failing_space tt
         request_documents (lit "PhD Researcher") (lit "literature review")
         (lit "2025-01-01T00:00:00")).

End MoreExamples.

(** * Properties *)

(** ** Strings *)

Module PyFacts.
Import Py.

Lemma eqb_char_true (a b : ascii) : eqb_char a b = true <-> a = b.
Proof. unfold eqb_char. apply Ascii.eqb_eq. Qed.

Lemma eqb_true (a b : str) : eqb a b = true <-> a = b.
Proof.
  revert b. induction a as [|x a IH]; intros [|y b]; simpl; split;
    try congruence; try reflexivity.
  - intros H. apply andb_true_iff in H as [Hx Hr].
    apply eqb_char_true in Hx. apply IH in Hr. congruence.
  - intros H. injection H as -> ->. apply andb_true_iff. split.
    + now apply eqb_char_true.
    + now apply IH.
Qed.

Lemma drop_while_head p s :
  drop_while p s = [] \/
  exists c r, drop_while p s = c :: r /\ p c = false.
Proof.
  induction s as [|c s IH]; simpl; [now left|].
  destruct (p c) eqn:E; [exact IH|]. right. now exists c, s.
Qed.

Lemma drop_while_stop p c r : p c = false -> drop_while p (c :: r) = c :: r.
Proof. intros H. simpl. now rewrite H. Qed.

Lemma drop_while_idem p s : drop_while p (drop_while p s) = drop_while p s.
Proof.
  destruct (drop_while_head p s) as [E | (c & r & E & Hc)]; rewrite E.
  - reflexivity.
  - now apply drop_while_stop.
Qed.

Lemma drop_while_snoc p s c :
  p c = false -> drop_while p (s ++ [c]) = drop_while p s ++ [c].
Proof.
  intros Hc. induction s as [|x s IH]; simpl.
  - now rewrite Hc.
  - destruct (p x); [exact IH | reflexivity].
Qed.

Lemma drop_while_length p s : length (drop_while p s) <= length s.
Proof.
  induction s as [|c s IH]; simpl; [lia|]. destruct (p c); simpl; lia.
Qed.

(** A suffix is what [drop_while] leaves. *)
Lemma drop_while_suffix p s : exists pre, s = pre ++ drop_while p s.
Proof.
  induction s as [|c s [pre IH]]; simpl.
  - now exists [].
  - destruct (p c).
    + exists (c :: pre). simpl. now f_equal.
    + now exists [].
Qed.

Lemma drop_while_end_prefix p s : exists suf, s = drop_while_end p s ++ suf.
Proof.
  unfold drop_while_end.
  destruct (drop_while_suffix p (rev s)) as [pre E].
  exists (rev pre).
  rewrite <- rev_app_distr, <- E. symmetry. apply rev_involutive.
Qed.

(** What [drop_while] removes satisfies the test. *)
Lemma drop_while_split p s :
  exists pre, s = pre ++ drop_while p s /\ forallb p pre = true.
Proof.
  induction s as [|c s (pre & IH & Hp)]; simpl.
  - now exists [].
  - destruct (p c) eqn:E.
    + exists (c :: pre). simpl. rewrite E. split; [now f_equal | exact Hp].
    + now exists [].
Qed.

Lemma forallb_rev {A} (p : A -> bool) l : forallb p (rev l) = forallb p l.
Proof.
  induction l as [|x l IH]; simpl; [reflexivity|].
  rewrite forallb_app, IH. simpl. rewrite andb_true_r. apply andb_comm.
Qed.

Lemma drop_while_end_split p s :
  exists suf, s = drop_while_end p s ++ suf /\ forallb p suf = true.
Proof.
  unfold drop_while_end.
  destruct (drop_while_split p (rev s)) as (pre & E & Hp).
  exists (rev pre). split.
  - rewrite <- rev_app_distr, <- E. symmetry. apply rev_involutive.
  - now rewrite forallb_rev.
Qed.

(** [drop_while_end] keeps a first character that fails the test. *)
Lemma drop_while_end_head p c r :
  p c = false -> exists r', drop_while_end p (c :: r) = c :: r'.
Proof.
  intros Hc. unfold drop_while_end. simpl rev.
  rewrite drop_while_snoc by exact Hc. rewrite rev_app_distr. simpl.
  now eexists.
Qed.

(** What [drop_while_end] leaves is empty or ends with a character that
    fails the test. *)
Lemma drop_while_end_last p s :
  drop_while_end p s = [] \/
  exists r c, drop_while_end p s = r ++ [c] /\ p c = false.
Proof.
  unfold drop_while_end.
  destruct (drop_while_head p (rev s)) as [E | (c & r & E & Hc)]; rewrite E.
  - now left.
  - right. exists (rev r), c. now split.
Qed.

Lemma drop_while_end_length p s : length (drop_while_end p s) <= length s.
Proof.
  unfold drop_while_end. rewrite length_rev.
  etransitivity; [apply drop_while_length|]. now rewrite length_rev.
Qed.

(** The shape of a stripped string: empty, or between two characters that
    are not white space. *)
Lemma strip_shape s :
  strip s = [] \/
  exists c w, strip s = c :: rev w /\ is_space c = false
              /\ drop_while is_space w = w.
Proof.
  unfold strip, rstrip, lstrip, drop_while_end.
  destruct (drop_while_head is_space s) as [E | (c & r & E & Hc)]; rewrite E.
  - now left.
  - right. exists c, (drop_while is_space (rev r)). simpl rev.
    rewrite drop_while_snoc by exact Hc. rewrite rev_app_distr. simpl.
    repeat split; auto. apply drop_while_idem.
Qed.

Lemma strip_idem s : strip (strip s) = strip s.
Proof.
  destruct (strip_shape s) as [E | (c & w & E & Hc & Hw)]; rewrite E.
  - reflexivity.
  - unfold strip, rstrip, lstrip, drop_while_end.
    rewrite drop_while_stop by exact Hc. simpl rev.
    rewrite rev_involutive, drop_while_snoc by exact Hc.
    rewrite Hw, rev_app_distr. reflexivity.
Qed.

Lemma strip_length s : length (strip s) <= length s.
Proof.
  unfold strip, rstrip, lstrip.
  etransitivity; [apply drop_while_end_length | apply drop_while_length].
Qed.

Lemma truthy_true s : truthy s = true <-> s <> [].
Proof. destruct s; simpl; split; congruence. Qed.

Lemma truthy_false s : truthy s = false <-> s = [].
Proof. destruct s; simpl; split; congruence. Qed.

End PyFacts.

(** ** The stable sort *)

Module SortingFacts.
Import Sorting.

Lemma Qltb_true (a b : Q) : Qltb a b = true <-> (a < b)%Q.
Proof.
  unfold Qltb. rewrite negb_true_iff. split; intros H.
  - apply Qnot_le_lt. intros Hle. apply Qle_bool_iff in Hle. congruence.
  - destruct (Qle_bool b a) eqn:E; [|reflexivity].
    apply Qle_bool_iff in E. exfalso. now apply (Qlt_not_le a b).
Qed.

Lemma Qltb_false (a b : Q) : Qltb a b = false <-> (b <= a)%Q.
Proof.
  unfold Qltb. rewrite negb_false_iff. apply Qle_bool_iff.
Qed.

Section Generic.
Context {A : Type} (before : A -> A -> bool).

Lemma insert_perm x l : Permutation (insert before x l) (x :: l).
Proof.
  induction l as [|y l IH]; simpl; [reflexivity|].
  destruct (before y x); [|reflexivity].
  rewrite IH. apply perm_swap.
Qed.

Lemma sort_perm l : Permutation (sort before l) l.
Proof.
  induction l as [|x l IH]; simpl; [reflexivity|].
  rewrite insert_perm. now constructor.
Qed.

Lemma sort_length l : length (sort before l) = length l.
Proof. apply Permutation_length, sort_perm. Qed.

(** Stability: a test that no element passed over by [x] shares with [x]
    selects the same elements, in the same order, before and after. *)
Lemma filter_insert (p : A -> bool) x l :
  (forall y, before y x = true -> p x = true -> p y = false) ->
  filter p (insert before x l) = filter p (x :: l).
Proof.
  intros Hp. induction l as [|y l IH]; [reflexivity|].
  simpl insert. destruct (before y x) eqn:E; [|reflexivity].
  pose proof (Hp y E) as Hy.
  simpl. simpl in IH. rewrite IH.
  destruct (p x); [|reflexivity].
  now rewrite Hy.
Qed.

Lemma filter_sort (p : A -> bool) l :
  (forall x y, before y x = true -> p x = true -> p y = false) ->
  filter p (sort before l) = filter p l.
Proof.
  intros Hp. induction l as [|x l IH]; [reflexivity|].
  simpl sort. rewrite filter_insert by apply Hp.
  simpl. now rewrite IH.
Qed.

(** Order: when [before] is a strict weak order, nothing in the sorted list
    must come before an element to its left. *)
Hypothesis asym : forall a b, before a b = true -> before b a = false.
Hypothesis negtrans : forall a b c,
  before a b = false -> before b c = false -> before a c = false.

Lemma insert_sorted x l :
  StronglySorted (fun a b => before b a = false) l ->
  StronglySorted (fun a b => before b a = false) (insert before x l).
Proof.
  induction 1 as [|y l Hs IH Hy]; simpl.
  - constructor; constructor.
  - destruct (before y x) eqn:E.
    + constructor; [exact IH|].
      eapply Permutation_Forall; [symmetry; apply insert_perm|].
      constructor; [now apply asym | exact Hy].
    + constructor; [now constructor|].
      constructor; [exact E|].
      eapply Forall_impl; [|exact Hy]. intros z Hz. simpl in Hz.
      now apply (negtrans z y x).
Qed.

Lemma sort_sorted l :
  StronglySorted (fun a b => before b a = false) (sort before l).
Proof.
  induction l as [|x l IH]; simpl; [constructor | now apply insert_sorted].
Qed.

Lemma sort_head_first h t l :
  (forall a, before a a = false) ->
  sort before l = h :: t ->
  forall z, In z l -> before z h = false.
Proof.
  intros irr E z Hz.
  assert (Hin : In z (h :: t)).
  { rewrite <- E. eapply Permutation_in; [symmetry; apply sort_perm | exact Hz]. }
  pose proof (sort_sorted l) as Hs. rewrite E in Hs.
  inversion Hs as [|? ? _ Hall]; subst.
  destruct Hin as [<- | Hin]; [apply irr|].
  rewrite Forall_forall in Hall. now apply Hall.
Qed.

End Generic.

(** Sorting commutes with a map that respects the order. *)
Lemma insert_map {A B} (f : A -> B) bA bB x l :
  (forall a b, bB (f a) (f b) = bA a b) ->
  map f (insert bA x l) = insert bB (f x) (map f l).
Proof.
  intros Hf. induction l as [|y l IH]; simpl; [reflexivity|].
  rewrite Hf. destruct (bA y x); simpl; [now rewrite IH | reflexivity].
Qed.

Lemma sort_map {A B} (f : A -> B) bA bB l :
  (forall a b, bB (f a) (f b) = bA a b) ->
  map f (sort bA l) = sort bB (map f l).
Proof.
  intros Hf. induction l as [|x l IH]; simpl; [reflexivity|].
  rewrite (insert_map f bA bB) by exact Hf. now rewrite IH.
Qed.

(** Descending sort of elements that carry their position: the result is
    ordered by decreasing key and, among equal keys, by position. *)
Section Stable.
Context {A : Type} (k : A -> Q) (idx : A -> nat).

Lemma insert_stable x l :
  StronglySorted (by_key_then_position k idx) l ->
  Forall (fun y => idx x < idx y) l ->
  StronglySorted (by_key_then_position k idx)
    (insert (fun y x => Qltb (k x) (k y)) x l).
Proof.
  induction 1 as [|y l Hs IH Hy]; intros Hx; simpl.
  - constructor; constructor.
  - inversion Hx as [|? ? Hxy Hxl]; subst.
    destruct (Qltb (k x) (k y)) eqn:E.
    + constructor; [now apply IH|].
      eapply Permutation_Forall; [symmetry; apply insert_perm|].
      constructor; [|exact Hy]. left. now apply Qltb_true.
    + apply Qltb_false in E.
      constructor; [now constructor|].
      assert (Hyx : forall z, idx x < idx z -> (k z <= k y)%Q ->
                              by_key_then_position k idx x z).
      { intros z Hi Hz. unfold by_key_then_position.
        destruct (Qlt_le_dec (k z) (k x)) as [Hlt | Hle]; [now left|].
        right. split; [|exact Hi]. apply Qle_antisym; [exact Hle|].
        now apply Qle_trans with (k y). }
      constructor; [apply Hyx; [exact Hxy | apply Qle_refl]|].
      rewrite Forall_forall in Hy, Hxl. apply Forall_forall. intros z Hz.
      apply Hyx; [now apply Hxl|].
      destruct (Hy z Hz) as [Hlt | [Heq _]].
      * now apply Qlt_le_weak.
      * rewrite Heq. apply Qle_refl.
Qed.

Lemma sort_stable l :
  StronglySorted (fun a b => idx a < idx b) l ->
  StronglySorted (by_key_then_position k idx) (sort_key_reverse k l).
Proof.
  unfold sort_key_reverse.
  induction 1 as [|x l Hs IH Hx]; simpl; [constructor|].
  apply insert_stable; [exact IH|].
  eapply Permutation_Forall; [symmetry; apply sort_perm | exact Hx].
Qed.

End Stable.

(** [enumerate] *)
Lemma enumerate_length {A} (l : list A) : length (enumerate l) = length l.
Proof.
  unfold enumerate. rewrite length_combine, length_seq. apply Nat.min_id.
Qed.

Lemma map_fst_enumerate {A} (l : list A) :
  map fst (enumerate l) = seq 0 (length l).
Proof.
  unfold enumerate. generalize 0. induction l as [|x l IH]; intros n; simpl.
  - reflexivity.
  - now rewrite IH.
Qed.

Lemma map_snd_enumerate {A} (l : list A) : map snd (enumerate l) = l.
Proof.
  unfold enumerate. generalize 0. induction l as [|x l IH]; intros n; simpl.
  - reflexivity.
  - now rewrite IH.
Qed.

Lemma combine_seq_map {A B} (f : A -> B) (l : list A) n :
  combine (seq n (length (map f l))) (map f l)
  = map (fun p => (fst p, f (snd p))) (combine (seq n (length l)) l).
Proof.
  revert n. induction l as [|x l IH]; intros n; simpl; [reflexivity|].
  now rewrite IH.
Qed.

Lemma enumerate_map {A B} (f : A -> B) (l : list A) :
  enumerate (map f l) = map (fun p => (fst p, f (snd p))) (enumerate l).
Proof. apply combine_seq_map. Qed.

End SortingFacts.

(** ** Lists: small facts used below *)

Module ListFacts.

Lemma StronglySorted_map {A B} (f : A -> B) (R : B -> B -> Prop) l :
  StronglySorted (fun a b => R (f a) (f b)) l -> StronglySorted R (map f l).
Proof.
  induction 1 as [|x l Hs IH Hx]; simpl; constructor; [exact IH|].
  apply Forall_map. exact Hx.
Qed.

Lemma StronglySorted_unmap {A B} (f : A -> B) (R : B -> B -> Prop) l :
  StronglySorted R (map f l) -> StronglySorted (fun a b => R (f a) (f b)) l.
Proof.
  induction l as [|x l IH]; simpl; intros H; [constructor|].
  inversion H as [|? ? Hs Hx]; subst. constructor; [now apply IH|].
  rewrite Forall_forall in Hx. apply Forall_forall. intros y Hy.
  now apply Hx, in_map.
Qed.

Lemma StronglySorted_weaken {A} (R R' : A -> A -> Prop) l :
  (forall a b, In a l -> In b l -> R a b -> R' a b) ->
  StronglySorted R l -> StronglySorted R' l.
Proof.
  intros HR Hs. induction Hs as [|x l Hs IH Hx]; constructor.
  - apply IH. intros a b Ha Hb. apply HR; now right.
  - rewrite Forall_forall in *. intros y Hy.
    apply HR; [now left | now right | now apply Hx].
Qed.

Lemma StronglySorted_seq a n : StronglySorted lt (seq a n).
Proof.
  revert a. induction n as [|n IH]; intros a; simpl; constructor.
  - apply IH.
  - apply Forall_forall. intros y Hy. apply in_seq in Hy. lia.
Qed.

Lemma Forall2_maps {A B C} (R : B -> C -> Prop) (f : A -> B) (g : A -> C) l :
  Forall (fun x => R (f x) (g x)) l -> Forall2 R (map f l) (map g l).
Proof. induction 1; simpl; constructor; assumption. Qed.

Lemma Forall2_unmap_left {A B C} (f : A -> B) (R : B -> C -> Prop) l l' :
  Forall2 R (map f l) l' -> Forall2 (fun a c => R (f a) c) l l'.
Proof.
  revert l'. induction l as [|x l IH]; intros l' H; inversion H; subst;
    constructor; auto.
Qed.

Lemma In_combine_seq {A} (l : list A) a i x :
  In (i, x) (combine (seq a (length l)) l) ->
  a <= i /\ nth_error l (i - a) = Some x.
Proof.
  revert a. induction l as [|y l IH]; intros a; simpl; [tauto|].
  intros [E | H].
  - injection E as -> ->. split; [lia|]. now rewrite Nat.sub_diag.
  - apply IH in H as [Hle Hn]. split; [lia|].
    replace (i - a) with (S (i - S a)) by lia. exact Hn.
Qed.

Lemma nth_error_firstn_lt {A} i n (l : list A) :
  i < n -> nth_error (firstn n l) i = nth_error l i.
Proof.
  revert n l. induction i as [|i IH]; intros [|n] [|x l] H; simpl;
    try reflexivity; try lia.
  apply IH. lia.
Qed.

Lemma In_firstn {A} n (l : list A) x : In x (firstn n l) -> In x l.
Proof.
  intros H. rewrite <- (firstn_skipn n l). apply in_or_app. now left.
Qed.

Lemma NoDup_firstn {A} n (l : list A) : NoDup l -> NoDup (firstn n l).
Proof.
  intros H. rewrite <- (firstn_skipn n l) in H.
  now apply NoDup_app_remove_r in H.
Qed.

End ListFacts.

(** ** Ranking *)

Module RankingFacts.
Import Py Sorting Layout DocumentIntelligenceAnalyzer SortingFacts ListFacts.

Lemma assign_ranks_ranks {A} (proj : A -> Section) (l : list A) :
  map importance_rank (assign_ranks proj l) = seq 1 (length l).
Proof.
  unfold assign_ranks. rewrite map_map.
  rewrite (map_ext _ (fun p => S (fst p))).
  - rewrite <- (map_map fst S), map_fst_enumerate. apply seq_shift.
  - intros [i x]. simpl. lia.
Qed.

Lemma assign_ranks_sections {A} (proj : A -> Section) (l : list A) :
  map section (assign_ranks proj l) = map proj l.
Proof.
  unfold assign_ranks. rewrite map_map.
  rewrite (map_ext _ (fun p => proj (snd p))).
  - now rewrite <- (map_map snd proj), map_snd_enumerate.
  - now intros [i x].
Qed.

Lemma assign_ranks_length {A} (proj : A -> Section) (l : list A) :
  length (assign_ranks proj l) = length l.
Proof. unfold assign_ranks. now rewrite length_map, enumerate_length. Qed.

Lemma score_all_some similarities (indexed : list (nat * Section)) :
  Forall (fun p => fst p < length similarities) indexed ->
  score_all similarities indexed
  = Some (map (fun p => (snd p, sim similarities (fst p))) indexed).
Proof.
  induction 1 as [|[i s] l Hi Hl IH]; simpl; [reflexivity|].
  simpl in Hi. rewrite IH.
  now rewrite (nth_error_nth' similarities 0%Q Hi).
Qed.

Lemma enumerate_bound {A} (l : list A) :
  Forall (fun p => fst p < length l) (enumerate l).
Proof.
  apply Forall_forall. intros [i x] H. simpl.
  apply In_combine_seq in H as [_ H].
  apply nth_error_Some. rewrite Nat.sub_0_r in H. congruence.
Qed.

Lemma rank_scored_some sections similarities :
  length sections <= length similarities ->
  rank_scored sections similarities
  = Some (assign_ranks fst (sort_key_reverse snd (scored sections similarities))).
Proof.
  intros Hlen. unfold rank_scored. rewrite score_all_some; [reflexivity|].
  eapply Forall_impl; [|apply enumerate_bound]. simpl. intros; lia.
Qed.

Lemma score_sections_success V m sections query m' similarities :
  sections <> [] ->
  fit_similarities V m (map section_text sections ++ [query])
    = (m', Some similarities) ->
  length sections <= length similarities ->
  _score_sections V m sections query
  = (m', assign_ranks fst
           (sort_key_reverse snd (scored sections similarities))).
Proof.
  intros Hne Hfit Hlen. unfold _score_sections.
  destruct sections as [|s0 rest]; [congruence|].
  rewrite Hfit. now rewrite rank_scored_some.
Qed.

Lemma score_all_length similarities indexed sc :
  score_all similarities indexed = Some sc -> length sc = length indexed.
Proof.
  revert sc. induction indexed as [|[i s] l IH]; intros sc E; simpl in E.
  - now injection E as <-.
  - destruct (nth_error similarities i); [|discriminate].
    destruct (score_all similarities l) as [sc'|]; [|discriminate].
    injection E as <-. simpl. f_equal. now apply IH.
Qed.

Lemma rank_scored_length sections similarities ranked :
  rank_scored sections similarities = Some ranked ->
  length ranked = length sections.
Proof.
  unfold rank_scored.
  destruct (score_all similarities _) as [sc|] eqn:E; [|discriminate].
  intros H. injection H as <-.
  rewrite assign_ranks_length. unfold sort_key_reverse.
  rewrite sort_length, (score_all_length _ _ _ E). apply enumerate_length.
Qed.

Lemma rank_scored_ranks sections similarities ranked :
  rank_scored sections similarities = Some ranked ->
  map importance_rank ranked = seq 1 (length sections).
Proof.
  intros H. pose proof (rank_scored_length _ _ _ H) as Hlen.
  unfold rank_scored in H.
  destruct (score_all similarities _) as [sc|]; [|discriminate].
  injection H as <-. rewrite assign_ranks_ranks.
  rewrite assign_ranks_length in Hlen. now rewrite Hlen.
Qed.

(** Whatever the model does, the ranks are 1..N. *)
Lemma score_sections_ranks V m sections query :
  map importance_rank (snd (_score_sections V m sections query))
  = seq 1 (length sections).
Proof.
  unfold _score_sections. destruct sections as [|s0 rest]; [reflexivity|].
  destruct (fit_similarities V m _) as [m' [similarities|]];
    [|apply assign_ranks_ranks].
  destruct (rank_scored (s0 :: rest) similarities) as [ranked|] eqn:E.
  - simpl snd. now apply rank_scored_ranks with similarities.
  - apply assign_ranks_ranks.
Qed.

Lemma map_snd_tagged sections similarities :
  map snd (tagged sections similarities) = scored sections similarities.
Proof. unfold tagged, scored. now rewrite map_map. Qed.

Lemma map_fst_tagged sections similarities :
  map fst (tagged sections similarities) = seq 0 (length sections).
Proof.
  unfold tagged. rewrite map_map. simpl. apply map_fst_enumerate.
Qed.

Lemma tagged_spec sections similarities :
  Forall (fun t => nth_error sections (fst t) = Some (fst (snd t))
                   /\ snd (snd t) = sim similarities (fst t))
         (tagged sections similarities).
Proof.
  unfold tagged. apply Forall_map, Forall_forall. intros [i x] H. simpl.
  apply In_combine_seq in H as [_ H]. rewrite Nat.sub_0_r in H. now split.
Qed.

Lemma tagged_increasing sections similarities :
  StronglySorted (fun a b => fst a < fst b) (tagged sections similarities).
Proof.
  assert (H : StronglySorted lt (map fst (tagged sections similarities))).
  { rewrite map_fst_tagged. apply StronglySorted_seq. }
  now apply StronglySorted_unmap in H.
Qed.

Lemma map_snd_sorted_tagged sections similarities :
  map snd (sorted_tagged sections similarities)
  = sort_key_reverse snd (scored sections similarities).
Proof.
  unfold sorted_tagged, sort_key_reverse.
  rewrite (sort_map snd _ (fun y x : Section * Q => Qltb (snd x) (snd y))).
  - now rewrite map_snd_tagged.
  - reflexivity.
Qed.

(** C1. For a non-empty list of N sections and a query, when the scoring
    step succeeds (the model returns a similarity for every section), the
    ranks of the returned sections are 1, 2, ..., N in this order; the
    returned sections are the input sections rearranged by a permutation
    [perm] of the positions 0..N-1 (the section of rank r+1 is the input
    section at position [perm[r]]); and along [perm] the similarities never
    increase, sections of equal similarity keeping their extraction order. *)
Theorem ranking_sorted_stable_permutation
    V m sections query m' similarities :
  sections <> [] ->
  fit_similarities V m (map section_text sections ++ [query])
    = (m', Some similarities) ->
  length sections <= length similarities ->
  map importance_rank (snd (_score_sections V m sections query))
    = seq 1 (length sections)
  /\ exists perm,
       Permutation perm (seq 0 (length sections))
       /\ Forall2 (fun r i => nth_error sections i = Some (section r))
                  (snd (_score_sections V m sections query)) perm
       /\ StronglySorted
            (fun i j => (sim similarities j < sim similarities i)%Q
                        \/ ((sim similarities i == sim similarities j)%Q
                            /\ i < j))
            perm.
Proof.
  intros Hne Hfit Hlen. split; [apply score_sections_ranks|].
  rewrite (score_sections_success V m sections query m' similarities)
    by assumption.
  simpl snd. rewrite <- map_snd_sorted_tagged.
  set (st := sorted_tagged sections similarities).
  assert (Hperm : Permutation st (tagged sections similarities))
    by apply sort_perm.
  assert (Hspec : Forall (fun t => nth_error sections (fst t) = Some (fst (snd t))
                                   /\ snd (snd t) = sim similarities (fst t)) st).
  { eapply Permutation_Forall; [symmetry; exact Hperm | apply tagged_spec]. }
  exists (map fst st). split; [|split].
  - rewrite <- map_fst_tagged with (similarities := similarities).
    now apply Permutation_map.
  - apply (Forall2_unmap_left section
             (fun s i => nth_error sections i = Some s)).
    rewrite assign_ranks_sections, map_map.
    apply Forall2_maps. eapply Forall_impl; [|exact Hspec].
    intros t [Ht _]. exact Ht.
  - apply StronglySorted_map.
    apply StronglySorted_weaken
      with (R := by_key_then_position (fun t => snd (snd t)) fst).
    + rewrite Forall_forall in Hspec.
      intros a b Ha Hb. destruct (Hspec a Ha) as [_ Ea].
      destruct (Hspec b Hb) as [_ Eb].
      unfold by_key_then_position. now rewrite Ea, Eb.
    + apply sort_stable, tagged_increasing.
Qed.

Lemma ranking_sorted_stable_permutation_witness :
  map importance_rank
      (snd (_score_sections Examples.tie_space tt Examples.three_sections
              Examples.query_researcher))
    = seq 1 (length Examples.three_sections)
  /\ exists perm,
       Permutation perm (seq 0 (length Examples.three_sections))
       /\ Forall2 (fun r i => nth_error Examples.three_sections i
                              = Some (section r))
                  (snd (_score_sections Examples.tie_space tt
                          Examples.three_sections Examples.query_researcher))
                  perm
       /\ StronglySorted
            (fun i j => (sim [(1 # 2)%Q; (3 # 4)%Q; (1 # 2)%Q] j
                         < sim [(1 # 2)%Q; (3 # 4)%Q; (1 # 2)%Q] i)%Q
                        \/ ((sim [(1 # 2)%Q; (3 # 4)%Q; (1 # 2)%Q] i
                             == sim [(1 # 2)%Q; (3 # 4)%Q; (1 # 2)%Q] j)%Q
                            /\ i < j))
            perm.
Proof.
  apply (ranking_sorted_stable_permutation Examples.tie_space tt
           Examples.three_sections Examples.query_researcher tt
           [(1 # 2)%Q; (3 # 4)%Q; (1 # 2)%Q]).
  - discriminate.
  - reflexivity.
  - simpl. lia.
Defined.

(** The run on the example: the second section wins, the tie between
    the first and the third keeps the first ahead. *)
Example ranking_tie_run :
  snd (_score_sections Examples.tie_space tt Examples.three_sections
         Examples.query_researcher)
  = [ {| section := Examples.sec_results; importance_rank := 1 |};
      {| section := Examples.sec_methods; importance_rank := 2 |};
      {| section := Examples.sec_related; importance_rank := 3 |} ].
Proof. reflexivity. Qed.

(** The scoring step raises: a model call raises, or reading
    [similarities[i]] for some section does. *)
Lemma score_sections_fallback V m sections query m' result :
  fit_similarities V m (map section_text sections ++ [query]) = (m', result) ->
  result = None
  \/ (exists similarities, result = Some similarities
                           /\ rank_scored sections similarities = None) ->
  snd (_score_sections V m sections query) = assign_ranks (fun s => s) sections.
Proof.
  intros Hfit Hraise. unfold _score_sections.
  destruct sections as [|s0 rest]; [reflexivity|]. rewrite Hfit.
  destruct Hraise as [-> | (similarities & -> & ->)]; reflexivity.
Qed.

Lemma rank_scored_short sections similarities :
  length similarities < length sections ->
  rank_scored sections similarities = None.
Proof.
  intros Hlen. unfold rank_scored.
  destruct (score_all similarities (enumerate sections)) as [sc|] eqn:E;
    [|reflexivity].
  exfalso. revert sc E.
  assert (Hin : exists s, In (length similarities, s) (enumerate sections)).
  { destruct (nth_error sections (length similarities)) as [s|] eqn:En.
    - exists s. unfold enumerate.
      assert (Hs : (length similarities, s)
                   = nth (length similarities)
                         (combine (seq 0 (length sections)) sections)
                         (0, s)).
      { rewrite combine_nth by apply length_seq.
        rewrite seq_nth by exact Hlen.
        now rewrite (nth_error_nth _ _ _ En). }
      rewrite Hs. apply nth_In. rewrite length_combine, length_seq. lia.
    - apply nth_error_None in En. lia. }
  destruct Hin as [s Hin]. revert Hin. generalize (enumerate sections).
  intros l. induction l as [|[i x] l IH]; simpl; [tauto|].
  intros [Heq | Hin] sc E.
  - injection Heq as -> ->.
    assert (Hn : nth_error similarities (length similarities) = None)
      by now apply nth_error_None.
    now rewrite Hn in E.
  - destruct (nth_error similarities i); [|discriminate].
    destruct (score_all similarities l) as [sc'|]; [|discriminate].
    now apply (IH Hin sc').
Qed.

Lemma subsection_at V m top query i s :
  nth_error top i = Some s -> i < 10 ->
  nth_error (_generate_subsections V m top query) i
  = Some (subsection_of V m query s).
Proof.
  intros Hs Hi. unfold _generate_subsections.
  rewrite nth_error_map, nth_error_firstn_lt by exact Hi. now rewrite Hs.
Qed.

(** C2. (a) For a non-empty list of sections, if the scoring step raises
    (a model call raises, or there are fewer similarities than sections),
    the ranker returns the sections in their extraction order with the
    ranks 1..N.  (b) A single section always comes back alone with rank 1,
    whatever the model does.  (c) When the scoring of the paragraphs of a
    section raises in the refiner, the subsection of that section is still
    produced, and its text is the (truncated) first qualifying paragraph;
    when no paragraph qualifies it is the (truncated) first 500 characters
    of the content. *)
Theorem scoring_failure_falls_back V m :
  (forall sections query m' result,
      sections <> [] ->
      fit_similarities V m (map section_text sections ++ [query])
        = (m', result) ->
      result = None
      \/ (exists similarities, result = Some similarities
             /\ length similarities < length sections) ->
      map section (snd (_score_sections V m sections query)) = sections
      /\ map importance_rank (snd (_score_sections V m sections query))
         = seq 1 (length sections))
  /\ (forall s query,
        snd (_score_sections V m [s] query)
        = [ {| section := s; importance_rank := 1 |} ])
  /\ (forall top query i s,
        nth_error top i = Some s -> i < 10 ->
        best_paragraph V m (paragraphs_of (content (section s))) query = None ->
        exists sub,
          nth_error (_generate_subsections V m top query) i = Some sub
          /\ sub_document sub = document (section s)
          /\ sub_section_title sub = section_title (section s)
          /\ sub_page_number sub = page_number (section s)
          /\ (forall p rest,
                qualifying_paragraphs (content (section s)) = p :: rest ->
                refined_text sub = truncate p)
          /\ (qualifying_paragraphs (content (section s)) = [] ->
              refined_text sub = truncate (firstn 500 (content (section s))))).
Proof.
  split; [|split].
  - intros sections query m' result _ Hfit Hraise.
    rewrite (score_sections_fallback V m sections query m' result Hfit).
    + split; [|apply assign_ranks_ranks].
      rewrite assign_ranks_sections. apply map_id.
    + destruct Hraise as [-> | (similarities & -> & Hlen)]; [now left|].
      right. exists similarities. split; [reflexivity|].
      now apply rank_scored_short.
  - intros s query. unfold _score_sections.
    destruct (fit_similarities V m _) as [m' [similarities|]]; [|reflexivity].
    destruct similarities as [|q similarities]; reflexivity.
  - intros top query i s Hs Hi Hraise.
    exists (subsection_of V m query s).
    split; [now apply subsection_at|].
    unfold subsection_of. rewrite Hraise. simpl.
    repeat split; try reflexivity.
    + intros p rest E. unfold paragraphs_of. now rewrite E.
    + intros E. unfold paragraphs_of. now rewrite E.
Qed.

Lemma scoring_failure_falls_back_witness :
  (map section (snd (_score_sections Examples.failing_space tt
                       Examples.three_sections Examples.query_researcher))
   = Examples.three_sections
   /\ map importance_rank
        (snd (_score_sections Examples.failing_space tt
                Examples.three_sections Examples.query_researcher))
      = [1; 2; 3])
  /\ exists sub,
       nth_error (_generate_subsections Examples.failing_space tt
                    [Examples.sec_two_paragraphs] Examples.query_researcher) 0
       = Some sub
       /\ refined_text sub = truncate Examples.long_paragraph.
Proof.
  destruct (scoring_failure_falls_back Examples.failing_space tt)
    as (Hrank & _ & Hrefine).
  split.
  - apply (Hrank Examples.three_sections Examples.query_researcher tt None).
    + discriminate.
    + reflexivity.
    + now left.
  - destruct (Hrefine [Examples.sec_two_paragraphs] Examples.query_researcher
                0 Examples.sec_two_paragraphs)
      as (sub & Hsub & _ & _ & _ & Hfirst & _).
    + reflexivity.
    + lia.
    + reflexivity.
    + exists sub. split; [exact Hsub|].
      apply (Hfirst Examples.long_paragraph []). reflexivity.
Defined.

End RankingFacts.

(** ** Outline *)

Module OutlineFacts.
Import Py Re Sorting Layout PDFStructureExtractor.
Import PyFacts SortingFacts ListFacts.

Lemma key_eqb_true a b : key_eqb a b = true <-> a = b.
Proof.
  unfold key_eqb. destruct a as [ta pa], b as [tb pb]. simpl.
  rewrite andb_true_iff, eqb_true, Z.eqb_eq. split.
  - now intros [-> ->].
  - intros E. now injection E.
Qed.

Lemma seen_true k seen : existsb (key_eqb k) seen = true <-> In k seen.
Proof.
  rewrite existsb_exists. split.
  - intros (x & Hx & E). apply key_eqb_true in E. now subst.
  - intros H. exists k. split; [exact H | now apply key_eqb_true].
Qed.

(** The loop with [seen] keeps one heading per key, none of them seen
    before. *)
Lemma unique_fresh seen headings :
  forall h, In h (unique seen headings) -> ~ In (heading_key h) seen.
Proof.
  revert seen. induction headings as [|x hs IH]; intros seen h; simpl;
    [tauto|].
  destruct (existsb (key_eqb (heading_key x)) seen) eqn:E.
  - apply IH.
  - intros [<- | Hin].
    + intros Hs. apply seen_true in Hs. congruence.
    + intros Hs. apply (IH _ _ Hin). now right.
Qed.

Lemma unique_NoDup seen headings :
  NoDup (map heading_key (unique seen headings)).
Proof.
  revert seen. induction headings as [|x hs IH]; intros seen; simpl;
    [constructor|].
  destruct (existsb (key_eqb (heading_key x)) seen); [apply IH|].
  simpl. constructor; [|apply IH].
  intros Hin. apply in_map_iff in Hin as (h & Hk & Hin).
  apply unique_fresh in Hin. apply Hin. left. now symmetry.
Qed.

Lemma font_analysis_NoDup doc :
  NoDup (map heading_key (_extract_headings_by_font_analysis doc)).
Proof.
  unfold _extract_headings_by_font_analysis.
  destruct (base_font_size_of (all_text_blocks doc)) as [base|];
    [|constructor].
  eapply Permutation_NoDup; [|apply unique_NoDup].
  apply Permutation_map. symmetry. apply sort_perm.
Qed.

Lemma toc_outline_length doc :
  length (map toc_entry (firstn 50 (get_toc doc)))
  = Nat.min 50 (length (get_toc doc)).
Proof. now rewrite length_map, length_firstn. Qed.

Lemma extract_outline_toc doc :
  3 <= length (get_toc doc) ->
  _extract_outline doc = map toc_entry (firstn 50 (get_toc doc)).
Proof.
  intros H. unfold _extract_outline.
  pose proof (toc_outline_length doc) as Hlen.
  destruct (length (map toc_entry (firstn 50 (get_toc doc))) <? 3) eqn:E.
  - apply Nat.ltb_lt in E. lia.
  - apply firstn_all2. lia.
Qed.

Lemma extract_outline_fonts doc :
  length (get_toc doc) < 3 ->
  _extract_outline doc = firstn 50 (_extract_headings_by_font_analysis doc).
Proof.
  intros H. unfold _extract_outline.
  pose proof (toc_outline_length doc) as Hlen.
  destruct (length (map toc_entry (firstn 50 (get_toc doc))) <? 3) eqn:E.
  - reflexivity.
  - apply Nat.ltb_ge in E. lia.
Qed.

(** The level of an entry of the table of contents, for the depths the
    decoder produces (1 and more). *)
Lemma toc_entry_level lvl title pg :
  (1 <= lvl)%Z ->
  level (toc_entry (lvl, title, pg))
  = if (lvl =? 1)%Z then H1 else if (lvl =? 2)%Z then H2 else H3.
Proof.
  intros H. simpl.
  destruct (lvl =? 1)%Z eqn:E1; [apply Z.eqb_eq in E1; now subst|].
  destruct (lvl =? 2)%Z eqn:E2; [apply Z.eqb_eq in E2; now subst|].
  apply Z.eqb_neq in E1, E2. now rewrite Z.min_r by lia.
Qed.

(** C3, as the code has it.  For a document whose table of contents has at
    least 3 entries, the outline is the first 50 entries in their order,
    each with the level H{min(depth, 3)}, its page, and its text with the
    white space around it removed; with fewer than 3 entries (or none) the
    outline is the font-analysis classification of the whole document, cut
    to 50 entries. *)
Theorem outline_from_toc_or_font_analysis doc :
  (3 <= length (get_toc doc) ->
     _extract_outline doc = map toc_entry (firstn 50 (get_toc doc)))
  /\ (length (get_toc doc) < 3 ->
       _extract_outline doc
       = firstn 50 (_extract_headings_by_font_analysis doc))
  /\ (forall lvl title pg,
       page (toc_entry (lvl, title, pg)) = pg
       /\ text (toc_entry (lvl, title, pg)) = strip title
       /\ level (toc_entry (lvl, title, pg)) = lit "H" ++ decimal (Z.min lvl 3)
       /\ ((1 <= lvl)%Z ->
           level (toc_entry (lvl, title, pg))
           = if (lvl =? 1)%Z then H1 else if (lvl =? 2)%Z then H2 else H3)).
Proof.
  split; [apply extract_outline_toc|].
  split; [apply extract_outline_fonts|].
  intros lvl title pg. repeat split. apply toc_entry_level.
Qed.

Lemma outline_from_toc_or_font_analysis_witness :
  _extract_outline Examples.toc_doc
  = [ {| level := H1; text := lit "Overview"; page := 1 |};
      {| level := H2; text := lit "Scope"; page := 1 |};
      {| level := H3; text := lit "Method"; page := 2 |} ]
  /\ _extract_outline Examples.fonts_doc
     = firstn 50 (_extract_headings_by_font_analysis Examples.fonts_doc).
Proof.
  destruct (outline_from_toc_or_font_analysis Examples.toc_doc)
    as (Htoc & _ & _).
  destruct (outline_from_toc_or_font_analysis Examples.fonts_doc)
    as (_ & Hfonts & _).
  split.
  - rewrite Htoc; [reflexivity | simpl; lia].
  - apply Hfonts. simpl. lia.
Defined.

(** C3 as stated fails: the text of an entry is not the text of the table
    of contents when that text has white space around it. *)
Lemma outline_toc_text_not_verbatim :
  _extract_outline Examples.toc_doc
  <> map toc_entry_verbatim (firstn 50 (get_toc Examples.toc_doc)).
Proof. vm_compute. discriminate. Qed.

(** C5, as the code has it.  The outline never has more than 50 entries;
    the font-analysis fallback yields no two entries with the same
    (lowercased text, page), and so does the outline whenever it comes from
    the fallback (fewer than 3 entries in the table of contents). *)
Theorem outline_bounded_fallback_unique doc :
  length (_extract_outline doc) <= 50
  /\ NoDup (map heading_key (_extract_headings_by_font_analysis doc))
  /\ (length (get_toc doc) < 3 ->
       NoDup (map heading_key (_extract_outline doc))).
Proof.
  split; [|split].
  - unfold _extract_outline. rewrite length_firstn. lia.
  - apply font_analysis_NoDup.
  - intros H. rewrite extract_outline_fonts by exact H.
    rewrite <- firstn_map. apply NoDup_firstn, font_analysis_NoDup.
Qed.

Lemma outline_bounded_fallback_unique_witness :
  length (_extract_outline Examples.fonts_doc) <= 50
  /\ NoDup (map heading_key (_extract_outline Examples.fonts_doc)).
Proof.
  destruct (outline_bounded_fallback_unique Examples.fonts_doc)
    as (Hlen & _ & Hnodup).
  split; [exact Hlen|]. apply Hnodup. simpl. lia.
Defined.

(** C5 as stated fails for an outline taken from the table of contents:
    its entries are not deduplicated. *)
Lemma outline_toc_duplicates :
  ~ NoDup (map heading_key (_extract_outline Examples.dup_toc_doc)).
Proof.
  vm_compute. intros H. inversion H as [|? ? Hnotin _]; subst.
  apply Hnotin. now left.
Qed.

End OutlineFacts.

(** ** Title *)

Module TitleFacts.
Import Py Re Sorting Layout PDFStructureExtractor.
Import PyFacts SortingFacts ListFacts.

(** [title_key_lt a b] fails exactly when the key of [b] is at most the key
    of [a]: [b] is larger, or as large and not lower on the page. *)
Lemma title_key_lt_false ta sa ya tb sb yb :
  title_key_lt (ta, sa, ya) (tb, sb, yb) = false
  <-> (sa < sb)%Q \/ ((sa == sb)%Q /\ (yb <= ya)%Q).
Proof.
  unfold title_key_lt.
  rewrite orb_false_iff, andb_false_iff, !Qltb_false.
  split.
  - intros [H1 [H2 | H2]].
    + destruct (Qeq_bool (- sa) (- sb)) eqn:E; [discriminate|].
      apply Qeq_bool_neq in E. left.
      destruct (Qlt_le_dec sa sb) as [Hlt | Hle]; [exact Hlt|].
      exfalso. apply E. lra.
    + destruct (Qlt_le_dec sa sb) as [Hlt | Hle]; [now left|].
      right. split; [lra | exact H2].
  - intros [H | [H1 H2]].
    + split; [lra|]. left.
      destruct (Qeq_bool (- sa) (- sb)) eqn:E; [|reflexivity].
      apply Qeq_bool_iff in E. lra.
    + split; [lra | now right].
Qed.

Lemma title_key_lt_true ta sa ya tb sb yb :
  title_key_lt (ta, sa, ya) (tb, sb, yb) = true
  <-> (sb < sa)%Q \/ ((sa == sb)%Q /\ (ya < yb)%Q).
Proof.
  unfold title_key_lt.
  rewrite orb_true_iff, andb_true_iff, !Qltb_true, Qeq_bool_iff.
  split; intros [H | [H1 H2]]; (left; lra) || (right; split; lra).
Qed.

Lemma title_key_asym a b :
  title_key_lt a b = true -> title_key_lt b a = false.
Proof.
  destruct a as [[ta sa] ya], b as [[tb sb] yb].
  rewrite title_key_lt_true, title_key_lt_false.
  intros [H | [H1 H2]]; [left; lra | right; split; lra].
Qed.

Lemma title_key_negtrans a b c :
  title_key_lt a b = false -> title_key_lt b c = false ->
  title_key_lt a c = false.
Proof.
  destruct a as [[ta sa] ya], b as [[tb sb] yb], c as [[tc sc] yc].
  rewrite !title_key_lt_false.
  intros [H | [H1 H2]] [K | [K1 K2]];
    (left; lra) || (right; split; lra).
Qed.

Lemma title_key_irrefl a : title_key_lt a a = false.
Proof.
  destruct a as [[ta sa] ya]. apply title_key_lt_false.
  right. split; [reflexivity | apply Qle_refl].
Qed.

(** The candidates are the spans of the text blocks of the page that lie
    in its top 40% and whose stripped text is longer than 5. *)
Lemma title_candidates_spec page t sz y :
  In (t, sz, y) (title_candidates page)
  <-> exists lines line span,
        In (TextBlock lines) (blocks page) /\ In line lines
        /\ In span (spans line)
        /\ t = strip (span_text span) /\ sz = span_size span
        /\ y = bbox_y0 (span_bbox span)
        /\ (y < rect_height page * (4 # 10))%Q /\ 5 < length t.
Proof.
  unfold title_candidates. rewrite in_flat_map. split.
  - intros ([lines|] & Hb & Hin); [|destruct Hin].
    apply in_flat_map in Hin as (line & Hl & Hin).
    apply in_flat_map in Hin as (span & Hs & Hin).
    destruct (Qltb _ _ && _) eqn:E; [|destruct Hin].
    destruct Hin as [Heq | []]. injection Heq as <- <- <-.
    apply andb_true_iff in E as [Ey El].
    apply Qltb_true in Ey. apply Nat.ltb_lt in El.
    exists lines, line, span. repeat split; assumption.
  - intros (lines & line & span & Hb & Hl & Hs & -> & -> & -> & Hy & Hlen).
    exists (TextBlock lines). split; [exact Hb|].
    apply in_flat_map. exists line. split; [exact Hl|].
    apply in_flat_map. exists span. split; [exact Hs|].
    apply Qltb_true in Hy. apply Nat.ltb_lt in Hlen.
    rewrite Hy, Hlen. now left.
Qed.

(** What the two substitutions leave: the candidate without a leading and
    a trailing run of characters outside [a-zA-Z0-9]; the rest is empty or
    ends with a letter or digit. *)
Lemma trim_non_alnum_spec t :
  exists pre suf,
    t = pre ++ trim_non_alnum t ++ suf
    /\ forallb (fun c => negb (is_alnum c)) pre = true
    /\ forallb (fun c => negb (is_alnum c)) suf = true
    /\ (trim_non_alnum t = []
        \/ exists r c, trim_non_alnum t = r ++ [c] /\ is_alnum c = true)
    /\ (trim_non_alnum t = []
        \/ exists c r, trim_non_alnum t = c :: r /\ is_alnum c = true).
Proof.
  unfold trim_non_alnum, strip_trailing_non_alnum, strip_leading_non_alnum.
  destruct (drop_while_split (fun c => negb (is_alnum c)) t)
    as (pre & Hpre & Ppre).
  destruct (drop_while_end_split (fun c => negb (is_alnum c))
              (drop_while (fun c => negb (is_alnum c)) t))
    as (suf & Hsuf & Psuf).
  exists pre, suf. repeat split; try assumption.
  - rewrite <- Hsuf. exact Hpre.
  - destruct (drop_while_end_last (fun c => negb (is_alnum c))
                (drop_while (fun c => negb (is_alnum c)) t))
      as [E | (r & c & E & Hc)]; [now left|].
    right. exists r, c. split; [exact E|]. now apply negb_false_iff.
  - destruct (drop_while_head (fun c => negb (is_alnum c)) t)
      as [E | (c & r & E & Hc)]; rewrite E.
    + now left.
    + right.
      destruct (drop_while_end_head (fun c => negb (is_alnum c)) c r Hc)
        as [r' Er].
      exists c, r'. split; [exact Er|]. now apply negb_false_iff.
Qed.

Lemma extract_title_metadata doc :
  3 < length (stripped_metadata_title doc) ->
  _extract_title doc = stripped_metadata_title doc.
Proof.
  intros H. unfold _extract_title.
  apply Nat.ltb_lt in H as Hb. rewrite Hb.
  destruct (stripped_metadata_title doc); [simpl in H; lia | reflexivity].
Qed.

Lemma extract_title_heuristic doc :
  length (stripped_metadata_title doc) <= 3 ->
  _extract_title doc
  = match pages doc with
    | page :: _ =>
        match sort title_key_lt (title_candidates page) with
        | (t, _, _) :: _ =>
            if 3 <? length (trim_non_alnum t)
            then trim_non_alnum t else unknown_document
        | [] => unknown_document
        end
    | [] => unknown_document
    end.
Proof.
  intros H. unfold _extract_title.
  apply Nat.ltb_ge in H. rewrite H. now rewrite andb_false_r.
Qed.

(** C4, as the code has it.  Let [mt] be the embedded metadata title with
    the white space around it removed (the empty string when absent).
    If [mt] is longer than 3 it is the title.  Otherwise: without a first
    page, or without a candidate on it, the title is "Unknown Document";
    with candidates (the spans of page 1 whose top edge lies in the top 40%
    of the page height and whose stripped text is longer than 5) the winner
    is a candidate of the largest font size and, among those, nearest to
    the top; the winner without its leading and trailing characters outside
    [a-zA-Z0-9] is the title if longer than 3, and otherwise the title is
    "Unknown Document".  What is removed around the winner are two runs of
    characters outside [a-zA-Z0-9]; what is left is empty or begins and ends
    with a letter or digit. *)
Theorem title_resolution doc :
  (3 < length (stripped_metadata_title doc) ->
     _extract_title doc = stripped_metadata_title doc)
  /\ (length (stripped_metadata_title doc) <= 3 ->
       (pages doc = [] -> _extract_title doc = unknown_document)
       /\ (forall page rest, pages doc = page :: rest ->
             (title_candidates page = [] ->
                _extract_title doc = unknown_document)
             /\ (title_candidates page <> [] ->
                 exists t sz y,
                   In (t, sz, y) (title_candidates page)
                   /\ (forall t' sz' y',
                         In (t', sz', y') (title_candidates page) ->
                         (sz' < sz)%Q \/ ((sz' == sz)%Q /\ (y <= y')%Q))
                   /\ _extract_title doc
                      = if 3 <? length (trim_non_alnum t)
                        then trim_non_alnum t else unknown_document)))
  /\ (forall page t sz y,
        In (t, sz, y) (title_candidates page)
        <-> exists lines line span,
              In (TextBlock lines) (blocks page) /\ In line lines
              /\ In span (spans line)
              /\ t = strip (span_text span) /\ sz = span_size span
              /\ y = bbox_y0 (span_bbox span)
              /\ (y < rect_height page * (4 # 10))%Q /\ 5 < length t)
  /\ (forall t,
        exists pre suf,
          t = pre ++ trim_non_alnum t ++ suf
          /\ forallb (fun c => negb (is_alnum c)) pre = true
          /\ forallb (fun c => negb (is_alnum c)) suf = true
          /\ (trim_non_alnum t = []
              \/ exists r c, trim_non_alnum t = r ++ [c] /\ is_alnum c = true)
          /\ (trim_non_alnum t = []
              \/ exists c r, trim_non_alnum t = c :: r /\ is_alnum c = true)).
Proof.
  split; [apply extract_title_metadata|].
  split; [|split; [apply title_candidates_spec | apply trim_non_alnum_spec]].
  intros Hmt. rewrite (extract_title_heuristic doc Hmt). split.
  - now intros ->.
  - intros page rest ->. split.
    + now intros ->.
    + intros Hne.
      destruct (sort title_key_lt (title_candidates page))
        as [|[[t sz] y] tl] eqn:E.
      * exfalso. apply Hne.
        apply Permutation_nil. rewrite <- E. apply sort_perm.
      * exists t, sz, y. split; [|split; [|reflexivity]].
        -- eapply Permutation_in; [apply sort_perm|]. rewrite E. now left.
        -- intros t' sz' y' Hin.
           apply (title_key_lt_false t' sz' y' t sz y).
           apply (sort_head_first title_key_lt title_key_asym
                    title_key_negtrans _ _ _ title_key_irrefl E).
           exact Hin.
Qed.

Lemma title_resolution_witness :
  _extract_title Examples.toc_doc = lit "My Paper"
  /\ _extract_title Examples.padded_title_doc = unknown_document
  /\ exists t sz y,
       In (t, sz, y)
          (title_candidates (hd (Examples.page_of []) (pages Examples.heuristic_title_doc)))
       /\ _extract_title Examples.heuristic_title_doc
          = if 3 <? length (trim_non_alnum t)
            then trim_non_alnum t else unknown_document.
Proof.
  split; [|split].
  - destruct (title_resolution Examples.toc_doc) as (Hmeta & _ & _ & _).
    rewrite Hmeta; [reflexivity | vm_compute; lia].
  - destruct (title_resolution Examples.padded_title_doc)
      as (_ & Hheur & _ & _).
    destruct Hheur as [Hnone _]; [vm_compute; lia|].
    apply Hnone. reflexivity.
  - destruct (title_resolution Examples.heuristic_title_doc)
      as (_ & Hheur & _ & _).
    destruct Hheur as [_ Hpage]; [vm_compute; lia|].
    destruct (Hpage _ _ eq_refl) as [_ Hcand].
    destruct Hcand as (t & sz & y & Hin & _ & Ht); [discriminate|].
    exists t, sz, y. split; [exact Hin | exact Ht].
Defined.

(** The run of the heuristic on the example: of the two spans of size 24
    the upper one wins and loses its punctuation. *)
Example title_heuristic_run :
  _extract_title Examples.heuristic_title_doc = lit "Layout analysis".
Proof. reflexivity. Qed.

(** C4 as stated fails: a metadata title longer than 3 is not returned as
    it stands when white space surrounds it; here its stripped form is too
    short and the sentinel is returned. *)
Lemma title_metadata_not_verbatim :
  ~ (forall doc t,
       metadata_title doc = Some t -> 3 < length t -> _extract_title doc = t).
Proof.
  intros H.
  specialize (H Examples.padded_title_doc (lit " abc") eq_refl).
  assert (Hlen : 3 < length (lit " abc")) by (simpl; lia).
  specialize (H Hlen). vm_compute in H. discriminate H.
Qed.

End TitleFacts.

(** ** Levels of the font-analysis fallback *)

Module FontLevelFacts.
Import Py Re Sorting Layout PDFStructureExtractor.
Import PyFacts SortingFacts ListFacts.

(** Bounds on a mean from bounds on the elements. *)
Lemma fold_sum_lower (m : Q) l a :
  Forall (fun x => (m <= x)%Q) l ->
  (a + m * inject_Z (Z.of_nat (length l)) <= fold_left Qplus l a)%Q.
Proof.
  intros H. revert a. induction H as [|x l Hx Hl IH]; intros a.
  - simpl. unfold inject_Z. lra.
  - change (length (x :: l)) with (S (length l)).
    rewrite Nat2Z.inj_succ. unfold Z.succ. rewrite inject_Z_plus.
    simpl fold_left. eapply Qle_trans; [|apply IH]. 
    change (inject_Z 1) with 1%Q. lra.
Qed.

Lemma fold_sum_upper (m : Q) l a :
  Forall (fun x => (x <= m)%Q) l ->
  (fold_left Qplus l a <= a + m * inject_Z (Z.of_nat (length l)))%Q.
Proof.
  intros H. revert a. induction H as [|x l Hx Hl IH]; intros a.
  - simpl. unfold inject_Z. lra.
  - change (length (x :: l)) with (S (length l)).
    rewrite Nat2Z.inj_succ. unfold Z.succ. rewrite inject_Z_plus.
    simpl fold_left. eapply Qle_trans; [apply IH|].
    change (inject_Z 1) with 1%Q. lra.
Qed.

Lemma length_pos_Q {A} (l : list A) :
  l <> [] -> (0 < inject_Z (Z.of_nat (length l)))%Q.
Proof.
  intros H. destruct l as [|x l]; [congruence|].
  change 0%Q with (inject_Z 0). rewrite <- Zlt_Qlt. simpl length. lia.
Qed.

Lemma mean_lower (m : Q) l :
  l <> [] -> Forall (fun x => (m <= x)%Q) l -> (m <= mean l)%Q.
Proof.
  intros Hne H. unfold mean, sum.
  apply Qle_shift_div_l; [now apply length_pos_Q|].
  pose proof (fold_sum_lower m l 0 H). lra.
Qed.

Lemma mean_upper (m : Q) l :
  l <> [] -> Forall (fun x => (x <= m)%Q) l -> (mean l <= m)%Q.
Proof.
  intros Hne H. unfold mean, sum.
  apply Qle_shift_div_r; [now apply length_pos_Q|].
  pose proof (fold_sum_upper m l 0 H). lra.
Qed.

(** A line that becomes a heading of level [lvl] was classified [lvl]. *)
Lemma emits_level base lvl block :
  emits base lvl block = true -> heading_level base block = Some lvl.
Proof.
  unfold emits, heading_of.
  destruct (200 <? length (tl_text block)); [discriminate|].
  destruct (heading_level base block) as [l|]; [|discriminate].
  destruct (_ && _); [|discriminate].
  simpl. intros H. apply eqb_true in H. now subst.
Qed.

(** A mean is above another when every element is above every element. *)
Lemma mean_dominated l1 l2 :
  l1 <> [] -> l2 <> [] ->
  (forall x y, In x l1 -> In y l2 -> (y <= x)%Q) ->
  (mean l2 <= mean l1)%Q.
Proof.
  intros N1 N2 H. apply mean_lower; [exact N1|].
  apply Forall_forall. intros x Hx.
  apply mean_upper; [exact N2|].
  apply Forall_forall. intros y Hy. now apply H.
Qed.

(** The comparison with a threshold grows with the size, and a size at or
    above a threshold is larger than a size below it. *)
Lemma ge_mono x y t :
  (x <= y)%Q -> Float64.ge x t = true -> Float64.ge y t = true.
Proof.
  intros Hxy. destruct t as [s|s| |s m e]; simpl; try (intros H; exact H).
  - intros H. apply Qle_bool_iff in H. apply Qle_bool_iff. lra.
  - intros H. apply Qle_bool_iff in H. apply Qle_bool_iff. lra.
Qed.

Lemma ge_separates x y t :
  Float64.ge x t = true -> Float64.ge y t = false -> (y < x)%Q.
Proof.
  destruct t as [s|s| |s m e]; simpl; intros Hx Hy; try congruence.
  - apply Qle_bool_iff in Hx. apply Qnot_le_lt. intros H.
    assert (Hc : Qle_bool 0 y = true) by (apply Qle_bool_iff; lra).
    congruence.
  - apply Qle_bool_iff in Hx. apply Qnot_le_lt. intros H.
    assert (Hc : Qle_bool (Float64.value s m e) y = true)
      by (apply Qle_bool_iff; lra).
    congruence.
Qed.

(** The tests behind a level, without and with bold. *)
Lemma plain_level base block lvl :
  tl_is_bold block = false -> heading_level base block = Some lvl ->
  (lvl = H1
   /\ Float64.ge (tl_font_size block) (Float64.times base (14 # 10)) = true)
  \/ (lvl = H2
      /\ Float64.ge (tl_font_size block) (Float64.times base (14 # 10)) = false
      /\ Float64.ge (tl_font_size block) (Float64.times base (12 # 10)) = true)
  \/ (lvl = H3
      /\ Float64.ge (tl_font_size block) (Float64.times base (14 # 10)) = false
      /\ Float64.ge (tl_font_size block) (Float64.times base (12 # 10)) = false).
Proof.
  unfold heading_level. intros ->. simpl andb. rewrite !orb_false_r.
  destruct (Float64.ge (tl_font_size block) (Float64.times base (14 # 10))).
  - intros E. injection E as <-. now left.
  - destruct (Float64.ge (tl_font_size block) (Float64.times base (12 # 10))).
    + intros E. injection E as <-. right. now left.
    + destruct (_ || _); [|discriminate].
      intros E. injection E as <-. right. now right.
Qed.

Lemma bold_level base block lvl :
  tl_is_bold block = true -> heading_level base block = Some lvl ->
  (lvl = H1
   /\ (Float64.ge (tl_font_size block) (Float64.times base (14 # 10)) = true
       \/ Float64.ge (tl_font_size block) (Float64.times base (11 # 10))
          = true))
  \/ (lvl = H2
      /\ Float64.ge (tl_font_size block) (Float64.times base (14 # 10)) = false
      /\ Float64.ge (tl_font_size block) (Float64.times base (11 # 10))
         = false).
Proof.
  unfold heading_level. intros ->. simpl andb.
  destruct (Float64.ge (tl_font_size block) (Float64.times base (14 # 10)));
    [intros E; injection E as <-; left; split; [reflexivity | now left]|].
  destruct (Float64.ge (tl_font_size block) (Float64.times base (11 # 10)));
    [intros E; injection E as <-; left; split; [reflexivity | now right]|].
  simpl orb.
  destruct (Float64.ge (tl_font_size block) (Float64.times base (12 # 10))
            || is_pattern_match (tl_text block)) eqn:E2.
  - intros E. injection E as <-. right. now repeat split.
  - apply orb_false_iff in E2 as [_ ->]. discriminate.
Qed.

Lemma levels_distinct : H1 <> H2 /\ H1 <> H3 /\ H2 <> H3.
Proof. repeat split; discriminate. Qed.

Lemma nonbold_sizes_spec doc lvl s :
  In s (nonbold_classified_sizes doc lvl) ->
  exists base block,
    base_font_size_of (all_text_blocks doc) = Some base
    /\ s = tl_font_size block /\ tl_is_bold block = false
    /\ heading_level base block = Some lvl.
Proof.
  unfold nonbold_classified_sizes.
  destruct (base_font_size_of (all_text_blocks doc)) as [base|];
    [|intros []].
  intros H. apply in_map_iff in H as (block & <- & H).
  apply filter_In in H as [_ H]. apply andb_true_iff in H as [Hb He].
  exists base, block. repeat split.
  - now apply negb_true_iff.
  - now apply emits_level.
Qed.

Lemma bold_sizes_spec doc lvl s :
  In s (bold_classified_sizes doc lvl) ->
  exists base block,
    base_font_size_of (all_text_blocks doc) = Some base
    /\ s = tl_font_size block /\ tl_is_bold block = true
    /\ heading_level base block = Some lvl.
Proof.
  unfold bold_classified_sizes.
  destruct (base_font_size_of (all_text_blocks doc)) as [base|];
    [|intros []].
  intros H. apply in_map_iff in H as (block & <- & H).
  apply filter_In in H as [_ H]. apply andb_true_iff in H as [Hb He].
  exists base, block. repeat split; [exact Hb | now apply emits_level].
Qed.

(** The sizes of a class, with and without bold, are all its sizes. *)
Lemma filter_split {A} (b p : A -> bool) l :
  Permutation (filter p l)
              (filter (fun x => b x && p x) l
               ++ filter (fun x => negb (b x) && p x) l).
Proof.
  induction l as [|x l IH]; simpl; [constructor|].
  destruct (b x), (p x); simpl; try exact IH.
  - now constructor.
  - now apply Permutation_cons_app.
Qed.

Lemma classified_sizes_split doc lvl :
  Permutation (classified_sizes doc lvl)
              (bold_classified_sizes doc lvl
               ++ nonbold_classified_sizes doc lvl).
Proof.
  unfold classified_sizes, bold_classified_sizes, nonbold_classified_sizes.
  destruct (base_font_size_of (all_text_blocks doc)) as [base|];
    [|constructor].
  rewrite <- map_app. apply Permutation_map. apply filter_split.
Qed.

(** Size against size, inside each of the two groups. *)
Lemma plain_sizes_ordered doc :
  (forall s1 s2,
      In s1 (nonbold_classified_sizes doc H1) ->
      In s2 (nonbold_classified_sizes doc H2) -> (s2 < s1)%Q)
  /\ (forall s2 s3,
        In s2 (nonbold_classified_sizes doc H2) ->
        In s3 (nonbold_classified_sizes doc H3) -> (s3 < s2)%Q)
  /\ (forall s1 s3,
        In s1 (nonbold_classified_sizes doc H1) ->
        In s3 (nonbold_classified_sizes doc H3) -> (s3 < s1)%Q).
Proof.
  destruct levels_distinct as (D12 & D13 & D23).
  repeat split; intros sa sb Ia Ib;
    apply nonbold_sizes_spec in Ia as (base & ba & Hbase & -> & Hba & La);
    apply nonbold_sizes_spec in Ib as (base' & bb & Hbase' & -> & Hbb & Lb);
    rewrite Hbase in Hbase'; injection Hbase' as <-;
    destruct (plain_level base ba _ Hba La)
      as [[Ea A1] | [[Ea [A1 A2]] | [Ea [A1 A2]]]]; try congruence;
    destruct (plain_level base bb _ Hbb Lb)
      as [[Eb B1] | [[Eb [B1 B2]] | [Eb [B1 B2]]]]; try congruence.
  - now apply ge_separates with (Float64.times base (14 # 10)).
  - now apply ge_separates with (Float64.times base (12 # 10)).
  - now apply ge_separates with (Float64.times base (14 # 10)).
Qed.

Lemma bold_sizes_ordered doc :
  (forall s1 s2,
      In s1 (bold_classified_sizes doc H1) ->
      In s2 (bold_classified_sizes doc H2) -> (s2 < s1)%Q)
  /\ bold_classified_sizes doc H3 = [].
Proof.
  destruct levels_distinct as (D12 & D13 & D23). split.
  - intros sa sb Ia Ib.
    apply bold_sizes_spec in Ia as (base & ba & Hbase & -> & Hba & La).
    apply bold_sizes_spec in Ib as (base' & bb & Hbase' & -> & Hbb & Lb).
    rewrite Hbase in Hbase'. injection Hbase' as <-.
    destruct (bold_level base ba _ Hba La) as [[_ A] | [Ea _]];
      [|congruence].
    destruct (bold_level base bb _ Hbb Lb) as [[Eb _] | [_ [B1 B3]]];
      [congruence|].
    destruct A as [A | A].
    + now apply ge_separates with (Float64.times base (14 # 10)).
    + now apply ge_separates with (Float64.times base (11 # 10)).
  - destruct (bold_classified_sizes doc H3) as [|s l] eqn:E; [reflexivity|].
    assert (Hin : In s (bold_classified_sizes doc H3))
      by (rewrite E; now left).
    apply bold_sizes_spec in Hin as (base & b & _ & _ & Hb & L).
    destruct (bold_level base b _ Hb L) as [[Eb _] | [Eb _]]; congruence.
Qed.

(** C9, as the code has it.  In the font-analysis fallback the lines with
    a bold span and the lines without one are two groups (together they
    are all the classified lines), and the claim holds inside each group.
    Without bold: every H1 line is larger than every H2 line, every H2 line
    larger than every H3 line, every H1 line larger than every H3 line.
    With bold: every H1 line is larger than every H2 line, and no line is
    H3.  Hence, inside each group and for every two classes that are not
    empty, mean(H1) >= mean(H2), mean(H2) >= mean(H3) and mean(H1) >=
    mean(H3). *)
Theorem levels_ordered_by_size_within_bold_and_plain doc :
  (forall lvl,
      Permutation (classified_sizes doc lvl)
                  (bold_classified_sizes doc lvl
                   ++ nonbold_classified_sizes doc lvl))
  /\ ((forall s1 s2,
         In s1 (nonbold_classified_sizes doc H1) ->
         In s2 (nonbold_classified_sizes doc H2) -> (s2 < s1)%Q)
      /\ (forall s2 s3,
            In s2 (nonbold_classified_sizes doc H2) ->
            In s3 (nonbold_classified_sizes doc H3) -> (s3 < s2)%Q)
      /\ (forall s1 s3,
            In s1 (nonbold_classified_sizes doc H1) ->
            In s3 (nonbold_classified_sizes doc H3) -> (s3 < s1)%Q))
  /\ ((forall s1 s2,
         In s1 (bold_classified_sizes doc H1) ->
         In s2 (bold_classified_sizes doc H2) -> (s2 < s1)%Q)
      /\ bold_classified_sizes doc H3 = [])
  /\ (nonbold_classified_sizes doc H1 <> [] ->
       nonbold_classified_sizes doc H2 <> [] ->
       (mean (nonbold_classified_sizes doc H2)
        <= mean (nonbold_classified_sizes doc H1))%Q)
  /\ (nonbold_classified_sizes doc H2 <> [] ->
       nonbold_classified_sizes doc H3 <> [] ->
       (mean (nonbold_classified_sizes doc H3)
        <= mean (nonbold_classified_sizes doc H2))%Q)
  /\ (nonbold_classified_sizes doc H1 <> [] ->
       nonbold_classified_sizes doc H3 <> [] ->
       (mean (nonbold_classified_sizes doc H3)
        <= mean (nonbold_classified_sizes doc H1))%Q)
  /\ (bold_classified_sizes doc H1 <> [] ->
       bold_classified_sizes doc H2 <> [] ->
       (mean (bold_classified_sizes doc H2)
        <= mean (bold_classified_sizes doc H1))%Q).
Proof.
  pose proof (plain_sizes_ordered doc) as (P12 & P23 & P13).
  pose proof (bold_sizes_ordered doc) as (B12 & B3).
  split; [apply classified_sizes_split|].
  split; [now repeat split|]. split; [now split|].
  repeat split; intros Na Nb; apply mean_dominated; try assumption;
    intros x y Hx Hy; apply Qlt_le_weak; auto.
Qed.

Lemma levels_ordered_by_size_within_bold_and_plain_witness :
  (mean (nonbold_classified_sizes Examples.plain_fonts_doc H2)
   <= mean (nonbold_classified_sizes Examples.plain_fonts_doc H1))%Q
  /\ (mean (nonbold_classified_sizes Examples.plain_fonts_doc H3)
      <= mean (nonbold_classified_sizes Examples.plain_fonts_doc H2))%Q
  /\ (mean (nonbold_classified_sizes Examples.plain_fonts_doc H3)
      <= mean (nonbold_classified_sizes Examples.plain_fonts_doc H1))%Q
  /\ (mean (bold_classified_sizes MoreExamples.bold_fonts_doc H2)
      <= mean (bold_classified_sizes MoreExamples.bold_fonts_doc H1))%Q.
Proof.
  destruct (levels_ordered_by_size_within_bold_and_plain
              Examples.plain_fonts_doc)
    as (_ & _ & _ & H12 & H23 & H13 & _).
  destruct (levels_ordered_by_size_within_bold_and_plain
              MoreExamples.bold_fonts_doc)
    as (_ & _ & _ & _ & _ & _ & B12).
  split; [apply H12; vm_compute; discriminate|].
  split; [apply H23; vm_compute; discriminate|].
  split; [apply H13; vm_compute; discriminate|].
  apply B12; vm_compute; discriminate.
Defined.

(** The classes of the second example: a bold line of size 14 is H1, a bold
    numbered line of the body size 12.5 is H2, and the line of size 13.75
    is no heading, since 12.5 * 1.1 is 13.750000000000002 for the machine. *)
Example bold_fonts_classes :
  bold_classified_sizes MoreExamples.bold_fonts_doc H1 = [mean [14%Q]]
  /\ bold_classified_sizes MoreExamples.bold_fonts_doc H2
     = [mean [(125 # 10)%Q]]
  /\ classified_sizes MoreExamples.bold_fonts_doc H3 = []
  /\ Float64.ge (1375 # 100) (Float64.times (125 # 10) (11 # 10)) = false
  /\ Float64.ge 11 (Float64.times 10 (11 # 10)) = true.
Proof. repeat split. Qed.

(** The classes of the example. *)
Example plain_fonts_classes :
  nonbold_classified_sizes Examples.plain_fonts_doc H1 = [mean [16%Q]]
  /\ nonbold_classified_sizes Examples.plain_fonts_doc H2 = [mean [13%Q]]
  /\ nonbold_classified_sizes Examples.plain_fonts_doc H3 = [mean [11%Q]].
Proof. repeat split. Qed.

(** C9 as stated fails: a bold line of size 12 is H1 and a line of size 13
    that is not bold is H2 (body size 10), so mean(H1) < mean(H2). *)
Lemma bold_breaks_level_means :
  ~ (mean (classified_sizes Examples.fonts_doc H2)
     <= mean (classified_sizes Examples.fonts_doc H1))%Q.
Proof. intros H. vm_compute in H. apply H. reflexivity. Qed.

End FontLevelFacts.

(** ** Segmentation *)

Module SegmenterFacts.
Import Py Re Sorting Layout DocumentIntelligenceAnalyzer.
Import PyFacts SortingFacts ListFacts.

(** The flags read after the loop are among the flags of the block, so a
    block that the code takes for bold has a bold span. *)
Lemma flags_after_lines_incl lines f :
  In f (flags_after_lines lines) -> In f (block_flags lines).
Proof.
  unfold flags_after_lines, block_flags.
  induction lines as [|l ls IH]; simpl; [tauto|].
  destruct ls as [|l' ls'].
  - simpl. rewrite app_nil_r. tauto.
  - intros H. apply in_or_app. right. now apply IH.
Qed.

Lemma is_heading_implies_block_bold lines :
  is_heading lines = true -> is_heading_block_bold lines = true.
Proof.
  unfold is_heading, is_heading_block_bold.
  destruct (has_heading_pattern (block_text lines)); [now rewrite !orb_true_r|].
  destruct (Qltb 14 _); [now rewrite !orb_true_r|].
  rewrite !orb_false_r. intros H. apply andb_true_iff in H as [Hb Hs].
  rewrite Hs, andb_true_r.
  unfold any_bold in *. apply existsb_exists in Hb as (f & Hf & Hb).
  apply existsb_exists. exists f. split; [|exact Hb].
  now apply flags_after_lines_incl.
Qed.

(** C6: the code reads the bold flag of the last line of the block only.
    A short block whose first line is bold and whose last line is not is a
    heading by the rule of the specification and is not one for the code. *)
Theorem heading_bold_flag_last_line_only :
  is_heading Examples.bold_first_line_block = false
  /\ is_heading_block_bold Examples.bold_first_line_block = true
  /\ any_bold (flags_after_lines Examples.bold_first_line_block) = false
  /\ any_bold (block_flags Examples.bold_first_line_block) = true.
Proof. repeat split. Qed.

(** The two loops are one loop over [all_blocks]. *)
Lemma segment_page_run doc_name st p :
  segment_page doc_name st p
  = run_blocks doc_name (map (pair (fst p)) (blocks (snd p))) st.
Proof.
  unfold segment_page, run_blocks. revert st.
  induction (blocks (snd p)) as [|b bs IH]; intros st; simpl;
    [reflexivity | apply IH].
Qed.

Lemma run_blocks_app doc_name bs1 bs2 st :
  run_blocks doc_name (bs1 ++ bs2) st
  = run_blocks doc_name bs2 (run_blocks doc_name bs1 st).
Proof. unfold run_blocks. apply fold_left_app. Qed.

Lemma segment_pages_run doc_name ps st :
  fold_left (segment_page doc_name) ps st
  = run_blocks doc_name
      (flat_map (fun p => map (pair (fst p)) (blocks (snd p))) ps) st.
Proof.
  revert st. induction ps as [|p ps IH]; intros st; simpl; [reflexivity|].
  now rewrite run_blocks_app, IH, segment_page_run.
Qed.

(** What one block does to the list of sections: nothing, or the section
    of the accumulator when it is long enough. *)
Lemma segment_block_sections doc_name n st b :
  fst (segment_block doc_name n st b) = fst st
  \/ (fst (segment_block doc_name n st b)
        = fst st ++ [section_of doc_name (snd st)]
      /\ 50 < length (strip (acc_content (snd st)))).
Proof.
  destruct st as [sections cur]. destruct b as [lines|]; simpl; [|now left].
  destruct (truthy (block_text lines)); [|now left].
  destruct (is_heading lines && truthy (strip (acc_content cur))).
  - unfold save. destruct (50 <? length (strip (acc_content cur))) eqn:E.
    + right. split; [reflexivity | now apply Nat.ltb_lt].
    + left. simpl. apply app_nil_r.
  - destruct (is_heading lines && negb (truthy (title cur))); now left.
Qed.

Lemma run_blocks_invariant doc doc_name suf : forall pre,
  all_blocks doc = pre ++ suf ->
  (exists accs,
      fst (run_blocks doc_name pre ([], initial_section))
        = map (section_of doc_name) accs
      /\ Forall (emitted_ok doc doc_name) accs) ->
  exists accs,
    fst (run_blocks doc_name (pre ++ suf) ([], initial_section))
      = map (section_of doc_name) accs
    /\ Forall (emitted_ok doc doc_name) accs.
Proof.
  induction suf as [|b suf IH]; intros pre Hall Hinv.
  - now rewrite app_nil_r.
  - replace (pre ++ b :: suf) with ((pre ++ [b]) ++ suf)
      by now rewrite <- app_assoc.
    apply IH; [now rewrite <- app_assoc|].
    destruct Hinv as (accs & Hsec & Hok).
    rewrite run_blocks_app. simpl.
    set (st := run_blocks doc_name pre ([], initial_section)) in *.
    destruct (segment_block_sections doc_name (fst b) st (snd b))
      as [E | [E Hlen]]; rewrite E, Hsec.
    + now exists accs.
    + exists (accs ++ [snd st]). split.
      * now rewrite map_app.
      * apply Forall_app. split; [exact Hok|]. constructor; [|constructor].
        split; [|exact Hlen]. now exists pre, (b :: suf).
Qed.

Lemma section_of_content_length doc_name cur :
  length (strip (content (section_of doc_name cur)))
  = length (strip (acc_content cur)).
Proof. simpl. now rewrite strip_idem. Qed.

(** C7. Every section that the segmenter returns, the one of the final
    flush included, is built from an accumulator that the run holds at some
    point and whose stripped content is longer than 50: the content of the
    section is that stripped content (so its own stripped length is above
    50), and its title is "Untitled Section" when the accumulator has no
    title and the title of the accumulator otherwise. *)
Theorem emitted_sections_long_and_titled doc doc_name :
  exists accs,
    _extract_sections_from_document doc doc_name
      = map (section_of doc_name) accs
    /\ Forall (emitted_ok doc doc_name) accs
    /\ Forall (fun s => 50 < length (strip (content s)))
              (_extract_sections_from_document doc doc_name)
    /\ Forall (fun cur =>
                 content (section_of doc_name cur) = strip (acc_content cur)
                 /\ section_title (section_of doc_name cur)
                    = if truthy (title cur) then title cur
                      else untitled_section)
              accs.
Proof.
  assert (Hrun : exists accs,
            fst (run_blocks doc_name (all_blocks doc) ([], initial_section))
              = map (section_of doc_name) accs
            /\ Forall (emitted_ok doc doc_name) accs).
  { apply (run_blocks_invariant doc doc_name (all_blocks doc) []);
      [reflexivity|].
    exists []. split; [reflexivity | constructor]. }
  destruct Hrun as (accs & Hsec & Hok).
  assert (Hmain : exists accs',
            _extract_sections_from_document doc doc_name
              = map (section_of doc_name) accs'
            /\ Forall (emitted_ok doc doc_name) accs').
  { unfold _extract_sections_from_document.
    rewrite segment_pages_run. fold (all_blocks doc).
    destruct (run_blocks doc_name (all_blocks doc) ([], initial_section))
      as [sections cur] eqn:E.
    simpl in Hsec. subst sections.
    destruct (truthy (strip (acc_content cur))
              && (50 <? length (strip (acc_content cur)))) eqn:F.
    - exists (accs ++ [cur]). split; [now rewrite map_app|].
      apply Forall_app. split; [exact Hok|]. constructor; [|constructor].
      apply andb_true_iff in F as [_ F]. apply Nat.ltb_lt in F.
      split; [|exact F].
      exists (all_blocks doc), []. split; [now rewrite app_nil_r|].
      now rewrite E.
    - now exists accs. }
  destruct Hmain as (accs' & Hres & Hok').
  exists accs'. split; [exact Hres|]. split; [exact Hok'|]. split.
  - rewrite Hres. apply Forall_map.
    eapply Forall_impl; [|exact Hok']. intros cur [_ Hlen].
    now rewrite section_of_content_length.
  - apply Forall_forall. intros cur _. now split.
Qed.

(** A run: the text before the first heading becomes an untitled section;
    the section "1. Method" is dropped for its short content; the section
    "Results" comes from the final flush. *)
Example segmentation_run :
  map (fun s => (section_title s, page_number s))
      (_extract_sections_from_document Examples.report_doc (lit "report.pdf"))
  = [ (untitled_section, 1%Z); (lit "Results", 2%Z) ].
Proof. reflexivity. Qed.

End SegmenterFacts.

(** ** Refinement *)

Module RefinerFacts.
Import Py Re Sorting Layout DocumentIntelligenceAnalyzer.
Import PyFacts SortingFacts ListFacts RankingFacts.

(** Splitting on blank lines loses nothing: joining gives the content. *)
Lemma split_blank_aux_nonempty cur s : split_blank_aux cur s <> [].
Proof.
  revert cur. induction s as [|c s IH]; intros cur; simpl; [discriminate|].
  destruct s as [|c' s']; [discriminate|].
  destruct (eqb_char c nl && eqb_char c' nl); [discriminate | apply IH].
Qed.

Lemma join_blank_cons p rest :
  rest <> [] -> join_blank (p :: rest) = p ++ [nl; nl] ++ join_blank rest.
Proof. destruct rest; [congruence | reflexivity]. Qed.

Lemma join_split_aux s : forall cur,
  join_blank (split_blank_aux cur s) = rev cur ++ s
  /\ forall c, join_blank (split_blank_aux cur (c :: s)) = rev cur ++ c :: s.
Proof.
  induction s as [|c' s IH]; intros cur.
  - split; [simpl; now rewrite app_nil_r|].
    intros c. reflexivity.
  - split; [apply IH|]. intros c.
    change (split_blank_aux cur (c :: c' :: s))
      with (if eqb_char c nl && eqb_char c' nl
            then rev cur :: split_blank_aux [] s
            else split_blank_aux (c :: cur) (c' :: s)).
    destruct (eqb_char c nl && eqb_char c' nl) eqn:E.
    + apply andb_true_iff in E as [E1 E2].
      apply eqb_char_true in E1, E2. subst.
      rewrite join_blank_cons by apply split_blank_aux_nonempty.
      destruct (IH []) as [-> _]. reflexivity.
    + destruct (IH (c :: cur)) as [_ ->]. simpl. now rewrite <- app_assoc.
Qed.

(** No piece has a blank line. *)
Lemma has_blank_cons2 x y l :
  has_blank (x :: y :: l)
  = (eqb_char x nl && eqb_char y nl) || has_blank (y :: l).
Proof. reflexivity. Qed.

Lemma has_blank_snoc l c c' :
  has_blank (l ++ [c; c'])
  = has_blank (l ++ [c]) || (eqb_char c nl && eqb_char c' nl).
Proof.
  induction l as [|x l IH].
  - simpl. now rewrite orb_false_r.
  - destruct l as [|y l].
    + simpl. now rewrite !orb_false_r.
    + change ((x :: y :: l) ++ [c; c']) with (x :: y :: (l ++ [c; c'])).
      change ((x :: y :: l) ++ [c]) with (x :: y :: (l ++ [c])).
      rewrite !has_blank_cons2.
      change (y :: l ++ [c; c']) with ((y :: l) ++ [c; c']).
      change (y :: l ++ [c]) with ((y :: l) ++ [c]).
      rewrite IH. now rewrite orb_assoc.
Qed.

Lemma has_blank_prefix l c :
  has_blank (l ++ [c]) = false -> has_blank l = false.
Proof.
  induction l as [|x l IH]; [reflexivity|].
  destruct l as [|y l]; [reflexivity|].
  change ((x :: y :: l) ++ [c]) with (x :: y :: (l ++ [c])).
  rewrite !has_blank_cons2.
  change (y :: l ++ [c]) with ((y :: l) ++ [c]).
  intros H. apply orb_false_iff in H as [H1 H2].
  rewrite H1. simpl. now apply IH.
Qed.

Lemma split_blank_aux_no_blank s : forall cur,
  has_blank (rev cur ++ firstn 1 s) = false ->
  Forall (fun piece => has_blank piece = false) (split_blank_aux cur s).
Proof.
  assert (Hgen : forall cur,
    (has_blank (rev cur ++ firstn 1 s) = false ->
     Forall (fun piece => has_blank piece = false) (split_blank_aux cur s))
    /\ forall c,
         has_blank (rev cur ++ [c]) = false ->
         Forall (fun piece => has_blank piece = false)
                (split_blank_aux cur (c :: s))).
  { induction s as [|c' s IH]; intros cur.
    - split.
      + simpl. rewrite app_nil_r. intros H. now constructor.
      + intros c H. simpl. now constructor.
    - split; [apply IH|]. intros c H.
      change (split_blank_aux cur (c :: c' :: s))
        with (if eqb_char c nl && eqb_char c' nl
              then rev cur :: split_blank_aux [] s
              else split_blank_aux (c :: cur) (c' :: s)).
      destruct (eqb_char c nl && eqb_char c' nl) eqn:E.
      + constructor; [now apply has_blank_prefix with c|].
        apply (IH []). simpl. now destruct s.
      + apply (IH (c :: cur)). simpl rev. rewrite <- app_assoc. simpl app.
        rewrite has_blank_snoc, H, E. reflexivity. }
  intros cur. apply Hgen.
Qed.

Lemma split_blank_no_blank content :
  Forall (fun piece => has_blank piece = false) (split_blank content).
Proof.
  unfold split_blank. apply split_blank_aux_no_blank. simpl.
  now destruct content.
Qed.

Lemma join_split content : join_blank (split_blank content) = content.
Proof. unfold split_blank. now destruct (join_split_aux content []) as [-> _]. Qed.

Lemma truncate_short p : length p <= 300 -> truncate p = p.
Proof.
  intros H. unfold truncate.
  destruct (300 <? length p) eqn:E; [|reflexivity].
  apply Nat.ltb_lt in E. lia.
Qed.

Lemma truncate_long p :
  300 < length p -> truncate p = firstn 300 p ++ ellipsis.
Proof. intros H. unfold truncate. apply Nat.ltb_lt in H. now rewrite H. Qed.

Lemma truncate_length p : length (truncate p) <= 303.
Proof.
  unfold truncate. destruct (300 <? length p) eqn:E.
  - rewrite length_app, length_firstn.
    change (length ellipsis) with 3. lia.
  - apply Nat.ltb_ge in E. lia.
Qed.

Lemma paragraphs_of_cases content :
  (qualifying_paragraphs content <> []
   /\ paragraphs_of content = qualifying_paragraphs content)
  \/ (qualifying_paragraphs content = []
      /\ paragraphs_of content = [firstn 500 content]).
Proof.
  unfold paragraphs_of.
  destruct (qualifying_paragraphs content); [now right | now left].
Qed.

Lemma paragraphs_of_nonempty content : paragraphs_of content <> [].
Proof.
  destruct (paragraphs_of_cases content) as [[H ->] | [_ ->]];
    [exact H | discriminate].
Qed.

(** A paragraph that qualifies is a piece of the content between blank
    lines, stripped, and longer than 100. *)
Lemma qualifying_spec content p :
  In p (qualifying_paragraphs content)
  <-> 100 < length p
      /\ exists piece, In piece (split_blank content) /\ p = strip piece.
Proof.
  unfold qualifying_paragraphs. rewrite filter_In, in_map_iff, Nat.ltb_lt.
  split.
  - intros [(piece & <- & Hin) Hlen]. split; [exact Hlen|]. now exists piece.
  - intros [Hlen (piece & Hin & ->)]. split; [|exact Hlen]. now exists piece.
Qed.

(** [np.argmax] returns the first position of a maximum. *)
Lemma argmax_from_spec l : forall pre best_idx best,
  best_idx < length pre ->
  nth best_idx pre 0%Q = best ->
  (forall j, j < length pre -> (nth j pre 0 <= best)%Q) ->
  (forall j, j < best_idx -> (nth j pre 0 < best)%Q) ->
  argmax_from best_idx best (length pre) l < length (pre ++ l)
  /\ (forall j, j < length (pre ++ l) ->
        (nth j (pre ++ l) 0
         <= nth (argmax_from best_idx best (length pre) l) (pre ++ l) 0)%Q)
  /\ (forall j, j < argmax_from best_idx best (length pre) l ->
        (nth j (pre ++ l) 0
         < nth (argmax_from best_idx best (length pre) l) (pre ++ l) 0)%Q).
Proof.
  induction l as [|x l IH]; intros pre bi b Hbi Hb Hmax Hfirst.
  - simpl. rewrite app_nil_r. rewrite Hb. repeat split; auto.
  - assert (Hlen : length (pre ++ [x]) = S (length pre))
      by (rewrite length_app; simpl; lia).
    replace (pre ++ x :: l) with ((pre ++ [x]) ++ l)
      by now rewrite <- app_assoc.
    simpl argmax_from. rewrite <- Hlen.
    destruct (Qltb b x) eqn:E.
    + apply Qltb_true in E. apply IH.
      * lia.
      * apply nth_middle.
      * intros j Hj. destruct (Nat.eq_dec j (length pre)) as [-> | Hne].
        -- rewrite nth_middle. apply Qle_refl.
        -- rewrite app_nth1 by lia.
           apply Qle_trans with b; [apply Hmax; lia | now apply Qlt_le_weak].
      * intros j Hj. rewrite app_nth1 by lia.
        apply Qle_lt_trans with b; [apply Hmax; lia | exact E].
    + apply Qltb_false in E. apply IH.
      * lia.
      * now rewrite app_nth1.
      * intros j Hj. destruct (Nat.eq_dec j (length pre)) as [-> | Hne].
        -- now rewrite nth_middle.
        -- rewrite app_nth1 by lia. apply Hmax. lia.
      * intros j Hj. rewrite app_nth1 by lia. now apply Hfirst.
Qed.

Lemma argmax_spec similarities best_idx :
  argmax similarities = Some best_idx ->
  best_idx < length similarities
  /\ (forall j, j < length similarities ->
        (sim similarities j <= sim similarities best_idx)%Q)
  /\ (forall j, j < best_idx ->
        (sim similarities j < sim similarities best_idx)%Q).
Proof.
  destruct similarities as [|x l]; [discriminate|].
  intros H. injection H as <-. unfold sim.
  apply (argmax_from_spec l [x] 0 x).
  - simpl. lia.
  - reflexivity.
  - intros j Hj. simpl in Hj. replace j with 0 by lia. apply Qle_refl.
  - intros j Hj. lia.
Qed.

Lemma argmax_some similarities :
  similarities <> [] -> exists best_idx, argmax similarities = Some best_idx.
Proof. destruct similarities; [congruence | eexists; reflexivity]. Qed.

(** The text of a subsection is one of the paragraphs, truncated. *)
Lemma subsection_text V m query s :
  exists p,
    In p (paragraphs_of (content (section s)))
    /\ refined_text (subsection_of V m query s) = truncate p.
Proof.
  unfold subsection_of. simpl.
  destruct (best_paragraph V m _ query) as [t|] eqn:E.
  - unfold best_paragraph in E.
    destruct (transform_similarities V m _) as [sims|]; [|discriminate].
    destruct (argmax sims) as [best|]; [|discriminate].
    destruct (nth_error _ best) as [p|] eqn:En; [|discriminate].
    injection E as <-. exists p. split; [|reflexivity].
    now apply nth_error_In with best.
  - pose proof (paragraphs_of_nonempty (content (section s))) as Hne.
    destruct (paragraphs_of (content (section s))) as [|p ps];
      [congruence|].
    exists p. split; [now left | reflexivity].
Qed.

Lemma subsection_best V m query s similarities :
  transform_similarities V m (paragraphs_of (content (section s)) ++ [query])
    = Some similarities ->
  length similarities = length (paragraphs_of (content (section s))) ->
  exists best_idx p,
    nth_error (paragraphs_of (content (section s))) best_idx = Some p
    /\ (forall j, j < length similarities ->
          (sim similarities j <= sim similarities best_idx)%Q)
    /\ (forall j, j < best_idx ->
          (sim similarities j < sim similarities best_idx)%Q)
    /\ refined_text (subsection_of V m query s) = truncate p.
Proof.
  intros Ht Hlen.
  pose proof (paragraphs_of_nonempty (content (section s))) as Hne.
  destruct (argmax_some similarities) as [best Hbest].
  { intros ->. simpl in Hlen. symmetry in Hlen.
    now apply length_zero_iff_nil in Hlen. }
  destruct (argmax_spec _ _ Hbest) as (Hlt & Hmax & Hfirst).
  destruct (nth_error (paragraphs_of (content (section s))) best)
    as [p|] eqn:En.
  - exists best, p. repeat split; try assumption.
    unfold subsection_of, best_paragraph. simpl.
    now rewrite Ht, Hbest, En.
  - apply nth_error_None in En. lia.
Qed.

(** C8. The refiner returns one subsection for each of the first 10
    sections of its input, in their order, and no more.  For such a section
    with content [c]: the pieces of [c] between blank lines join back to
    [c] and none of them has a blank line; the paragraphs that qualify are the stripped pieces longer than
    100; the paragraphs scored are these or, when there is none, the first
    500 characters of [c] alone; when the fitted model returns a similarity
    for each paragraph, the text of the subsection is the truncation of the
    first paragraph of maximal similarity; in any case it is the truncation
    of one of the paragraphs.  Truncation keeps a paragraph of at most 300
    characters and cuts a longer one to 300 characters followed by "...". *)
Theorem refiner_one_subsection_per_section V m top query :
  length (_generate_subsections V m top query) = Nat.min 10 (length top)
  /\ (forall i s, nth_error top i = Some s -> i < 10 ->
       exists sub,
         nth_error (_generate_subsections V m top query) i = Some sub
         /\ join_blank (split_blank (content (section s)))
            = content (section s)
         /\ Forall (fun piece => has_blank piece = false)
                   (split_blank (content (section s)))
         /\ (forall p,
               In p (qualifying_paragraphs (content (section s)))
               <-> 100 < length p
                   /\ exists piece,
                        In piece (split_blank (content (section s)))
                        /\ p = strip piece)
         /\ ((qualifying_paragraphs (content (section s)) <> []
              /\ paragraphs_of (content (section s))
                 = qualifying_paragraphs (content (section s)))
             \/ (qualifying_paragraphs (content (section s)) = []
                 /\ paragraphs_of (content (section s))
                    = [firstn 500 (content (section s))]))
         /\ (forall similarities,
               transform_similarities V m
                 (paragraphs_of (content (section s)) ++ [query])
                 = Some similarities ->
               length similarities
                 = length (paragraphs_of (content (section s))) ->
               exists best_idx p,
                 nth_error (paragraphs_of (content (section s))) best_idx
                   = Some p
                 /\ (forall j, j < length similarities ->
                       (sim similarities j <= sim similarities best_idx)%Q)
                 /\ (forall j, j < best_idx ->
                       (sim similarities j < sim similarities best_idx)%Q)
                 /\ refined_text sub = truncate p)
         /\ exists p,
              In p (paragraphs_of (content (section s)))
              /\ refined_text sub = truncate p)
  /\ (forall p,
        (length p <= 300 -> truncate p = p)
        /\ (300 < length p -> truncate p = firstn 300 p ++ lit "...")).
Proof.
  split; [|split].
  - unfold _generate_subsections. now rewrite length_map, length_firstn.
  - intros i s Hs Hi. exists (subsection_of V m query s).
    split; [now apply subsection_at|].
    split; [apply join_split|].
    split; [apply split_blank_no_blank|].
    split; [intros p; apply qualifying_spec|].
    split; [apply paragraphs_of_cases|].
    split; [intros sims; apply subsection_best | apply subsection_text].
  - intros p. split; [apply truncate_short | apply truncate_long].
Qed.

Lemma refiner_one_subsection_per_section_witness :
  exists sub,
    nth_error (_generate_subsections Examples.second_space tt
                 [Examples.sec_long_paragraphs] Examples.query_researcher) 0
      = Some sub
    /\ exists best_idx p,
         nth_error (paragraphs_of
                      (content (section Examples.sec_long_paragraphs)))
                   best_idx = Some p
         /\ (forall j, j < 2 ->
               (sim [(1 # 4)%Q; (3 # 4)%Q] j
                <= sim [(1 # 4)%Q; (3 # 4)%Q] best_idx)%Q)
         /\ refined_text sub = truncate p.
Proof.
  destruct (refiner_one_subsection_per_section Examples.second_space tt
              [Examples.sec_long_paragraphs] Examples.query_researcher)
    as (_ & Hsec & _).
  destruct (Hsec 0 Examples.sec_long_paragraphs)
    as (sub & Hsub & _ & _ & _ & _ & Hbest & _).
  - reflexivity.
  - lia.
  - exists sub. split; [exact Hsub|].
    destruct (Hbest [(1 # 4)%Q; (3 # 4)%Q])
      as (best & p & Hp & Hmax & _ & Ht).
    + reflexivity.
    + reflexivity.
    + now exists best, p.
Defined.

(** The run on the example: the second paragraph is chosen. *)
Example refiner_run :
  map refined_text
      (_generate_subsections Examples.second_space tt
         [Examples.sec_long_paragraphs] Examples.query_researcher)
  = [Examples.other_paragraph].
Proof. reflexivity. Qed.

(** C10. Every subsection that the refiner returns comes from one of the
    first 10 sections of its input and has the document, the section title
    and the page number of that section; its text is the truncation of a
    paragraph [p] of that section (a stripped piece longer than 100, or the
    first 500 characters of the content): a prefix of [p], followed by
    "..." when [p] is longer than 300, of at most 303 characters in all. *)
Theorem subsection_frame_and_snippet V m top query sub :
  In sub (_generate_subsections V m top query) ->
  exists s,
    In s (firstn 10 top)
    /\ sub_document sub = document (section s)
    /\ sub_section_title sub = section_title (section s)
    /\ sub_page_number sub = page_number (section s)
    /\ exists p pre suf,
         (In p (qualifying_paragraphs (content (section s)))
          \/ p = firstn 500 (content (section s)))
         /\ p = pre ++ suf
         /\ ((length p <= 300 /\ refined_text sub = pre)
             \/ (300 < length p /\ refined_text sub = pre ++ lit "..."))
         /\ length (refined_text sub) <= 303.
Proof.
  intros Hin. unfold _generate_subsections in Hin.
  apply in_map_iff in Hin as (s & <- & Hs).
  exists s. split; [exact Hs|]. repeat split.
  destruct (subsection_text V m query s) as (p & Hp & Ht).
  assert (Hsrc : In p (qualifying_paragraphs (content (section s)))
                 \/ p = firstn 500 (content (section s))).
  { destruct (paragraphs_of_cases (content (section s)))
      as [[_ E] | [_ E]]; rewrite E in Hp.
    - now left.
    - right. destruct Hp as [<- | []]. reflexivity. }
  destruct (Nat.le_gt_cases (length p) 300) as [Hle | Hgt].
  - exists p, p, []. rewrite app_nil_r, Ht.
    repeat split; try assumption.
    + left. split; [exact Hle | now apply truncate_short].
    + apply truncate_length.
  - exists p, (firstn 300 p), (skipn 300 p). rewrite firstn_skipn, Ht.
    repeat split; try assumption.
    + right. split; [exact Hgt | now apply truncate_long].
    + apply truncate_length.
Qed.

Lemma subsection_frame_and_snippet_witness :
  exists s,
    In s (firstn 10 [Examples.sec_two_paragraphs])
    /\ sub_document (subsection_of Examples.failing_space tt
                       Examples.query_researcher Examples.sec_two_paragraphs)
       = document (section s)
    /\ length (refined_text
                 (subsection_of Examples.failing_space tt
                    Examples.query_researcher Examples.sec_two_paragraphs))
       <= 303.
Proof.
  destruct (subsection_frame_and_snippet Examples.failing_space tt
              [Examples.sec_two_paragraphs] Examples.query_researcher
              (subsection_of Examples.failing_space tt
                 Examples.query_researcher Examples.sec_two_paragraphs))
    as (s & Hs & Hdoc & _ & _ & p & pre & suf & _ & _ & _ & Hlen).
  - left. reflexivity.
  - exists s. repeat split; assumption.
Defined.

End RefinerFacts.

(** ** Ranking, whatever the model does *)

Module RankingMore.
Import Py Sorting Layout DocumentIntelligenceAnalyzer.
Import SortingFacts ListFacts RankingFacts.

Lemma score_all_sections similarities indexed sc :
  score_all similarities indexed = Some sc -> map fst sc = map snd indexed.
Proof.
  revert sc. induction indexed as [|[i s] l IH]; intros sc E; simpl in E.
  - now injection E as <-.
  - destruct (nth_error similarities i); [|discriminate].
    destruct (score_all similarities l) as [sc'|]; [|discriminate].
    injection E as <-. simpl. f_equal. now apply IH.
Qed.

Lemma rank_scored_permutation sections similarities ranked :
  rank_scored sections similarities = Some ranked ->
  Permutation (map section ranked) sections.
Proof.
  unfold rank_scored.
  destruct (score_all similarities (enumerate sections)) as [sc|] eqn:E;
    [|discriminate].
  intros H. injection H as <-. rewrite assign_ranks_sections.
  apply score_all_sections in E. rewrite map_snd_enumerate in E.
  rewrite <- E. apply Permutation_map. apply sort_perm.
Qed.

Lemma score_sections_permutation V m sections query :
  Permutation (map section (snd (_score_sections V m sections query)))
              sections
  /\ map importance_rank (snd (_score_sections V m sections query))
     = seq 1 (length sections).
Proof.
  split; [|apply score_sections_ranks].
  unfold _score_sections. destruct sections as [|s0 rest]; [constructor|].
  assert (Hfb : Permutation
                  (map section (assign_ranks (fun s => s) (s0 :: rest)))
                  (s0 :: rest)).
  { rewrite assign_ranks_sections, map_id. reflexivity. }
  destruct (fit_similarities V m _) as [m' [similarities|]]; [|exact Hfb].
  destruct (rank_scored (s0 :: rest) similarities) as [ranked|] eqn:E;
    [|exact Hfb].
  simpl snd. now apply rank_scored_permutation with similarities.
Qed.

(** X1. The ranker neither drops nor repeats a section: on every path (the
    empty input, the scored ranking, the fallback) the sections returned
    are the input sections up to their order, and their ranks are 1..N. *)
Theorem ranking_keeps_every_section V m sections query :
  Permutation (map section (snd (_score_sections V m sections query)))
              sections
  /\ map importance_rank (snd (_score_sections V m sections query))
     = seq 1 (length sections).
Proof. apply score_sections_permutation. Qed.

(** A list that is already in order is left as it is. *)
Lemma sort_sorted_id {A} (before : A -> A -> bool) l :
  StronglySorted (fun a b => before b a = false) l -> sort before l = l.
Proof.
  induction 1 as [|x l Hs IH Hx]; [reflexivity|].
  simpl. rewrite IH. destruct l as [|y l']; [reflexivity|].
  simpl. inversion Hx as [|? ? Hy _]; subst. now rewrite Hy.
Qed.

Lemma scored_sections sections similarities :
  map fst (scored sections similarities) = sections.
Proof.
  unfold scored. rewrite map_map. simpl.
  change (map (fun x : nat * Section => snd x) (enumerate sections))
    with (map snd (enumerate sections)).
  apply map_snd_enumerate.
Qed.

(** X2. When the similarities never increase along the extraction order
    (all equal, for one), the scored ranking is the extraction order: the
    section at position i gets rank i+1. *)
Theorem ranking_keeps_order_when_already_sorted
    V m sections query m' similarities :
  sections <> [] ->
  fit_similarities V m (map section_text sections ++ [query])
    = (m', Some similarities) ->
  length sections <= length similarities ->
  (forall i j, i < j -> j < length sections ->
               (sim similarities j <= sim similarities i)%Q) ->
  map section (snd (_score_sections V m sections query)) = sections
  /\ map importance_rank (snd (_score_sections V m sections query))
     = seq 1 (length sections).
Proof.
  intros Hne Hfit Hlen Hdec. split; [|apply score_sections_ranks].
  rewrite (score_sections_success V m sections query m' similarities)
    by assumption.
  simpl snd. rewrite assign_ranks_sections.
  unfold sort_key_reverse. rewrite sort_sorted_id; [apply scored_sections|].
  rewrite <- map_snd_tagged. apply StronglySorted_map.
  apply StronglySorted_weaken with (R := fun a b => fst a < fst b);
    [|apply tagged_increasing].
  pose proof (tagged_spec sections similarities) as Hspec.
  rewrite Forall_forall in Hspec.
  intros a b Ha Hb Hlt.
  destruct (Hspec a Ha) as [_ Ea]. destruct (Hspec b Hb) as [Hnb Eb].
  apply Qltb_false. rewrite Ea, Eb. apply Hdec; [exact Hlt|].
  apply nth_error_Some. congruence.
Qed.

Lemma ranking_keeps_order_when_already_sorted_witness :
  map section
      (snd (_score_sections
              (fixed_space (Some [(3 # 4)%Q; (1 # 2)%Q; (1 # 2)%Q]) None) tt
              Examples.three_sections Examples.query_researcher))
    = Examples.three_sections
  /\ map importance_rank
       (snd (_score_sections
               (fixed_space (Some [(3 # 4)%Q; (1 # 2)%Q; (1 # 2)%Q]) None) tt
               Examples.three_sections Examples.query_researcher))
     = seq 1 (length Examples.three_sections).
Proof.
  apply (ranking_keeps_order_when_already_sorted
           (fixed_space (Some [(3 # 4)%Q; (1 # 2)%Q; (1 # 2)%Q]) None) tt
           Examples.three_sections Examples.query_researcher tt
           [(3 # 4)%Q; (1 # 2)%Q; (1 # 2)%Q]).
  - discriminate.
  - reflexivity.
  - simpl. lia.
  - intros i j Hij Hj. simpl in Hj.
    destruct i as [|[|[|i]]]; destruct j as [|[|[|j]]]; try lia;
      vm_compute; discriminate.
Defined.

End RankingMore.

(** ** Segmentation: what every section satisfies *)

Module SegmenterMore.
Import Py Re Sorting Layout Files DocumentIntelligenceAnalyzer AnalysisService.
Import PyFacts SortingFacts ListFacts SegmenterFacts.

Lemma In_all_blocks doc n b :
  In (n, b) (all_blocks doc) -> n < length (pages doc).
Proof.
  unfold all_blocks. intros H.
  apply in_flat_map in H as ([i pg] & Hp & Hb).
  apply in_map_iff in Hb as (b' & E & _). simpl in E. injection E as <- <-.
  apply In_combine_seq in Hp as [_ Hp]. rewrite Nat.sub_0_r in Hp.
  apply nth_error_Some. congruence.
Qed.

Lemma run_blocks_preserves (P : SegState -> Prop) doc_name bs : forall st,
  P st ->
  (forall st b, In b bs -> P st ->
                P (segment_block doc_name (fst b) st (snd b))) ->
  P (run_blocks doc_name bs st).
Proof.
  induction bs as [|b bs IH]; intros st Hst Hstep; [exact Hst|].
  simpl. apply IH.
  - apply Hstep; [now left | exact Hst].
  - intros st' b' Hin. apply Hstep. now right.
Qed.

Lemma untitled_length : length untitled_section = 16.
Proof. reflexivity. Qed.

Lemma section_of_well_formed doc_name cur :
  length (title cur) <= 100 ->
  50 < length (strip (acc_content cur)) ->
  well_formed_section (section_of doc_name cur).
Proof.
  intros Ht Hc. unfold well_formed_section. simpl. repeat split.
  - destruct (title cur); simpl; lia.
  - destruct (title cur) eqn:E; simpl; [lia | simpl in Ht; lia].
  - apply strip_idem.
  - exact Hc.
Qed.

Lemma segment_invariant doc doc_name :
  Forall (fun s => document s = doc_name /\ well_formed_section s
                   /\ (1 <= page_number s
                       <= Z.max 1 (Z.of_nat (length (pages doc))))%Z)
         (fst (run_blocks doc_name (all_blocks doc) ([], initial_section)))
  /\ length (title (snd (run_blocks doc_name (all_blocks doc)
                           ([], initial_section)))) <= 100
  /\ (1 <= acc_page (snd (run_blocks doc_name (all_blocks doc)
                            ([], initial_section)))
      <= Z.max 1 (Z.of_nat (length (pages doc))))%Z.
Proof.
  apply (run_blocks_preserves
           (fun st =>
              Forall (fun s => document s = doc_name /\ well_formed_section s
                               /\ (1 <= page_number s
                                   <= Z.max 1 (Z.of_nat (length (pages doc))))%Z)
                     (fst st)
              /\ length (title (snd st)) <= 100
              /\ (1 <= acc_page (snd st)
                  <= Z.max 1 (Z.of_nat (length (pages doc))))%Z)).
  - simpl. split; [constructor|]. split; lia.
  - intros [sections cur] [n b] Hin (Hs & Ht & Hp).
    cbn [fst snd] in *. unfold segment_block.
    apply In_all_blocks in Hin.
    assert (Hn : (1 <= Z.of_nat (n + 1)
                  <= Z.max 1 (Z.of_nat (length (pages doc))))%Z) by lia.
    destruct b as [lines|]; [|now repeat split].
    destruct (truthy (block_text lines)); [|now repeat split].
    destruct (is_heading lines && truthy (strip (acc_content cur))).
    + cbn [fst snd title acc_page].
      split; [|split; [rewrite length_firstn; lia | exact Hn]].
      apply Forall_app. split; [exact Hs|]. unfold save.
      destruct (50 <? length (strip (acc_content cur))) eqn:E;
        [|constructor].
      apply Nat.ltb_lt in E. constructor; [|constructor].
      split; [reflexivity|]. split; [|exact Hp].
      now apply section_of_well_formed.
    + destruct (is_heading lines && negb (truthy (title cur)));
        cbn [fst snd title acc_page].
      * split; [exact Hs|]. split; [rewrite length_firstn; lia | exact Hn].
      * now repeat split.
Qed.

Lemma no_pages_no_sections doc doc_name :
  pages doc = [] -> _extract_sections_from_document doc doc_name = [].
Proof.
  intros H. unfold _extract_sections_from_document. now rewrite H.
Qed.

Lemma emitted_section_good doc doc_name s :
  In s (_extract_sections_from_document doc doc_name) ->
  document s = doc_name
  /\ 0 < length (section_title s) <= 100
  /\ strip (content s) = content s
  /\ 50 < length (content s)
  /\ (1 <= page_number s <= Z.of_nat (length (pages doc)))%Z.
Proof.
  intros Hin.
  assert (Hpages : pages doc <> []).
  { intros E. now rewrite (no_pages_no_sections doc doc_name E) in Hin. }
  assert (Hmax : Z.max 1 (Z.of_nat (length (pages doc)))
                 = Z.of_nat (length (pages doc))).
  { destruct (pages doc); [congruence | simpl length; lia]. }
  destruct (segment_invariant doc doc_name) as (Hs & Ht & Hp).
  rewrite Hmax in Hs, Hp.
  assert (Hall : Forall (fun s => document s = doc_name
                                  /\ well_formed_section s
                                  /\ (1 <= page_number s
                                      <= Z.of_nat (length (pages doc)))%Z)
                        (_extract_sections_from_document doc doc_name)).
  { unfold _extract_sections_from_document.
    rewrite segment_pages_run. fold (all_blocks doc).
    destruct (run_blocks doc_name (all_blocks doc) ([], initial_section))
      as [sections cur]. simpl in Hs, Ht, Hp.
    destruct (truthy (strip (acc_content cur))
              && (50 <? length (strip (acc_content cur)))) eqn:F;
      [|exact Hs].
    apply andb_true_iff in F as [_ F]. apply Nat.ltb_lt in F.
    apply Forall_app. split; [exact Hs|]. constructor; [|constructor].
    split; [reflexivity|]. split; [|exact Hp].
    now apply section_of_well_formed. }
  rewrite Forall_forall in Hall.
  destruct (Hall s Hin) as (Hd & (Htl & Hst & Hlen) & Hpg).
  repeat split; try assumption; lia.
Qed.

(** X3. Every section that the segmenter returns carries the name of its
    document, a title of 1 to 100 characters, a content without white space
    around it and longer than 50 characters, and the number of a page of
    the document (from 1 to the number of pages). *)
Theorem emitted_sections_well_formed doc doc_name s :
  In s (_extract_sections_from_document doc doc_name) ->
  document s = doc_name
  /\ 0 < length (section_title s) <= 100
  /\ strip (content s) = content s
  /\ 50 < length (content s)
  /\ (1 <= page_number s <= Z.of_nat (length (pages doc)))%Z.
Proof. apply emitted_section_good. Qed.

Lemma emitted_sections_well_formed_witness :
  document (section_of (lit "report.pdf")
              {| title := lit "Results";
                 acc_content := lit "Most headings of the sampled documents are recovered by the heuristic. " ++ [nl; nl];
                 acc_page := 2 |})
    = lit "report.pdf"
  /\ 0 < length (lit "Results") <= 100
  /\ 50 < length (lit "Most headings of the sampled documents are recovered by the heuristic.").
Proof.
  destruct (emitted_sections_well_formed Examples.report_doc
              (lit "report.pdf")
              (section_of (lit "report.pdf")
                 {| title := lit "Results";
                    acc_content := lit "Most headings of the sampled documents are recovered by the heuristic. " ++ [nl; nl];
                    acc_page := 2 |}))
    as (Hd & Ht & _ & Hc & _).
  - vm_compute. right. left. reflexivity.
  - split; [exact Hd|]. split; [exact Ht | exact Hc].
Defined.

(** The blocks come page after page. *)
Lemma StronglySorted_app {A} (R : A -> A -> Prop) l1 l2 :
  StronglySorted R l1 -> StronglySorted R l2 ->
  (forall a b, In a l1 -> In b l2 -> R a b) ->
  StronglySorted R (l1 ++ l2).
Proof.
  induction 1 as [|x l1 Hs IH Hx]; intros H2 H12; [exact H2|].
  simpl. constructor.
  - apply IH; [exact H2|]. intros a b Ha Hb. apply H12; [now right | exact Hb].
  - apply Forall_app. split; [exact Hx|].
    apply Forall_forall. intros b Hb. apply H12; [now left | exact Hb].
Qed.

Lemma blocks_of_pages_sorted (ps : list (nat * Page)) :
  StronglySorted lt (map fst ps) ->
  StronglySorted (fun a b : nat * Block => fst a <= fst b)
    (flat_map (fun p => map (pair (fst p)) (blocks (snd p))) ps).
Proof.
  induction ps as [|[i pg] ps IH]; simpl; intros H; [constructor|].
  inversion H as [|? ? Hs Hi]; subst.
  apply StronglySorted_app.
  - generalize (blocks pg). intros bs.
    induction bs as [|b bs IHb]; simpl; constructor; [exact IHb|].
    apply Forall_forall. intros [n b'] Hin.
    apply in_map_iff in Hin as (? & E & _). injection E as <- _. simpl. lia.
  - now apply IH.
  - intros [n b] [n' b'] Ha Hb. simpl.
    apply in_map_iff in Ha as (? & E & _). injection E as <- _.
    apply in_flat_map in Hb as ([i' pg'] & Hp & Hb).
    apply in_map_iff in Hb as (? & E & _). simpl in E. injection E as <- _.
    rewrite Forall_forall in Hi.
    assert (i < i') by (apply Hi; apply in_map_iff; now exists (i', pg')).
    lia.
Qed.

Lemma all_blocks_sorted doc :
  StronglySorted (fun a b : nat * Block => fst a <= fst b) (all_blocks doc).
Proof.
  unfold all_blocks. apply blocks_of_pages_sorted.
  rewrite map_fst_enumerate. apply StronglySorted_seq.
Qed.

Lemma StronglySorted_snoc {A} (R : A -> A -> Prop) l x :
  StronglySorted R l -> Forall (fun a => R a x) l ->
  StronglySorted R (l ++ [x]).
Proof.
  intros Hs Hx. apply StronglySorted_app; [exact Hs | repeat constructor|].
  intros a b Ha [<- | []]. rewrite Forall_forall in Hx. now apply Hx.
Qed.

(** The pages of the sections saved so far never decrease and do not
    exceed the page of the accumulator, which does not exceed the page of
    the next block. *)
Lemma run_blocks_pages doc_name bs : forall st lo,
  StronglySorted (fun a b : nat * Block => fst a <= fst b) bs ->
  Forall (fun b => lo <= fst b) bs ->
  StronglySorted Z.le (map page_number (fst st)) ->
  Forall (fun s => (page_number s <= acc_page (snd st))%Z) (fst st) ->
  (acc_page (snd st) <= Z.of_nat lo + 1)%Z ->
  StronglySorted Z.le
    (map page_number (fst (run_blocks doc_name bs st)))
  /\ Forall (fun s => (page_number s
                       <= acc_page (snd (run_blocks doc_name bs st)))%Z)
            (fst (run_blocks doc_name bs st)).
Proof.
  induction bs as [|[n b] bs IH]; intros [sections cur] lo Hsorted Hlo Hs Hle Hp;
    [now split|].
  inversion Hsorted as [|? ? Hsorted' Hn]; subst.
  inversion Hlo as [|? ? Hlon _]; subst. cbn [fst snd] in *.
  change (run_blocks doc_name ((n, b) :: bs) (sections, cur))
    with (run_blocks doc_name bs
            (segment_block doc_name n (sections, cur) b)).
  assert (Hstep :
    StronglySorted Z.le
      (map page_number (fst (segment_block doc_name n (sections, cur) b)))
    /\ Forall (fun s => (page_number s
                         <= acc_page (snd (segment_block doc_name n
                                             (sections, cur) b)))%Z)
              (fst (segment_block doc_name n (sections, cur) b))
    /\ (acc_page (snd (segment_block doc_name n (sections, cur) b))
        <= Z.of_nat n + 1)%Z).
  { unfold segment_block.
    destruct b as [lines|]; [|cbn [fst snd]; repeat split; auto; lia].
    destruct (truthy (block_text lines));
      [|cbn [fst snd]; repeat split; auto; lia].
    destruct (is_heading lines && truthy (strip (acc_content cur))).
    - cbn [fst snd acc_page]. unfold save.
      destruct (50 <? length (strip (acc_content cur))).
      + split; [|split; [|lia]].
        * rewrite map_app. apply StronglySorted_snoc; [exact Hs|].
          apply Forall_map. exact Hle.
        * apply Forall_app. split.
          -- eapply Forall_impl; [|exact Hle]. simpl. intros; lia.
          -- constructor; [simpl; lia | constructor].
      + rewrite app_nil_r. split; [exact Hs|]. split; [|lia].
        eapply Forall_impl; [|exact Hle]. simpl. intros; lia.
    - destruct (is_heading lines && negb (truthy (title cur)));
        cbn [fst snd acc_page].
      + split; [exact Hs|]. split; [|lia].
        eapply Forall_impl; [|exact Hle]. simpl. intros; lia.
      + repeat split; auto; lia. }
  destruct Hstep as (Hs' & Hle' & Hp').
  apply (IH _ n); try assumption.
Qed.

(** X4. The sections of a document come out in reading order: along the
    list that the segmenter returns the page numbers never decrease. *)
Theorem emitted_sections_pages_never_decrease doc doc_name :
  StronglySorted Z.le
    (map page_number (_extract_sections_from_document doc doc_name)).
Proof.
  unfold _extract_sections_from_document.
  rewrite segment_pages_run. fold (all_blocks doc).
  destruct (run_blocks_pages doc_name (all_blocks doc)
              ([], initial_section) 0) as [Hs Hle].
  - apply all_blocks_sorted.
  - apply Forall_forall. intros; lia.
  - constructor.
  - constructor.
  - simpl. lia.
  - destruct (run_blocks doc_name (all_blocks doc) ([], initial_section))
      as [sections cur]. cbn [fst snd] in *.
    destruct (truthy (strip (acc_content cur)) && _); [|exact Hs].
    rewrite map_app. apply StronglySorted_snoc; [exact Hs|].
    apply Forall_map. exact Hle.
Qed.

(** Without headings nothing is saved and nothing is titled. *)
Lemma run_blocks_no_heading doc_name bs : forall c,
  (forall n lines, In (n, TextBlock lines) bs ->
                   truthy (block_text lines) = true ->
                   is_heading lines = false) ->
  run_blocks doc_name bs
    ([], {| title := []; acc_content := c; acc_page := 1 |})
  = ([], {| title := [];
            acc_content := c ++ flat_map block_paragraph bs;
            acc_page := 1 |}).
Proof.
  induction bs as [|[n b] bs IH]; intros c Hno.
  - simpl. now rewrite app_nil_r.
  - change (run_blocks doc_name ((n, b) :: bs)
              ([], {| title := []; acc_content := c; acc_page := 1 |}))
      with (run_blocks doc_name bs
              (segment_block doc_name n
                 ([], {| title := []; acc_content := c; acc_page := 1 |}) b)).
    assert (Hrest : forall n' lines, In (n', TextBlock lines) bs ->
                      truthy (block_text lines) = true ->
                      is_heading lines = false).
    { intros n' lines Hin. apply (Hno n' lines). now right. }
    simpl flat_map. unfold block_paragraph at 1. cbn [snd].
    destruct b as [lines|].
    + unfold segment_block.
      destruct (truthy (block_text lines)) eqn:E.
      * rewrite (Hno n lines (or_introl eq_refl) E). simpl andb. cbv iota.
        cbn [title acc_content acc_page].
        rewrite (IH _ Hrest). now rewrite <- !app_assoc.
      * now rewrite (IH _ Hrest).
    + simpl segment_block. now rewrite (IH _ Hrest).
Qed.

(** X5. A document in which no text block is a heading gives at most one
    section: all its text, block after block, under the title "Untitled
    Section" on page 1 when the stripped text is longer than 50 characters,
    and no section otherwise. *)
Theorem no_heading_one_untitled_section doc doc_name :
  (forall n lines, In (n, TextBlock lines) (all_blocks doc) ->
                   truthy (block_text lines) = true ->
                   is_heading lines = false) ->
  _extract_sections_from_document doc doc_name
  = if 50 <? length (strip (plain_text doc))
    then [ {| document := doc_name;
              page_number := 1;
              section_title := untitled_section;
              content := strip (plain_text doc) |} ]
    else [].
Proof.
  intros Hno. unfold _extract_sections_from_document.
  rewrite segment_pages_run. fold (all_blocks doc).
  unfold initial_section. rewrite (run_blocks_no_heading _ _ [] Hno).
  simpl app. fold (plain_text doc). cbn [acc_content].
  destruct (50 <? length (strip (plain_text doc))) eqn:E.
  - apply Nat.ltb_lt in E.
    assert (Ht : truthy (strip (plain_text doc)) = true).
    { destruct (strip (plain_text doc)); [simpl in E; lia | reflexivity]. }
    rewrite Ht. reflexivity.
  - now rewrite andb_false_r.
Qed.

Lemma no_heading_one_untitled_section_witness :
  _extract_sections_from_document MoreExamples.plain_doc (lit "plain.pdf")
  = if 50 <? length (strip (plain_text MoreExamples.plain_doc))
    then [ {| document := lit "plain.pdf";
              page_number := 1;
              section_title := untitled_section;
              content := strip (plain_text MoreExamples.plain_doc) |} ]
    else [].
Proof.
  apply (no_heading_one_untitled_section MoreExamples.plain_doc
           (lit "plain.pdf")).
  intros n lines Hin _.
  destruct Hin as [E | [E | [E | []]]]; try discriminate E;
    injection E as _ <-; reflexivity.
Defined.

End SegmenterMore.

(** ** The analysis of a request *)

Module PipelineFacts.
Import Py Re Sorting Layout Files DocumentIntelligenceAnalyzer AnalysisService.
Import PyFacts SortingFacts ListFacts RankingFacts RankingMore.
Import SegmenterFacts SegmenterMore RefinerFacts.

Lemma firstn_seq_min n start len :
  firstn n (seq start len) = seq start (Nat.min n len).
Proof.
  revert start len. induction n as [|n IH]; intros start [|len]; simpl;
    try reflexivity.
  now rewrite IH.
Qed.

Lemma take_while_all p s : forallb p (take_while p s) = true.
Proof.
  induction s as [|c s IH]; simpl; [reflexivity|].
  destruct (p c) eqn:E; simpl; [now rewrite E | reflexivity].
Qed.

Lemma basename_no_slash path :
  forallb (fun c => negb (is_slash c)) (basename path) = true.
Proof. unfold basename. rewrite forallb_rev. apply take_while_all. Qed.

Lemma extract_all_sections_readable documents :
  extract_all_sections (filter is_readable documents)
  = extract_all_sections documents.
Proof.
  unfold extract_all_sections.
  induction documents as [|[path o] ds IH]; [reflexivity|].
  simpl. unfold is_readable at 1. simpl snd.
  destruct o; simpl; rewrite IH; reflexivity.
Qed.

Lemma extract_all_sections_origin documents s :
  In s (extract_all_sections documents) ->
  exists path doc,
    In (path, Readable doc) documents
    /\ In s (_extract_sections_from_document doc (basename path)).
Proof.
  unfold extract_all_sections. intros H.
  apply in_flat_map in H as ([path o] & Hd & Hs).
  unfold sections_of_path in Hs. simpl in Hs.
  destruct o as [| |doc]; try destruct Hs.
  now exists path, doc.
Qed.

(** The ranked sections of a request, and what the result keeps of them. *)
Lemma analyze_documents_result V m documents persona job now :
  exists ranked,
    Permutation (map section ranked) (extract_all_sections documents)
    /\ map importance_rank ranked
       = seq 1 (length (extract_all_sections documents))
    /\ extracted_sections
         (snd (analyze_documents V m documents persona job now))
       = firstn 15 ranked
    /\ exists m',
         subsection_analysis
           (snd (analyze_documents V m documents persona job now))
         = map (subsection_of V m' (persona ++ lit " " ++ job))
               (firstn 10 ranked).
Proof.
  unfold analyze_documents.
  destruct (extract_all_sections documents) as [|s0 rest] eqn:E.
  - exists []. repeat split; try constructor. now exists m.
  - destruct (score_sections_permutation V m (s0 :: rest)
                (persona ++ lit " " ++ job)) as [Hperm Hranks].
    destruct (_score_sections V m (s0 :: rest) (persona ++ lit " " ++ job))
      as [m' ranked].
    cbn [snd] in *. exists ranked. repeat split; try assumption.
    exists m'. cbn [subsection_analysis]. unfold _generate_subsections.
    rewrite firstn_map, !firstn_firstn. reflexivity.
Qed.

Lemma Forall2_firstn {A B} (R : A -> B -> Prop) n l l' :
  Forall2 R l l' -> Forall2 R (firstn n l) (firstn n l').
Proof.
  intros H. revert n. induction H; intros [|n]; simpl; constructor; auto.
Qed.

(** The scored ranking follows the similarities. *)
Lemma score_sections_by_similarity V m sections query m' similarities :
  fit_similarities V m (map section_text sections ++ [query])
    = (m', Some similarities) ->
  length sections <= length similarities ->
  exists perm,
    Permutation perm (seq 0 (length sections))
    /\ Forall2 (fun r i => nth_error sections i = Some (section r))
               (snd (_score_sections V m sections query)) perm
    /\ StronglySorted
         (fun i j => (sim similarities j < sim similarities i)%Q
                     \/ ((sim similarities i == sim similarities j)%Q
                         /\ i < j))
         perm.
Proof.
  intros Hfit Hlen.
  destruct sections as [|s0 rest] eqn:Es.
  { exists []. repeat split; constructor. }
  rewrite <- Es in *.
  rewrite (score_sections_success V m sections query m' similarities);
    [|rewrite Es; discriminate | exact Hfit | exact Hlen].
  simpl snd. rewrite <- map_snd_sorted_tagged.
  set (st := sorted_tagged sections similarities).
  assert (Hperm : Permutation st (tagged sections similarities))
    by apply sort_perm.
  assert (Hspec : Forall (fun t => nth_error sections (fst t)
                                   = Some (fst (snd t))
                                   /\ snd (snd t) = sim similarities (fst t))
                         st).
  { eapply Permutation_Forall; [symmetry; exact Hperm | apply tagged_spec]. }
  exists (map fst st). split; [|split].
  - rewrite <- map_fst_tagged with (similarities := similarities).
    now apply Permutation_map.
  - apply (Forall2_unmap_left section
             (fun s i => nth_error sections i = Some s)).
    rewrite assign_ranks_sections, map_map.
    apply Forall2_maps. eapply Forall_impl; [|exact Hspec].
    intros t [Ht _]. exact Ht.
  - apply StronglySorted_map.
    apply StronglySorted_weaken
      with (R := by_key_then_position (fun t => snd (snd t)) fst).
    + rewrite Forall_forall in Hspec.
      intros a b Ha Hb. destruct (Hspec a Ha) as [_ Ea].
      destruct (Hspec b Hb) as [_ Eb].
      unfold by_key_then_position. now rewrite Ea, Eb.
    + apply sort_stable, tagged_increasing.
Qed.

Lemma analyze_documents_unfold V m documents persona job now :
  extracted_sections (snd (analyze_documents V m documents persona job now))
  = firstn 15
      (snd (_score_sections V m (extract_all_sections documents)
              (persona ++ lit " " ++ job)))
  /\ subsection_analysis
       (snd (analyze_documents V m documents persona job now))
     = _generate_subsections V
         (fst (_score_sections V m (extract_all_sections documents)
                 (persona ++ lit " " ++ job)))
         (snd (_score_sections V m (extract_all_sections documents)
                 (persona ++ lit " " ++ job)))
         (persona ++ lit " " ++ job).
Proof.
  unfold analyze_documents.
  destruct (extract_all_sections documents) as [|s0 rest]; [now split|].
  destruct (_score_sections V m (s0 :: rest) (persona ++ lit " " ++ job))
    as [m' ranked].
  cbn [fst snd extracted_sections subsection_analysis]. split; [reflexivity|].
  unfold _generate_subsections.
  now rewrite firstn_map, !firstn_firstn.
Qed.

(** X6. The result of a request keeps the 15 best-ranked sections and one
    subsection for each of the 10 best-ranked.  The extracted sections are
    the first 15 of the ranking that the ranker gives for all the sections
    of the request and the query "persona job", and the subsections are
    what the refiner gives for this ranking under the model as the ranker
    left it.  So, when the model scores every section, the extracted
    sections are the sections at the first 15 positions of an order of all
    the sections by non-increasing similarity, ties in extraction order.
    The ranks are 1, 2, ... in this order; there are min(15, N) extracted
    sections and min(10, N) subsections, and the subsection at position i
    has the document, the title and the page of the extracted section at
    position i. *)
Theorem analysis_result_caps_and_alignment V m documents persona job now :
  extracted_sections (snd (analyze_documents V m documents persona job now))
  = firstn 15
      (snd (_score_sections V m (extract_all_sections documents)
              (persona ++ lit " " ++ job)))
  /\ subsection_analysis
       (snd (analyze_documents V m documents persona job now))
     = _generate_subsections V
         (fst (_score_sections V m (extract_all_sections documents)
                 (persona ++ lit " " ++ job)))
         (snd (_score_sections V m (extract_all_sections documents)
                 (persona ++ lit " " ++ job)))
         (persona ++ lit " " ++ job)
  /\ (forall m' similarities,
        fit_similarities V m
          (map section_text (extract_all_sections documents)
           ++ [persona ++ lit " " ++ job])
          = (m', Some similarities) ->
        length (extract_all_sections documents) <= length similarities ->
        exists perm,
          Permutation perm
            (seq 0 (length (extract_all_sections documents)))
          /\ StronglySorted
               (fun i j => (sim similarities j < sim similarities i)%Q
                           \/ ((sim similarities i == sim similarities j)%Q
                               /\ i < j))
               perm
          /\ Forall2
               (fun r i => nth_error (extract_all_sections documents) i
                           = Some (section r))
               (extracted_sections
                  (snd (analyze_documents V m documents persona job now)))
               (firstn 15 perm))
  /\ length (extracted_sections
               (snd (analyze_documents V m documents persona job now)))
     = Nat.min 15 (length (extract_all_sections documents))
  /\ map importance_rank
       (extracted_sections
          (snd (analyze_documents V m documents persona job now)))
     = seq 1 (Nat.min 15 (length (extract_all_sections documents)))
  /\ length (subsection_analysis
               (snd (analyze_documents V m documents persona job now)))
     = Nat.min 10 (length (extract_all_sections documents))
  /\ forall i sub,
       nth_error (subsection_analysis
                    (snd (analyze_documents V m documents persona job now)))
                 i = Some sub ->
       exists s,
         nth_error (extracted_sections
                      (snd (analyze_documents V m documents persona job now)))
                   i = Some s
         /\ sub_document sub = document (section s)
         /\ sub_section_title sub = section_title (section s)
         /\ sub_page_number sub = page_number (section s).
Proof.
  destruct (analyze_documents_unfold V m documents persona job now)
    as [Hext Hsub].
  split; [exact Hext|]. split; [exact Hsub|]. split.
  { intros m' similarities Hfit Hlen.
    destruct (score_sections_by_similarity V m _ _ m' similarities Hfit Hlen)
      as (perm & Hperm & Hall & Hsorted).
    exists perm. split; [exact Hperm|]. split; [exact Hsorted|].
    rewrite Hext. now apply Forall2_firstn. }
  destruct (analyze_documents_result V m documents persona job now)
    as (ranked & Hperm & Hranks & -> & m' & ->).
  assert (Hlen : length ranked = length (extract_all_sections documents)).
  { rewrite <- (length_map section). now apply Permutation_length. }
  repeat split.
  - rewrite length_firstn. lia.
  - rewrite <- firstn_map, Hranks. apply firstn_seq_min.
  - rewrite length_map, length_firstn. lia.
  - intros i sub Hs. rewrite nth_error_map in Hs.
    destruct (nth_error (firstn 10 ranked) i) as [s|] eqn:Es;
      [|discriminate].
    injection Hs as <-. exists s. split; [|now repeat split].
    assert (Hi : i < 10).
    { assert (i < length (firstn 10 ranked))
        by (apply nth_error_Some; congruence).
      rewrite length_firstn in H. lia. }
    rewrite nth_error_firstn_lt in Es by exact Hi.
    rewrite nth_error_firstn_lt by lia. exact Es.
Qed.

Lemma analysis_result_caps_and_alignment_witness :
  (exists perm,
      Permutation perm
        (seq 0 (length (extract_all_sections MoreExamples.request_documents)))
      /\ StronglySorted
           (fun i j => (sim [(1 # 4)%Q; (3 # 4)%Q] j
                        < sim [(1 # 4)%Q; (3 # 4)%Q] i)%Q
                       \/ ((sim [(1 # 4)%Q; (3 # 4)%Q] i
                            == sim [(1 # 4)%Q; (3 # 4)%Q] j)%Q
                           /\ i < j))
           perm
      /\ Forall2
           (fun r i => nth_error
                         (extract_all_sections MoreExamples.request_documents)
                         i = Some (section r))
           (extracted_sections
              (snd (analyze_documents MoreExamples.second_first_space tt
                      MoreExamples.request_documents
                      (lit "PhD Researcher") (lit "literature review")
                      (lit "2025-01-01T00:00:00"))))
           (firstn 15 perm))
  /\ exists s,
       nth_error (extracted_sections MoreExamples.request_result) 0 = Some s
       /\ sub_document
            (hd MoreExamples.no_subsection
                (subsection_analysis MoreExamples.request_result))
          = document (section s)
       /\ sub_page_number
            (hd MoreExamples.no_subsection
                (subsection_analysis MoreExamples.request_result))
          = page_number (section s).
Proof.
  split.
  - destruct (analysis_result_caps_and_alignment
                MoreExamples.second_first_space tt
                MoreExamples.request_documents
                (lit "PhD Researcher") (lit "literature review")
                (lit "2025-01-01T00:00:00")) as (_ & _ & Hbest & _).
    apply (Hbest tt [(1 # 4)%Q; (3 # 4)%Q]).
    + reflexivity.
    + vm_compute. lia.
  - destruct (analysis_result_caps_and_alignment Examples.failing_space tt
                MoreExamples.request_documents
                (lit "PhD Researcher") (lit "literature review")
                (lit "2025-01-01T00:00:00"))
      as (_ & _ & _ & _ & _ & _ & Halign).
    destruct (Halign 0 (hd MoreExamples.no_subsection
                           (subsection_analysis MoreExamples.request_result)))
      as (s & Hs & Hd & _ & Hp).
    + reflexivity.
    + exists s. split; [exact Hs|]. split; [exact Hd | exact Hp].
Defined.

(** The run with the scoring model: the section "Results" of the second
    page is ranked first. *)
Example analysis_best_ranked_run :
  map (fun r => (section_title (section r), importance_rank r))
      (extracted_sections
         (snd (analyze_documents MoreExamples.second_first_space tt
                 MoreExamples.request_documents
                 (lit "PhD Researcher") (lit "literature review")
                 (lit "2025-01-01T00:00:00"))))
  = [ (lit "Results", 1); (untitled_section, 2) ].
Proof. reflexivity. Qed.

(** X7. A path that does not exist and a file that cannot be read change
    nothing in the sections and subsections of the result: they are those
    of the request without these documents. *)
Theorem analysis_skips_missing_and_unreadable
    V m documents persona job now :
  extracted_sections
    (snd (analyze_documents V m documents persona job now))
  = extracted_sections
      (snd (analyze_documents V m (filter is_readable documents)
              persona job now))
  /\ subsection_analysis
       (snd (analyze_documents V m documents persona job now))
     = subsection_analysis
         (snd (analyze_documents V m (filter is_readable documents)
                 persona job now)).
Proof.
  unfold analyze_documents. rewrite extract_all_sections_readable.
  destruct (extract_all_sections documents) as [|s0 rest]; [now split|].
  destruct (_score_sections V m (s0 :: rest) (persona ++ lit " " ++ job))
    as [m' ranked].
  now split.
Qed.

Lemma truncate_keeps_50 p : 50 < length p -> 50 < length (truncate p).
Proof.
  intros H. unfold truncate. destruct (300 <? length p) eqn:E; [|exact H].
  apply Nat.ltb_lt in E. rewrite length_app, length_firstn. lia.
Qed.

Lemma subsection_text_bounds V m query s :
  50 < length (content (section s)) ->
  50 < length (refined_text (subsection_of V m query s)) <= 303.
Proof.
  intros Hc. destruct (subsection_text V m query s) as (p & Hp & ->).
  split; [|apply truncate_length]. apply truncate_keeps_50.
  destruct (paragraphs_of_cases (content (section s)))
    as [[_ E] | [_ E]]; rewrite E in Hp.
  - apply qualifying_spec in Hp as [Hlen _]. lia.
  - destruct Hp as [<- | []]. rewrite length_firstn. lia.
Qed.

(** X8. In the result of a request every extracted section comes from a
    document of the request that could be read: it carries the base name
    of its path (no slash in it), a title of 1 to 100 characters, a content
    without white space around it and longer than 50 characters, and a
    page of that document; and the text of every subsection has more than
    50 and at most 303 characters. *)
Theorem analysis_result_well_formed V m documents persona job now :
  (forall s,
      In s (extracted_sections
              (snd (analyze_documents V m documents persona job now))) ->
      exists path doc,
        In (path, Readable doc) documents
        /\ document (section s) = basename path
        /\ forallb (fun c => negb (is_slash c)) (document (section s)) = true
        /\ 0 < length (section_title (section s)) <= 100
        /\ strip (content (section s)) = content (section s)
        /\ 50 < length (content (section s))
        /\ (1 <= page_number (section s)
            <= Z.of_nat (length (pages doc)))%Z)
  /\ (forall sub,
        In sub (subsection_analysis
                  (snd (analyze_documents V m documents persona job now))) ->
        50 < length (refined_text sub) <= 303).
Proof.
  destruct (analyze_documents_result V m documents persona job now)
    as (ranked & Hperm & _ & -> & m' & ->).
  assert (Hsrc : forall s, In s ranked ->
                   In (section s) (extract_all_sections documents)).
  { intros s Hs. eapply Permutation_in; [exact Hperm|]. now apply in_map. }
  assert (Hwf : forall s, In s ranked ->
            exists path doc,
              In (path, Readable doc) documents
              /\ document (section s) = basename path
              /\ forallb (fun c => negb (is_slash c)) (document (section s))
                 = true
              /\ 0 < length (section_title (section s)) <= 100
              /\ strip (content (section s)) = content (section s)
              /\ 50 < length (content (section s))
              /\ (1 <= page_number (section s)
                  <= Z.of_nat (length (pages doc)))%Z).
  { intros s Hs.
    destruct (extract_all_sections_origin _ _ (Hsrc s Hs))
      as (path & doc & Hd & Hin).
    destruct (emitted_section_good _ _ _ Hin)
      as (Hn & Ht & Hst & Hc & Hp).
    exists path, doc. repeat split; try assumption; try lia.
    rewrite Hn. apply basename_no_slash. }
  split.
  - intros s Hs. apply Hwf. eapply In_firstn. exact Hs.
  - intros sub Hsub. apply in_map_iff in Hsub as (s & <- & Hs).
    apply subsection_text_bounds.
    destruct (Hwf s (In_firstn _ _ _ Hs))
      as (_ & _ & _ & _ & _ & _ & _ & Hc & _).
    exact Hc.
Qed.

Lemma analysis_result_well_formed_witness :
  (exists path doc,
      In (path, Readable doc) MoreExamples.request_documents
      /\ lit "report.pdf" = basename path
      /\ (1 <= 2 <= Z.of_nat (length (pages doc)))%Z)
  /\ 50 < length (refined_text
                    (hd MoreExamples.no_subsection
                        (subsection_analysis MoreExamples.request_result)))
     <= 303.
Proof.
  destruct (analysis_result_well_formed Examples.failing_space tt
              MoreExamples.request_documents
              (lit "PhD Researcher") (lit "literature review")
              (lit "2025-01-01T00:00:00")) as [Hsec Hsub].
  split.
  - destruct (Hsec {| section :=
                        section_of (lit "report.pdf")
                          {| title := lit "Results";
                             acc_content := lit "Most headings of the sampled documents are recovered by the heuristic. " ++ [nl; nl];
                             acc_page := 2 |};
                      importance_rank := 2 |})
      as (path & doc & Hin & Hname & _ & _ & _ & _ & Hpage).
    + vm_compute. right. left. reflexivity.
    + exists path, doc. split; [exact Hin|].
      split; [exact Hname | exact Hpage].
  - apply Hsub. vm_compute. left. reflexivity.
Defined.

End PipelineFacts.

(** ** Structure extraction: titles, levels and the fallback outline *)

Module StructureMore.
Import Py Re Sorting Layout Files PDFStructureExtractor StructureService.
Import PyFacts SortingFacts ListFacts OutlineFacts TitleFacts.

Ltac ascii_cases c :=
  destruct c as [[] [] [] [] [] [] [] []]; vm_compute;
  try reflexivity; try discriminate; try (intros; reflexivity);
  try (intros; discriminate).

Lemma alnum_not_space c : is_alnum c = true -> is_space c = false.
Proof. ascii_cases c. Qed.

Lemma alnum_not_dot c : is_alnum c = true -> eqb_char c "."%char = false.
Proof. ascii_cases c. Qed.

Lemma alnum_not_nl c : is_alnum c = true -> eqb_char c nl = false.
Proof. ascii_cases c. Qed.

(** A string between two characters that are not white space is its own
    stripped form. *)
Lemma strip_fixed c r r' c' :
  c :: r = r' ++ [c'] -> is_space c = false -> is_space c' = false ->
  strip (c :: r) = c :: r.
Proof.
  intros E Hc Hc'. unfold strip, lstrip, rstrip, drop_while_end.
  rewrite (drop_while_stop is_space c r Hc).
  assert (Hr : rev (c :: r) = c' :: rev r')
    by (rewrite E, rev_app_distr; reflexivity).
  rewrite Hr, (drop_while_stop is_space c' _ Hc'), <- Hr.
  apply rev_involutive.
Qed.

Lemma trim_non_alnum_stripped t :
  strip (trim_non_alnum t) = trim_non_alnum t.
Proof.
  destruct (trim_non_alnum_spec t)
    as (_ & _ & _ & _ & _ & Hlast & Hfirst).
  destruct Hfirst as [-> | (c & r & E & Hc)]; [reflexivity|].
  destruct Hlast as [E' | (r' & c' & E' & Hc')]; [congruence|].
  rewrite E. apply (strip_fixed c r r' c').
  - congruence.
  - now apply alnum_not_space.
  - now apply alnum_not_space.
Qed.

Lemma extract_title_invariant doc :
  3 < length (_extract_title doc)
  /\ strip (_extract_title doc) = _extract_title doc.
Proof.
  assert (Hu : 3 < length unknown_document
               /\ strip unknown_document = unknown_document).
  { split; [vm_compute; lia | reflexivity]. }
  unfold _extract_title.
  destruct (truthy (stripped_metadata_title doc)
            && (3 <? length (stripped_metadata_title doc))) eqn:E.
  - apply andb_true_iff in E as [_ E]. apply Nat.ltb_lt in E.
    split; [exact E | apply strip_idem].
  - destruct (pages doc) as [|page rest]; [exact Hu|].
    destruct (sort title_key_lt (title_candidates page))
      as [|[[t sz] y] tl]; [exact Hu|].
    destruct (3 <? length (trim_non_alnum t)) eqn:F; [|exact Hu].
    apply Nat.ltb_lt in F. split; [exact F | apply trim_non_alnum_stripped].
Qed.

Lemma structure_file_bounds opened :
  3 < length (fst (extract_structure_file opened))
  /\ strip (fst (extract_structure_file opened))
     = fst (extract_structure_file opened)
  /\ length (snd (extract_structure_file opened)) <= 50.
Proof.
  destruct opened as [| |doc]; simpl;
    try (repeat split; [vm_compute; lia | lia]).
  destruct (extract_title_invariant doc) as [H1 H2].
  repeat split; try assumption.
  unfold _extract_outline. rewrite length_firstn. lia.
Qed.

(** X9. Whatever the file (one that cannot be opened included), the title
    that [extract_structure] returns has more than 3 characters and no
    white space around it, and the outline has at most 50 entries. *)
Theorem structure_title_and_outline_bounds opened :
  3 < length (fst (extract_structure_file opened))
  /\ strip (fst (extract_structure_file opened))
     = fst (extract_structure_file opened)
  /\ length (snd (extract_structure_file opened)) <= 50.
Proof. apply structure_file_bounds. Qed.

(** X10. In the fallback, with the same base size and the same text, a line
    that is at least as large and at least as bold as another is never
    classified lower (H1 above H2 above H3 above no heading). *)
Theorem heading_level_monotone base b b' :
  tl_text b = tl_text b' ->
  (tl_font_size b <= tl_font_size b')%Q ->
  (tl_is_bold b = true -> tl_is_bold b' = true) ->
  level_weight (heading_level base b)
  <= level_weight (heading_level base b').
Proof.
  intros Ht Hs Hb. unfold heading_level. rewrite Ht.
  pose proof (FontLevelFacts.ge_mono _ _ (Float64.times base (14 # 10)) Hs)
    as M1.
  pose proof (FontLevelFacts.ge_mono _ _ (Float64.times base (12 # 10)) Hs)
    as M2.
  pose proof (FontLevelFacts.ge_mono _ _ (Float64.times base (11 # 10)) Hs)
    as M3.
  destruct (Float64.ge (tl_font_size b) (Float64.times base (14 # 10)));
    destruct (Float64.ge (tl_font_size b') (Float64.times base (14 # 10)));
    try (specialize (M1 eq_refl); discriminate); clear M1;
  destruct (Float64.ge (tl_font_size b) (Float64.times base (12 # 10)));
    destruct (Float64.ge (tl_font_size b') (Float64.times base (12 # 10)));
    try (specialize (M2 eq_refl); discriminate); clear M2;
  destruct (Float64.ge (tl_font_size b) (Float64.times base (11 # 10)));
    destruct (Float64.ge (tl_font_size b') (Float64.times base (11 # 10)));
    try (specialize (M3 eq_refl); discriminate); clear M3;
  destruct (tl_is_bold b); destruct (tl_is_bold b');
    try (specialize (Hb eq_refl); discriminate); clear Hb;
  destruct (is_pattern_match (tl_text b')); cbn; lia.
Qed.

Lemma heading_level_monotone_witness :
  level_weight
    (heading_level 10
       {| tl_text := lit "Overview"; tl_font_size := 12; tl_page := 1;
          tl_is_bold := false |})
  <= level_weight
       (heading_level 10
          {| tl_text := lit "Overview"; tl_font_size := 12; tl_page := 3;
             tl_is_bold := true |}).
Proof.
  apply (heading_level_monotone 10
           {| tl_text := lit "Overview"; tl_font_size := 12; tl_page := 1;
              tl_is_bold := false |}
           {| tl_text := lit "Overview"; tl_font_size := 12; tl_page := 3;
              tl_is_bold := true |}).
  - reflexivity.
  - simpl. apply Qle_refl.
  - simpl. discriminate.
Defined.

(** The descending and the ascending sort give an ordered list. *)
Lemma sort_key_reverse_sorted {A} (k : A -> Q) l :
  StronglySorted (fun a b => (k b <= k a)%Q) (sort_key_reverse k l).
Proof.
  unfold sort_key_reverse.
  apply StronglySorted_weaken
    with (R := fun a b => (fun y x => Qltb (k x) (k y)) b a = false).
  - intros a b _ _ H. now apply Qltb_false in H.
  - apply sort_sorted.
    + intros a b H. apply Qltb_true in H. apply Qltb_false. lra.
    + intros a b c H1 H2. apply Qltb_false in H1, H2. apply Qltb_false. lra.
Qed.

Lemma sort_key_sorted {A} (k : A -> Q) l :
  StronglySorted (fun a b => (k a <= k b)%Q) (sort_key k l).
Proof.
  unfold sort_key.
  apply StronglySorted_weaken
    with (R := fun a b => (fun y x => Qltb (k y) (k x)) b a = false).
  - intros a b _ _ H. now apply Qltb_false in H.
  - apply sort_sorted.
    + intros a b H. apply Qltb_true in H. apply Qltb_false. lra.
    + intros a b c H1 H2. apply Qltb_false in H1, H2. apply Qltb_false. lra.
Qed.

Lemma count_perm x l l' : Permutation l l' -> count x l = count x l'.
Proof.
  unfold count. induction 1; simpl.
  - reflexivity.
  - destruct (Qeq_bool x x0); simpl; now rewrite IHPermutation.
  - destruct (Qeq_bool x x0), (Qeq_bool x y); reflexivity.
  - congruence.
Qed.

(** [most_common] returns the first value of the list among those that
    occur most often. *)
Lemma most_common_fold L rest : forall pre best,
  match best with
  | None => pre = []
  | Some b => exists p s, pre = p ++ b :: s
                /\ (forall x, In x p -> count x L < count b L)
                /\ (forall x, In x s -> count x L <= count b L)
  end ->
  match fold_left (fun best x =>
                     match best with
                     | None => Some x
                     | Some b => if count b L <? count x L
                                 then Some x else Some b
                     end) rest best with
  | None => pre ++ rest = []
  | Some b => exists p s, pre ++ rest = p ++ b :: s
                /\ (forall x, In x p -> count x L < count b L)
                /\ (forall x, In x s -> count x L <= count b L)
  end.
Proof.
  induction rest as [|x rest IH]; intros pre best Hinv.
  - simpl. rewrite app_nil_r. exact Hinv.
  - simpl fold_left.
    replace (pre ++ x :: rest) with ((pre ++ [x]) ++ rest)
      by now rewrite <- app_assoc.
    apply IH. destruct best as [b|].
    + destruct Hinv as (p & s & -> & Hp & Hs).
      destruct (count b L <? count x L) eqn:E.
      * apply Nat.ltb_lt in E. exists (p ++ b :: s), []. split; [reflexivity|].
        split; [|intros y []].
        intros y Hy. apply in_app_or in Hy as [Hy | [<- | Hy]].
        -- specialize (Hp y Hy). lia.
        -- exact E.
        -- specialize (Hs y Hy). lia.
      * apply Nat.ltb_ge in E. exists p, (s ++ [x]). split.
        -- now rewrite <- app_assoc.
        -- split; [exact Hp|]. intros y Hy.
           apply in_app_or in Hy as [Hy | [<- | []]]; [now apply Hs | exact E].
    + subst pre. exists [], []. split; [reflexivity|].
      split; intros y [].
Qed.

Lemma most_common_spec L :
  match most_common L with
  | None => L = []
  | Some b => exists p s, L = p ++ b :: s
                /\ (forall x, In x p -> count x L < count b L)
                /\ (forall x, In x s -> count x L <= count b L)
  end.
Proof. apply (most_common_fold L L [] None). reflexivity. Qed.

Lemma StronglySorted_app_tail {A} (R : A -> A -> Prop) p b s :
  StronglySorted R (p ++ b :: s) -> Forall (R b) s.
Proof.
  induction p as [|x p IH]; simpl; intros H; inversion H; subst; auto.
Qed.

(** X11. The base font size of the fallback is the statistical mode of the
    line sizes, the largest one when several sizes occur most often: it is
    the size of a line, no size occurs more often, and a size that occurs
    as often is not larger.  There is none exactly when there is no line. *)
Theorem base_font_size_is_largest_mode blocks :
  (base_font_size_of blocks = None <-> blocks = [])
  /\ forall base,
       base_font_size_of blocks = Some base ->
       In base (map tl_font_size blocks)
       /\ forall x, In x (map tl_font_size blocks) ->
            count x (map tl_font_size blocks)
            <= count base (map tl_font_size blocks)
            /\ (count x (map tl_font_size blocks)
                = count base (map tl_font_size blocks) -> (x <= base)%Q).
Proof.
  unfold base_font_size_of.
  set (sizes := map tl_font_size blocks).
  set (sorted := sort_key_reverse (fun x : Q => x) sizes).
  assert (Hperm : Permutation sorted sizes) by apply sort_perm.
  pose proof (most_common_spec sorted) as Hspec.
  split.
  - split.
    + intros E. rewrite E in Hspec. rewrite Hspec in Hperm.
      apply Permutation_nil in Hperm.
      unfold sizes in Hperm. now apply map_eq_nil in Hperm.
    + intros ->. reflexivity.
  - intros base E. rewrite E in Hspec.
    destruct Hspec as (p & s & Hs & Hp & Hsuf).
    assert (Hcount : forall x, count x sorted = count x sizes)
      by (intros x; now apply count_perm).
    split.
    + eapply Permutation_in; [exact Hperm|]. rewrite Hs.
      apply in_or_app. right. now left.
    + intros x Hx.
      assert (Hin : In x sorted)
        by (eapply Permutation_in; [symmetry; exact Hperm | exact Hx]).
      rewrite <- !Hcount. rewrite Hs in Hin.
      apply in_app_or in Hin as [Hin | [<- | Hin]].
      * specialize (Hp x Hin). split; [lia | intros; lia].
      * split; [lia | intros; apply Qle_refl].
      * split; [now apply Hsuf|]. intros _.
        pose proof (sort_key_reverse_sorted (fun x : Q => x) sizes) as Hsorted.
        fold sorted in Hsorted. rewrite Hs in Hsorted.
        apply StronglySorted_app_tail in Hsorted.
        rewrite Forall_forall in Hsorted. now apply Hsorted.
Qed.

Lemma base_font_size_is_largest_mode_witness :
  In 10%Q (map tl_font_size (all_text_blocks Examples.fonts_doc))
  /\ forall x, In x (map tl_font_size (all_text_blocks Examples.fonts_doc)) ->
       count x (map tl_font_size (all_text_blocks Examples.fonts_doc))
       <= count 10%Q (map tl_font_size (all_text_blocks Examples.fonts_doc))
       /\ (count x (map tl_font_size (all_text_blocks Examples.fonts_doc))
           = count 10%Q (map tl_font_size (all_text_blocks Examples.fonts_doc))
           -> (x <= 10)%Q).
Proof.
  destruct (base_font_size_is_largest_mode
              (all_text_blocks Examples.fonts_doc)) as [_ H].
  apply (H 10%Q). reflexivity.
Defined.

(** What the lines of the fallback are. *)
Lemma In_all_text_blocks doc b :
  In b (all_text_blocks doc) ->
  2 < length (tl_text b)
  /\ strip (tl_text b) = tl_text b
  /\ (1 <= tl_page b <= Z.of_nat (length (pages doc)))%Z.
Proof.
  unfold all_text_blocks. intros H.
  apply in_flat_map in H as ([n pg] & Hp & H).
  apply In_combine_seq in Hp as [_ Hp]. rewrite Nat.sub_0_r in Hp.
  assert (Hn : n < length (pages doc))
    by (apply nth_error_Some; congruence).
  apply in_flat_map in H as ([lines|] & _ & H); [|destruct H].
  apply in_flat_map in H as (l & _ & H).
  unfold text_line in H.
  destruct (truthy (strip (line_text l)) && (2 <? length (strip (line_text l))))
    eqn:E; [|destruct H].
  destruct H as [<- | []]. simpl.
  apply andb_true_iff in E as [_ E]. apply Nat.ltb_lt in E.
  split; [exact E|]. split; [apply strip_idem | lia].
Qed.

Lemma heading_level_is_level base block lvl :
  heading_level base block = Some lvl -> is_level lvl.
Proof.
  unfold heading_level, is_level.
  destruct (_ || _); [intros E; injection E as <-; now left|].
  destruct (_ || _); [intros E; injection E as <-; right; now left|].
  destruct (_ || _); [intros E; injection E as <-; right; now right|].
  discriminate.
Qed.

Lemma strip_trailing_dots_head c r :
  is_alnum c = true -> exists r', strip_trailing_dots (c :: r) = c :: r'.
Proof.
  intros Hc. unfold strip_trailing_dots. simpl rev.
  destruct (rev r) as [|x rr] eqn:Er.
  - simpl. rewrite (alnum_not_nl c Hc).
    assert (Hr : r = []).
    { rewrite <- (rev_involutive r), Er. reflexivity. }
    subst r. apply (drop_while_end_head _ c []). apply (alnum_not_dot c Hc).
  - simpl app. cbv beta iota zeta. destruct (eqb_char x nl).
    + rewrite drop_while_snoc by apply (alnum_not_dot c Hc).
      rewrite rev_app_distr. eexists. reflexivity.
    + apply (drop_while_end_head _ c r). apply (alnum_not_dot c Hc).
Qed.

(** The clean text is empty or begins with a letter or digit. *)
Lemma clean_text_head t c r :
  clean_text t = c :: r -> is_alnum c = true.
Proof.
  unfold clean_text, strip_leading_non_alnum.
  destruct (drop_while_head (fun c => negb (is_alnum c)) t)
    as [E | (c0 & r0 & E & Hc0)]; rewrite E.
  - discriminate.
  - apply negb_false_iff in Hc0.
    destruct (strip_trailing_dots_head c0 r0 Hc0) as [r1 ->].
    unfold strip, lstrip.
    rewrite (drop_while_stop is_space c0 r1 (alnum_not_space c0 Hc0)).
    unfold rstrip.
    destruct (drop_while_end_head is_space c0 r1 (alnum_not_space c0 Hc0))
      as [r2 ->].
    intros H. injection H as <- _. exact Hc0.
Qed.

Lemma unique_incl seen headings h :
  In h (unique seen headings) -> In h headings.
Proof.
  revert seen. induction headings as [|x hs IH]; intros seen; simpl; [tauto|].
  destruct (existsb (key_eqb (heading_key x)) seen).
  - intros H. right. now apply IH with seen.
  - intros [<- | H]; [now left | right; now apply IH with (heading_key x :: seen)].
Qed.

Lemma font_analysis_unfold doc :
  _extract_headings_by_font_analysis doc
  = sort_key (fun x => inject_Z (page x)) (unique_headings_of doc).
Proof.
  unfold _extract_headings_by_font_analysis, unique_headings_of, headings_of.
  now destruct (base_font_size_of (all_text_blocks doc)).
Qed.

Lemma In_headings_of doc h :
  In h (headings_of doc) ->
  is_level (level h)
  /\ 2 < length (text h) < 150
  /\ strip (text h) = text h
  /\ (exists c r, text h = c :: r /\ is_alnum c = true)
  /\ (1 <= page h <= Z.of_nat (length (pages doc)))%Z.
Proof.
  unfold headings_of.
  destruct (base_font_size_of (all_text_blocks doc)) as [base|];
    [|intros []].
  intros H. apply in_flat_map in H as (block & Hb & H).
  unfold heading_of in H.
  destruct (200 <? length (tl_text block)); [destruct H|].
  destruct (heading_level base block) as [lvl|] eqn:El; [|destruct H].
  destruct ((2 <? length (clean_text (tl_text block)))
            && (length (clean_text (tl_text block)) <? 150)) eqn:E;
    [|destruct H].
  destruct H as [<- | []]. simpl.
  apply andb_true_iff in E as [E1 E2].
  apply Nat.ltb_lt in E1, E2.
  split; [now apply heading_level_is_level with base block|].
  split; [lia|].
  split; [unfold clean_text; apply strip_idem|].
  split; [|now apply In_all_text_blocks].
  destruct (clean_text (tl_text block)) as [|c r] eqn:Ec; [simpl in E1; lia|].
  exists c, r. split; [reflexivity|]. now apply clean_text_head with (tl_text block) r.
Qed.

Lemma In_fallback doc h :
  In h (_extract_headings_by_font_analysis doc) -> In h (headings_of doc).
Proof.
  rewrite font_analysis_unfold. intros H. apply unique_incl with [].
  eapply Permutation_in; [apply sort_perm | exact H].
Qed.

(** X12. Every entry of the fallback outline has a level H1, H2 or H3, a
    text of 3 to 149 characters without white space around it that begins
    with a letter or digit, and the number of a page of the document. *)
Theorem fallback_entries_well_formed doc h :
  In h (_extract_headings_by_font_analysis doc) ->
  is_level (level h)
  /\ 2 < length (text h) < 150
  /\ strip (text h) = text h
  /\ (exists c r, text h = c :: r /\ is_alnum c = true)
  /\ (1 <= page h <= Z.of_nat (length (pages doc)))%Z.
Proof.
  rewrite font_analysis_unfold. intros H.
  apply In_headings_of. apply unique_incl with [].
  eapply Permutation_in; [apply sort_perm | exact H].
Qed.

Lemma fallback_entries_well_formed_witness :
  is_level H1
  /\ 2 < length (lit "Bold heading") < 150
  /\ (1 <= 1 <= Z.of_nat (length (pages Examples.fonts_doc)))%Z.
Proof.
  destruct (fallback_entries_well_formed Examples.fonts_doc
              {| level := H1; text := lit "Bold heading"; page := 1 |})
    as (Hl & Ht & _ & _ & Hp).
  - vm_compute. left. reflexivity.
  - split; [exact Hl|]. split; [exact Ht | exact Hp].
Defined.

(** X13. The fallback outline is ordered by page, and the headings of one
    page follow each other as they were found on it. *)
Theorem fallback_ordered_by_page_then_found doc :
  StronglySorted (fun a b => (page a <= page b)%Z)
                 (_extract_headings_by_font_analysis doc)
  /\ forall pg,
       filter (fun h => (page h =? pg)%Z)
              (_extract_headings_by_font_analysis doc)
       = filter (fun h => (page h =? pg)%Z) (unique_headings_of doc).
Proof.
  rewrite font_analysis_unfold. split.
  - apply StronglySorted_weaken
      with (R := fun a b => (inject_Z (page a) <= inject_Z (page b))%Q).
    + intros a b _ _ H. now rewrite Zle_Qle.
    + apply sort_key_sorted.
  - intros pg. unfold sort_key. apply filter_sort.
    intros x y Hlt Hx. apply Qltb_true in Hlt. rewrite <- Zlt_Qlt in Hlt.
    apply Z.eqb_eq in Hx. apply Z.eqb_neq. lia.
Qed.

(** Deduplication loses no key. *)
Lemma unique_complete headings : forall seen h,
  In h headings ->
  In (heading_key h) seen
  \/ exists h', In h' (unique seen headings)
                /\ heading_key h' = heading_key h.
Proof.
  induction headings as [|x hs IH]; intros seen h; [intros []|].
  intros [<- | Hin]; simpl.
  - destruct (existsb (key_eqb (heading_key x)) seen) eqn:E.
    + left. now apply seen_true.
    + right. exists x. split; [now left | reflexivity].
  - destruct (existsb (key_eqb (heading_key x)) seen) eqn:E.
    + apply IH. exact Hin.
    + destruct (IH (heading_key x :: seen) h Hin) as [[Hk | Hs] | (h' & Hh' & Hk)].
      * right. exists x. split; [now left | exact Hk].
      * now left.
      * right. exists h'. split; [now right | exact Hk].
Qed.

(** X14. The fallback loses no heading but duplicates: every heading that
    the classification finds has an entry with the same lowercased text
    and page in the fallback outline, and every entry of the fallback
    outline is one of the headings found. *)
Theorem fallback_keeps_every_heading_key doc :
  (forall h, In h (headings_of doc) ->
     exists h', In h' (_extract_headings_by_font_analysis doc)
                /\ heading_key h' = heading_key h)
  /\ (forall h', In h' (_extract_headings_by_font_analysis doc) ->
        In h' (headings_of doc)).
Proof.
  rewrite font_analysis_unfold. split.
  - intros h Hin.
    destruct (unique_complete (headings_of doc) [] h Hin)
      as [[] | (h' & Hh' & Hk)].
    exists h'. split; [|exact Hk].
    eapply Permutation_in; [symmetry; apply sort_perm | exact Hh'].
  - intros h' Hin. apply unique_incl with [].
    eapply Permutation_in; [apply sort_perm | exact Hin].
Qed.

Lemma fallback_keeps_every_heading_key_witness :
  exists h',
    In h' (_extract_headings_by_font_analysis Examples.fonts_doc)
    /\ heading_key h' = (lit "large heading", 1%Z).
Proof.
  destruct (fallback_keeps_every_heading_key Examples.fonts_doc) as [H _].
  apply (H {| level := H2; text := lit "Large heading"; page := 1 |}).
  vm_compute. right. left. reflexivity.
Defined.

Lemma images_only_no_lines doc :
  (forall pg b, In pg (pages doc) -> In b (blocks pg) -> b = ImageBlock) ->
  all_text_blocks doc = [].
Proof.
  intros H. unfold all_text_blocks, enumerate.
  generalize 0. revert H. induction (pages doc) as [|pg ps IH]; intros H n;
    [reflexivity|].
  simpl. rewrite IH by (intros pg' b Hp; apply H; now right).
  rewrite app_nil_r.
  assert (Hb : forall b, In b (blocks pg) -> b = ImageBlock)
    by (intros b; apply H; now left).
  induction (blocks pg) as [|b bs IHb]; [reflexivity|].
  simpl. rewrite (Hb b (or_introl eq_refl)). simpl.
  apply IHb. intros b' Hb'. apply Hb. now right.
Qed.

(** X15. A document without text (no page, or image blocks only) whose
    table of contents has fewer than 3 entries gets an empty outline: the
    one or two entries of the table of contents are not kept. *)
Theorem short_toc_without_text_gives_empty_outline doc :
  length (get_toc doc) < 3 ->
  (forall pg b, In pg (pages doc) -> In b (blocks pg) -> b = ImageBlock) ->
  _extract_outline doc = [].
Proof.
  intros Htoc Himg. rewrite (extract_outline_fonts doc Htoc).
  unfold _extract_headings_by_font_analysis.
  now rewrite (images_only_no_lines doc Himg).
Qed.

Lemma short_toc_without_text_gives_empty_outline_witness :
  _extract_outline MoreExamples.scanned_doc = [].
Proof.
  apply (short_toc_without_text_gives_empty_outline MoreExamples.scanned_doc).
  - simpl. lia.
  - intros pg b Hp Hb.
    destruct Hp as [<- | [<- | []]]; simpl in Hb;
      repeat (destruct Hb as [<- | Hb]; [reflexivity|]); destruct Hb.
Defined.

(** X16. When every entry of the table of contents has a depth of 1 or
    more, every entry of the outline has the level H1, H2 or H3, whether the
    outline comes from the table of contents or from the fallback. *)
Theorem outline_levels_are_h1_h2_h3 doc h :
  (forall lvl title pg, In (lvl, title, pg) (get_toc doc) -> (1 <= lvl)%Z) ->
  In h (_extract_outline doc) ->
  is_level (level h).
Proof.
  intros Hdepth Hin.
  destruct (Nat.lt_ge_cases (length (get_toc doc)) 3) as [Hlt | Hge].
  - rewrite (extract_outline_fonts doc Hlt) in Hin.
    apply In_firstn, In_fallback, In_headings_of in Hin.
    now destruct Hin.
  - rewrite (extract_outline_toc doc Hge) in Hin.
    apply in_map_iff in Hin as ([[lvl title] pg] & <- & Hin).
    apply In_firstn in Hin.
    rewrite (toc_entry_level lvl title pg (Hdepth _ _ _ Hin)).
    unfold is_level.
    destruct (lvl =? 1)%Z; [now left|].
    destruct (lvl =? 2)%Z; [right; now left | right; now right].
Qed.

Lemma outline_levels_are_h1_h2_h3_witness :
  is_level (lit "H3").
Proof.
  apply (outline_levels_are_h1_h2_h3 Examples.toc_doc
           {| level := lit "H3"; text := lit "Method"; page := 2 |}).
  - intros lvl title pg Hin.
    destruct Hin as [E | [E | [E | []]]]; injection E as <- _ _; lia.
  - vm_compute. right. right. left. reflexivity.
Defined.

End StructureMore.

(** ** The batch over a directory *)

Module BatchFacts.
Import Py Re Sorting Layout Files PDFStructureExtractor StructureService.
Import PyFacts SortingFacts ListFacts OutlineFacts StructureMore.

Lemma eqb_char_refl c : eqb_char c c = true.
Proof. now apply eqb_char_true. Qed.

Lemma starts_with_app p r : starts_with p (p ++ r) = true.
Proof.
  induction p as [|x p IH]; simpl; [reflexivity|].
  now rewrite eqb_char_refl.
Qed.

Lemma ends_with_app suffix s : ends_with suffix (s ++ suffix) = true.
Proof. unfold ends_with. rewrite rev_app_distr. apply starts_with_app. Qed.

Lemma replace_without_occurrence old new s :
  contains old s = false -> replace old new s = s.
Proof.
  unfold replace. induction s as [|c s IH]; intros H; [reflexivity|].
  simpl in H. apply orb_false_iff in H as [H1 H2].
  change (replace_from old new 0 (c :: s))
    with (if starts_with old (c :: s)
          then new ++ replace_from old new (length old - 1) s
          else c :: replace_from old new 0 s).
  simpl starts_with. rewrite H1. now rewrite IH.
Qed.

(** No occurrence of ".pdf" begins in a stem without ".pdf" and ends in the
    extension: a dot is the first character of ".pdf" only. *)
Lemma pdf_no_straddle c t :
  starts_with (lit ".pdf") (c :: t) = false ->
  starts_with (lit ".pdf") ((c :: t) ++ lit ".pdf") = false.
Proof.
  intros H.
  destruct t as [|c2 [|c3 [|c4 t']]]; simpl in *;
    rewrite ?andb_false_r; try reflexivity.
  exact H.
Qed.

Lemma replace_pdf_extension stem :
  contains (lit ".pdf") stem = false ->
  replace (lit ".pdf") (lit ".json") (stem ++ lit ".pdf")
  = stem ++ lit ".json".
Proof.
  unfold replace. induction stem as [|c t IH]; intros H; [reflexivity|].
  simpl contains in H. apply orb_false_iff in H as [H1 H2].
  change (replace_from (lit ".pdf") (lit ".json") 0 ((c :: t) ++ lit ".pdf"))
    with (if starts_with (lit ".pdf") ((c :: t) ++ lit ".pdf")
          then lit ".json"
               ++ replace_from (lit ".pdf") (lit ".json")
                    (length (lit ".pdf") - 1) (t ++ lit ".pdf")
          else c :: replace_from (lit ".pdf") (lit ".json") 0
                      (t ++ lit ".pdf")).
  rewrite (pdf_no_straddle c t H1). simpl app. f_equal. now apply IH.
Qed.

(** X17. A file named [stem.pdf], with no other ".pdf" in the stem, is
    taken by the batch and its structure is written under [stem.json]. *)
Theorem batch_writes_json_name_for_pdf stem opened :
  contains (lit ".pdf") stem = false ->
  process_pdfs [(stem ++ lit ".pdf", opened)]
  = [(stem ++ lit ".json", extract_structure_file opened)].
Proof.
  intros H.
  assert (Hp : is_pdf_name (stem ++ lit ".pdf") = true).
  { unfold is_pdf_name, lower. rewrite map_app.
    change (map lower_char (lit ".pdf")) with (lit ".pdf").
    apply ends_with_app. }
  assert (Ho : output_filename (stem ++ lit ".pdf") = stem ++ lit ".json")
    by apply (replace_pdf_extension stem H).
  unfold process_pdfs. cbn [flat_map]. rewrite Hp, Ho. reflexivity.
Qed.

Lemma batch_writes_json_name_for_pdf_witness :
  process_pdfs [(lit "annual report.pdf", Unreadable)]
  = [(lit "annual report.json", (unknown_document, []))].
Proof.
  apply (batch_writes_json_name_for_pdf (lit "annual report") Unreadable).
  reflexivity.
Defined.

(** X18. A file whose name ends in ".pdf" only up to the case of the
    letters (".PDF", ".Pdf") and holds no lowercase ".pdf" is taken by the
    batch as well, but no ".json" name is made for it: its structure is
    written under the name of the file itself. *)
Theorem batch_keeps_name_without_lowercase_pdf filename opened :
  is_pdf_name filename = true ->
  contains (lit ".pdf") filename = false ->
  process_pdfs [(filename, opened)]
  = [(filename, extract_structure_file opened)].
Proof.
  intros Hp Hc.
  assert (Ho : output_filename filename = filename)
    by apply (replace_without_occurrence _ _ _ Hc).
  unfold process_pdfs. cbn [flat_map]. rewrite Hp, Ho. reflexivity.
Qed.

Lemma batch_keeps_name_without_lowercase_pdf_witness :
  process_pdfs [(lit "REPORT.PDF", Missing)]
  = [(lit "REPORT.PDF", (unknown_document, []))].
Proof.
  apply (batch_keeps_name_without_lowercase_pdf (lit "REPORT.PDF") Missing);
    reflexivity.
Defined.

Lemma read_write_same {A} (dir : list (str * A)) name content :
  read_file (write_file dir name content) name = Some content.
Proof.
  unfold read_file, write_file. simpl.
  assert (E : Py.eqb name name = true) by now apply eqb_true.
  now rewrite E.
Qed.

Lemma find_filter_other {A} (dir : list (str * A)) name other :
  Py.eqb other name = false ->
  find (fun f => Py.eqb (fst f) name)
       (filter (fun f => negb (Py.eqb (fst f) other)) dir)
  = find (fun f => Py.eqb (fst f) name) dir.
Proof.
  intros Hne. induction dir as [|[n c] dir IH]; [reflexivity|].
  simpl. destruct (Py.eqb n other) eqn:Eo; simpl.
  - apply eqb_true in Eo. subst n. now rewrite Hne.
  - destruct (Py.eqb n name); [reflexivity | exact IH].
Qed.

Lemma read_write_other {A} (dir : list (str * A)) name other content :
  Py.eqb other name = false ->
  read_file (write_file dir other content) name = read_file dir name.
Proof.
  intros Hne. unfold read_file, write_file. simpl. rewrite Hne.
  now rewrite find_filter_other.
Qed.

Lemma write_file_names {A} (dir : list (str * A)) name content :
  NoDup (map fst dir) -> NoDup (map fst (write_file dir name content)).
Proof.
  intros H. unfold write_file. simpl. constructor.
  - intros Hin. apply in_map_iff in Hin as ([n c] & E & Hin).
    apply filter_In in Hin as [_ Hin]. simpl in *. subst n.
    assert (Py.eqb name name = true) by now apply eqb_true.
    rewrite H0 in Hin. discriminate.
  - induction dir as [|[n c] dir IH]; [constructor|].
    simpl in *. inversion H as [|? ? Hn Hd]; subst.
    destruct (Py.eqb n name); simpl; [now apply IH|].
    constructor; [|now apply IH].
    intros Hin. apply Hn. apply in_map_iff in Hin as (f & E & Hin).
    apply filter_In in Hin as [Hin _]. apply in_map_iff. now exists f.
Qed.

Lemma find_append {A} (f : A -> bool) l1 l2 :
  find f (l1 ++ l2)
  = match find f l1 with
    | Some x => Some x
    | None => find f l2
    end.
Proof.
  induction l1 as [|x l1 IH]; [reflexivity|].
  simpl. destruct (f x); [reflexivity | exact IH].
Qed.

Lemma writes_read {A} (outs : list (str * A)) : forall dir name,
  read_file (fold_left (fun dir out => write_file dir (fst out) (snd out))
                       outs dir) name
  = match find (fun f => Py.eqb (fst f) name) (rev outs) with
    | Some f => Some (snd f)
    | None => read_file dir name
    end.
Proof.
  induction outs as [|[n c] outs IH]; intros dir name; [reflexivity|].
  simpl fold_left. rewrite IH. simpl rev. rewrite find_append.
  destruct (find (fun f => Py.eqb (fst f) name) (rev outs));
    [reflexivity|].
  simpl. destruct (Py.eqb n name) eqn:E.
  - apply eqb_true in E. subst n. apply read_write_same.
  - now apply read_write_other.
Qed.

Lemma writes_names {A} (outs : list (str * A)) : forall dir,
  NoDup (map fst dir) ->
  NoDup (map fst (fold_left
                    (fun dir out => write_file dir (fst out) (snd out))
                    outs dir)).
Proof.
  induction outs as [|[n c] outs IH]; intros dir H; [exact H|].
  simpl. apply IH. now apply write_file_names.
Qed.

(** X19. After the batch the output directory has one file for each
    distinct output name, and under a name it holds the structure of the
    last file of the listing that is written under this name (none when no
    listed PDF has this output name): when two PDF names give the same
    output name, the structure of the earlier one is lost. *)
Theorem batch_last_write_wins listing :
  NoDup (map fst (output_directory listing))
  /\ forall name,
       read_file (output_directory listing) name
       = option_map snd
           (find (fun out => Py.eqb (fst out) name)
                 (rev (process_pdfs listing))).
Proof.
  unfold output_directory. split.
  - apply writes_names. constructor.
  - intros name. rewrite writes_read.
    now destruct (find _ (rev (process_pdfs listing))).
Qed.

(** Two names of a listing that are written under one name: what is left
    is the structure of the second. *)
Example batch_collision_run :
  map fst (output_directory MoreExamples.colliding_listing)
    = [lit "a.json.json"]
  /\ read_file (output_directory MoreExamples.colliding_listing)
               (lit "a.json.json")
     = Some (extract_structure_file (Readable Examples.fonts_doc)).
Proof. split; reflexivity. Qed.

End BatchFacts.
